(** * MagicDec engine: cache management and rotary tables

    A shallow embedding of [Engine/model.py] and [Engine/model_selfspec.py],
    and of the generation loop of [tests/baseline_benchmark.py].

    Tensors are modelled by nested lists, one list level per dimension that
    the code indexes or slices.  Python exceptions are values of [PyError]
    carried by the [result] monad.  Floating point numbers are kept behind the
    interface [Scalar]: the code is translated operation by operation and no
    algebraic law is assumed about them. *)

From Stdlib Require Import ZArith QArith Qround String Ascii Lia Sorted.
From stdpp Require Import base tactics option list strings gmap.

Set Default Proof Using "Type".
Local Open Scope Z_scope.

(** ** Exceptions *)

Inductive PyError : Set :=
| AssertionError
| AttributeError
| IndexError
| KeyError
| OverflowError
| RuntimeError
| TypeError
| ZeroDivisionError.

Inductive result (A : Type) : Type :=
| Ok (a : A)
| Raise (e : PyError).
Arguments Ok {A} a.
Arguments Raise {A} e.

#[global] Instance result_ret : MRet result := fun _ a => Ok a.
#[global] Instance result_bind : MBind result := fun _ _ f m =>
  match m with
  | Ok a => f a
  | Raise e => Raise e
  end.

Definition is_ok {A} (r : result A) : bool :=
  match r with Ok _ => true | Raise _ => false end.

(** ** Python slices on one dimension *)

(** Start and stop of a slice are clamped into [0, n]; a negative index
    counts from the end. *)
Definition slice_index (n : nat) (i : Z) : nat :=
  if i <? 0 then Z.to_nat (i + Z.of_nat n) else Nat.min (Z.to_nat i) n.

(** [l[a:b]] *)
Definition py_slice {A} (l : list A) (a b : Z) : list A :=
  let s := slice_index (length l) a in
  let e := slice_index (length l) b in
  take (e - s) (drop s l).

(** [l[:b]] *)
Definition py_slice_to {A} (l : list A) (b : Z) : list A :=
  take (slice_index (length l) b) l.

(** [l[a:]] *)
Definition py_slice_from {A} (l : list A) (a : Z) : list A :=
  drop (slice_index (length l) a) l.

(** [l[i]] *)
Definition py_index {A} (l : list A) (i : Z) : result A :=
  let j := if i <? 0 then i + Z.of_nat (length l) else i in
  if j <? 0 then Raise IndexError
  else match l !! Z.to_nat j with
       | Some x => Ok x
       | None => Raise IndexError
       end.

(** Broadcasting of one dimension: the size is either the expected one or 1. *)
Definition expand {A} (n : nat) (l : list A) : result (list A) :=
  if decide (length l = n) then Ok l
  else match l with
       | [x] => Ok (replicate n x)
       | _ => Raise RuntimeError
       end.

(** [l[a:b] = v] on a buffer of fixed size. *)
Definition py_setitem {A} (l : list A) (a b : Z) (v : list A) : result (list A) :=
  let s := slice_index (length l) a in
  let e := slice_index (length l) b in
  v' ← expand (e - s)%nat v;
  Ok (take s l ++ v' ++ drop (s + (e - s))%nat l).

(** ** Tensors of shape [B, S, ...]: one row per sequence of the batch *)

(** A tensor of shape [B, S, ...] is the list of its [B] sequences. *)
Abbreviation tensor E := (list (list E)).

Section Tensor.
Context {E : Type}.

(** [t.shape[1]] *)
Definition shape1 (t : tensor E) : nat :=
  match t with
  | [] => 0%nat
  | r :: _ => length r
  end.

(** Every row has [n] positions. *)
Definition rows_of (n : nat) (t : tensor E) : Prop := Forall (fun r => length r = n) t.

(** [t[:, a:b]], [t[:, :b]], [t[:, a:]] *)
Definition slice1 (t : tensor E) (a b : Z) : tensor E := map (fun r => py_slice r a b) t.
Definition slice1_to (t : tensor E) (b : Z) : tensor E := map (fun r => py_slice_to r b) t.
Definition slice1_from (t : tensor E) (a : Z) : tensor E := map (fun r => py_slice_from r a) t.

(** [torch.cat((t, u), dim=1)]: the batch sizes must agree. *)
Definition cat1 (t u : tensor E) : result (tensor E) :=
  if decide (length t = length u) then Ok (zip_with app t u) else Raise RuntimeError.

Fixpoint setitem_rows (t v : tensor E) (a b : Z) : result (tensor E) :=
  match t, v with
  | r :: t', x :: v' =>
      r' ← py_setitem r a b x;
      t'' ← setitem_rows t' v' a b;
      Ok (r' :: t'')
  | _, _ => Ok []
  end.

(** [t[:, a:b] = v]; [v] is broadcast over the batch when it has one row. *)
Definition setitem1 (t : tensor E) (a b : Z) (v : tensor E) : result (tensor E) :=
  v' ← expand (length t) v;
  setitem_rows t v' a b.

(** The row [r] with [x] written over the positions [s, s + length x). *)
Definition write_at (s : nat) (x r : list E) : list E :=
  take s r ++ x ++ drop (s + length x) r.

(** The last [n - 16] entries of the sliding region [16, n) of [r] followed
    by the new entries [x]. *)
Definition window (n : nat) (x r : list E) : list E :=
  drop (length x) (take (n - 16) (drop 16 r) ++ x).

(** The row [r] with that window written over its sliding region: the 16
    sink slots and the slots from [n] on are those of [r]. *)
Definition shifted (n : nat) (x r : list E) : list E := write_at 16 (window n x r) r.

(** [torch.cat(ts, dim=1)] for tensors of [B] sequences each. *)
Definition cat_rows (B : nat) (ts : list (tensor E)) : tensor E :=
  foldr (zip_with app) (replicate B []) ts.

(** [B] sequences, all of the length of the first. *)
Definition batch_of (B : nat) (t : tensor E) : Prop :=
  length t = B /\ rows_of (shape1 t) t.
End Tensor.


(** ** Numbers

    [torch] and Python floats are used through this interface only, but for
    [int(a / b)] on two integers, whose rounding is written out in [Z].  The
    integer fields of a configuration stay in [Z] and enter float arithmetic
    through [f_of_Z]. *)

Inductive DType : Set := bfloat16 | float16 | float32.

Class Scalar (F : Type) : Type := {
  f_of_Z : Z -> F;
  f_pi : F;
  f_add : F -> F -> F;
  f_sub : F -> F -> F;
  f_mul : F -> F -> F;
  f_div : F -> F -> F;
  f_pow : F -> F -> F;
  f_cos : F -> F;
  f_sin : F -> F;
  f_ltb : F -> F -> bool;
  f_eqb : F -> F -> bool;
  f_cast : DType -> F -> F;
}.

(** [x / y] on two Python integers: true division. *)
Definition int_truediv {F} `{Scalar F} (x y : Z) : result F :=
  if y =? 0 then Raise ZeroDivisionError else Ok (f_div (f_of_Z x) (f_of_Z y)).

(** [x // y] on two Python integers: floor division. *)
Definition int_floordiv (x y : Z) : result Z :=
  if y =? 0 then Raise ZeroDivisionError else Ok (x / y).

(** The double nearest to [a / b], ties to even, for positive integers [a]
    and [b]: the pair [(m, e)] stands for [m * 2^e], with
    [2^52 <= m <= 2^53]. *)
Definition round_div (a b : Z) : Z * Z :=
  let e0 := Z.log2 a - Z.log2 b in
  let above := if 0 <=? e0 then b * 2 ^ e0 <=? a else b <=? a * 2 ^ (- e0) in
  let e := if above then e0 else e0 - 1 in
  let s := 52 - e in
  let num := if 0 <=? s then a * 2 ^ s else a in
  let den := if 0 <=? s then b else b * 2 ^ (- s) in
  let q := num / den in
  let r := num mod den in
  let m := if (den <? 2 * r) || ((2 * r =? den) && Z.odd q) then q + 1 else q in
  (m, - s).

(** [int(a / b)] on two Python integers: the true division gives the double
    nearest to the quotient, or fails when that is out of range, and [int]
    truncates it towards zero. *)
Definition int_truediv_trunc (a b : Z) : result Z :=
  if b =? 0 then Raise ZeroDivisionError
  else if a =? 0 then Ok 0
  else
    let me := round_div (Z.abs a) (Z.abs b) in
    if (0 <=? me.2) && (2 ^ 1024 <=? me.1 * 2 ^ me.2) then Raise OverflowError
    else
      let t := if 0 <=? me.2 then me.1 * 2 ^ me.2 else me.1 / 2 ^ (- me.2) in
      Ok (Z.sgn a * Z.sgn b * t).

(** One dimension of [torch.zeros(shape)] or of [repeat]: [n] copies, and an
    error on a negative size. *)
Definition zeros_dim {A} (n : Z) (x : A) : result (list A) :=
  if n <? 0 then Raise RuntimeError else Ok (replicate (Z.to_nat n) x).

(** ** Model configuration ([ModelArgs], the same text in both files) *)

Definition find_multiple (n k : Z) : Z :=
  if n mod k =? 0 then n else n + k - (n mod k).

Record ModelArgs (F : Type) : Type := mkModelArgs {
  block_size : Z;
  vocab_size : Z;
  n_layer : Z;
  n_head : Z;
  dim : Z;
  intermediate_size : option Z;
  n_local_heads : Z;
  head_dim : Z;
  rope_base : F;
  norm_eps : F;
  scaling_factor : F;
  low_freq_factor : option Z;
  high_freq_factor : option Z;
  original_max_position_embeddings : option Z;
}.
Arguments mkModelArgs {F}.
Arguments block_size {F}.
Arguments vocab_size {F}.
Arguments n_layer {F}.
Arguments n_head {F}.
Arguments dim {F}.
Arguments intermediate_size {F}.
Arguments n_local_heads {F}.
Arguments head_dim {F}.
Arguments rope_base {F}.
Arguments norm_eps {F}.
Arguments scaling_factor {F}.
Arguments low_freq_factor {F}.
Arguments high_freq_factor {F}.
Arguments original_max_position_embeddings {F}.

(** A keyword argument of the constructor, as in [dict(block_size=4096, ...)]. *)
Inductive Kwarg (F : Type) : Type :=
| kw_block_size (v : Z)
| kw_vocab_size (v : Z)
| kw_n_layer (v : Z)
| kw_n_head (v : Z)
| kw_dim (v : Z)
| kw_intermediate_size (v : option Z)
| kw_n_local_heads (v : Z)
| kw_head_dim (v : Z)
| kw_rope_base (v : F)
| kw_norm_eps (v : F)
| kw_scaling_factor (v : F)
| kw_low_freq_factor (v : option Z)
| kw_high_freq_factor (v : option Z)
| kw_original_max_position_embeddings (v : option Z).
Arguments kw_block_size {F}.
Arguments kw_vocab_size {F}.
Arguments kw_n_layer {F}.
Arguments kw_n_head {F}.
Arguments kw_dim {F}.
Arguments kw_intermediate_size {F}.
Arguments kw_n_local_heads {F}.
Arguments kw_head_dim {F}.
Arguments kw_rope_base {F}.
Arguments kw_norm_eps {F}.
Arguments kw_scaling_factor {F}.
Arguments kw_low_freq_factor {F}.
Arguments kw_high_freq_factor {F}.
Arguments kw_original_max_position_embeddings {F}.

Section Config.
Context {F : Type} `{Scalar F}.

(** The field defaults of the dataclass; [norm_eps] defaults to [1e-5]. *)
Definition field_defaults : ModelArgs F :=
  {| block_size := 2048;
     vocab_size := 32000;
     n_layer := 32;
     n_head := 32;
     dim := 4096;
     intermediate_size := None;
     n_local_heads := -1;
     head_dim := 64;
     rope_base := f_of_Z 10000;
     norm_eps := f_div (f_of_Z 1) (f_of_Z 100000);
     scaling_factor := f_of_Z 1;
     low_freq_factor := None;
     high_freq_factor := None;
     original_max_position_embeddings := None |}.

Definition set_field (a : ModelArgs F) (kw : Kwarg F) : ModelArgs F :=
  match a with
  | mkModelArgs bs vs nl nh d isz nlh hd rb ne sf lo hi om =>
      match kw with
      | kw_block_size v => mkModelArgs v vs nl nh d isz nlh hd rb ne sf lo hi om
      | kw_vocab_size v => mkModelArgs bs v nl nh d isz nlh hd rb ne sf lo hi om
      | kw_n_layer v => mkModelArgs bs vs v nh d isz nlh hd rb ne sf lo hi om
      | kw_n_head v => mkModelArgs bs vs nl v d isz nlh hd rb ne sf lo hi om
      | kw_dim v => mkModelArgs bs vs nl nh v isz nlh hd rb ne sf lo hi om
      | kw_intermediate_size v => mkModelArgs bs vs nl nh d v nlh hd rb ne sf lo hi om
      | kw_n_local_heads v => mkModelArgs bs vs nl nh d isz v hd rb ne sf lo hi om
      | kw_head_dim v => mkModelArgs bs vs nl nh d isz nlh v rb ne sf lo hi om
      | kw_rope_base v => mkModelArgs bs vs nl nh d isz nlh hd v ne sf lo hi om
      | kw_norm_eps v => mkModelArgs bs vs nl nh d isz nlh hd rb v sf lo hi om
      | kw_scaling_factor v => mkModelArgs bs vs nl nh d isz nlh hd rb ne v lo hi om
      | kw_low_freq_factor v => mkModelArgs bs vs nl nh d isz nlh hd rb ne sf v hi om
      | kw_high_freq_factor v => mkModelArgs bs vs nl nh d isz nlh hd rb ne sf lo v om
      | kw_original_max_position_embeddings v =>
          mkModelArgs bs vs nl nh d isz nlh hd rb ne sf lo hi v
      end
  end.

(** [ModelArgs.__post_init__]; [2 * hidden_dim / 3] is the true division of
    two integers. *)
Definition post_init (self : ModelArgs F) : result (ModelArgs F) :=
  let n_local_heads' :=
    if n_local_heads self =? -1 then n_head self else n_local_heads self in
  intermediate_size' ← match intermediate_size self with
                       | None =>
                           let hidden_dim := 4 * dim self in
                           n_hidden ← int_truediv_trunc (2 * hidden_dim) 3;
                           Ok (Some (find_multiple n_hidden 256))
                       | Some v => Ok (Some v)
                       end;
  head_dim' ← int_floordiv (dim self) (n_head self);
  Ok (mkModelArgs (block_size self) (vocab_size self) (n_layer self) (n_head self)
        (dim self) intermediate_size' n_local_heads' head_dim'
        (rope_base self) (norm_eps self) (scaling_factor self)
        (low_freq_factor self) (high_freq_factor self)
        (original_max_position_embeddings self)).

(** The constructor call with keyword arguments: the generated [__init__] stores the arguments over
    the defaults and then runs [__post_init__]. *)
Definition ModelArgs_new (kwargs : list (Kwarg F)) : result (ModelArgs F) :=
  post_init (foldl set_field field_defaults kwargs).

(** [transformer_configs] *)
Definition transformer_configs : list (string * list (Kwarg F)) :=
  [ ("llama-2-7b"%string,
      [kw_block_size 4096; kw_n_layer 32; kw_n_head 32; kw_dim 4096]);
    ("llama-2-7b-32k"%string,
      [kw_block_size 32768; kw_n_layer 32; kw_dim 4096; kw_vocab_size 32000;
       kw_scaling_factor (f_of_Z 8)]);
    ("llama-2-13b"%string,
      [kw_block_size 4096; kw_n_layer 40; kw_n_head 40; kw_dim 5120]);
    ("llama-2-70b"%string,
      [kw_block_size 4096; kw_n_layer 80; kw_n_head 64; kw_dim 8192;
       kw_n_local_heads 8; kw_intermediate_size (Some 28672)]);
    ("llama-3-8b"%string,
      [kw_block_size 8192; kw_n_layer 32; kw_n_head 32; kw_n_local_heads 8;
       kw_dim 4096; kw_intermediate_size (Some 14336); kw_vocab_size 128256;
       kw_rope_base (f_of_Z 500000)]);
    ("llama-3-70b"%string,
      [kw_block_size 8192; kw_n_layer 80; kw_n_head 64; kw_n_local_heads 8;
       kw_dim 8192; kw_intermediate_size (Some 28672); kw_vocab_size 128256;
       kw_rope_base (f_of_Z 500000)]);
    ("68m"%string,
      [kw_block_size 2048; kw_n_layer 2; kw_n_head 12; kw_n_local_heads 12;
       kw_dim 768; kw_intermediate_size (Some 3072); kw_vocab_size 32000]);
    ("tinyllama"%string,
      [kw_block_size 2048; kw_n_layer 22; kw_n_head 32; kw_n_local_heads 4;
       kw_dim 2048; kw_intermediate_size (Some 5632); kw_vocab_size 32000]);
    ("llama-3.1-8b"%string,
      [kw_block_size 131072; kw_n_layer 32; kw_n_head 32; kw_n_local_heads 8;
       kw_dim 4096; kw_intermediate_size (Some 14336); kw_vocab_size 128256;
       kw_rope_base (f_of_Z 500000); kw_scaling_factor (f_of_Z 8);
       kw_high_freq_factor (Some 4); kw_low_freq_factor (Some 1);
       kw_original_max_position_embeddings (Some 8192)]) ].

(** *** Name resolution *)

(** [str.lower] on ASCII strings. *)
Definition lower_ascii (c : ascii) : ascii :=
  let n := nat_of_ascii c in
  if ((65 <=? n) && (n <=? 90))%nat then ascii_of_nat (n + 32) else c.

Fixpoint lower (s : string) : string :=
  match s with
  | EmptyString => EmptyString
  | String c s' => String (lower_ascii c) (lower s')
  end.

(** [p in s] on strings. *)
Fixpoint contains (p s : string) : bool :=
  if String.prefix p s then true
  else match s with
       | EmptyString => false
       | String _ s' => contains p s'
       end.

(** [dict.__getitem__] and [in] on a table in insertion order. *)
Fixpoint table_get {V} (k : string) (t : list (string * V)) : option V :=
  match t with
  | [] => None
  | (k', v) :: t' => if String.eqb k k' then Some v else table_get k t'
  end.

(** [list.sort(key=len, reverse=True)]: stable, longest first. *)
Fixpoint insert_by_len (x : string) (l : list string) : list string :=
  match l with
  | [] => [x]
  | y :: l' =>
      if (String.length y <=? String.length x)%nat then x :: y :: l'
      else y :: insert_by_len x l'
  end.

Definition sort_by_len_desc (l : list string) : list string :=
  foldr insert_by_len [] l.

(** No string is longer than one before it. *)
Definition longest_first : list string -> Prop :=
  StronglySorted (fun a b => (String.length b <= String.length a)%nat).

(** The keys of the table that occur in [name], whatever the case. *)
Definition fuzzy_matches {V} (table : list (string * V)) (name : string) : list string :=
  filter (fun k => contains (lower k) (lower name) = true) (map fst table).

(** [ModelArgs.from_name] over a configuration table. *)
Definition from_name_in (table : list (string * list (Kwarg F))) (name : string)
  : result (ModelArgs F) :=
  match table_get name table with
  | Some kwargs => ModelArgs_new kwargs
  | None =>
      let config := fuzzy_matches table name in
      config ← (if (1 <? length config)%nat then
                  let sorted := sort_by_len_desc config in
                  match sorted with
                  | c0 :: c1 :: _ =>
                      if (String.length c0 =? String.length c1)%nat
                      then Raise AssertionError else Ok sorted
                  | _ => Raise IndexError
                  end
                else Ok config);
      match config with
      | [] => Raise IndexError
      | c0 :: _ =>
          match table_get c0 table with
          | Some kwargs => ModelArgs_new kwargs
          | None => Raise KeyError
          end
      end
  end.

Definition from_name (name : string) : result (ModelArgs F) :=
  from_name_in transformer_configs name.

End Config.

(** ** Rotary frequency tables (the same text in both files) *)

(** One row of a table: the [(cos, sin)] pairs of a position. *)
Abbreviation freq_row F := (list (F * F)).

(** An entry of a [B, S, H, D] tensor at one position: [H] heads of [D] numbers. *)
Abbreviation entry F := (list (list F)).

Section Rope.
Context {F : Type} `{Scalar F}.

(** The body of the loop of [_compute_llama3_parameters] for one [freq]. *)
Definition llama3_freq (old_context_len : Z) (scaling_factor : F)
    (low_freq_factor high_freq_factor : Z) (low_freq_wavelen high_freq_wavelen : F)
    (freq : F) : result F :=
  let wavelen := f_div (f_mul (f_of_Z 2) f_pi) freq in
  if f_ltb wavelen high_freq_wavelen then Ok freq
  else if f_ltb low_freq_wavelen wavelen then Ok (f_div freq scaling_factor)
  else
    if f_eqb low_freq_wavelen high_freq_wavelen then Raise AssertionError
    else
      let smooth :=
        f_div (f_sub (f_div (f_of_Z old_context_len) wavelen) (f_of_Z low_freq_factor))
              (f_of_Z (high_freq_factor - low_freq_factor)) in
      Ok (f_add (f_div (f_mul (f_sub (f_of_Z 1) smooth) freq) scaling_factor)
                (f_mul smooth freq)).

Fixpoint llama3_loop (old_context_len : Z) (scaling_factor : F)
    (low_freq_factor high_freq_factor : Z) (low_freq_wavelen high_freq_wavelen : F)
    (inv_freq : list F) : result (list F) :=
  match inv_freq with
  | [] => Ok []
  | freq :: rest =>
      f ← llama3_freq old_context_len scaling_factor low_freq_factor high_freq_factor
            low_freq_wavelen high_freq_wavelen freq;
      new_freqs ← llama3_loop old_context_len scaling_factor low_freq_factor
                    high_freq_factor low_freq_wavelen high_freq_wavelen rest;
      Ok (f :: new_freqs)
  end.

(** [_compute_llama3_parameters]; [old_context_len] is [None] when the caller
    passes an absent [original_max_position_embeddings]. *)
Definition _compute_llama3_parameters (inv_freq : list F) (old_context_len : option Z)
    (scaling_factor : F) (low_freq_factor high_freq_factor : Z) : result (list F) :=
  match old_context_len with
  | None => Raise TypeError
  | Some old =>
      low_freq_wavelen ← int_truediv old low_freq_factor;
      high_freq_wavelen ← int_truediv old high_freq_factor;
      llama3_loop old scaling_factor low_freq_factor high_freq_factor
        low_freq_wavelen high_freq_wavelen inv_freq
  end.

(** The rescaled frequency in the words of the specification: unchanged
    below the high wavelength, divided by the scaling factor above the low
    one, and the linear blend otherwise. *)
Definition rescaled_freq (old_context_len : Z) (scaling_factor : F)
    (low_freq_factor high_freq_factor : Z) (f : F) : F :=
  let low_wavelen := f_div (f_of_Z old_context_len) (f_of_Z low_freq_factor) in
  let high_wavelen := f_div (f_of_Z old_context_len) (f_of_Z high_freq_factor) in
  let wavelen := f_div (f_mul (f_of_Z 2) f_pi) f in
  if f_ltb wavelen high_wavelen then f
  else if f_ltb low_wavelen wavelen then f_div f scaling_factor
  else
    let smooth :=
      f_div (f_sub (f_div (f_of_Z old_context_len) wavelen) (f_of_Z low_freq_factor))
            (f_of_Z (high_freq_factor - low_freq_factor)) in
    f_add (f_div (f_mul (f_sub (f_of_Z 1) smooth) f) scaling_factor) (f_mul smooth f).

(** [torch.arange(n)] as integers; a negative bound is an error. *)
Definition arange (n : Z) : result (list Z) :=
  if n <? 0 then Raise RuntimeError else Ok (map Z.of_nat (seq 0 (Z.to_nat n))).

(** [1.0 / (base ** (torch.arange(0, n_elem, 2)[: (n_elem // 2)].float() / n_elem))] *)
Definition base_freqs (n_elem : Z) (base : F) : result (list F) :=
  idx ← arange (n_elem / 2);
  Ok (map (fun i => f_div (f_of_Z 1)
                      (f_pow base (f_div (f_of_Z (2 * i)) (f_of_Z n_elem)))) idx).

(** [torch.polar(abs, angle)] as the pair of its real and imaginary parts. *)
Definition polar (abs angle : F) : F * F :=
  (f_mul abs (f_cos angle), f_mul abs (f_sin angle)).

Definition precompute_freqs_cis (seq_len n_elem : Z) (base : F) (dtype : DType)
    (scaling_factor : F) (low_freq_factor high_freq_factor : option Z)
    (original_max_position_embeddings : option Z) : result (list (freq_row F)) :=
  freqs ← base_freqs n_elem base;
  freqs ← match low_freq_factor, high_freq_factor with
          | Some low, Some high =>
              _compute_llama3_parameters freqs original_max_position_embeddings
                scaling_factor low high
          | _, _ => Ok (map (fun f => f_div f scaling_factor) freqs)
          end;
  t ← arange seq_len;
  Ok (map (fun p =>
             map (fun f =>
                    let c := polar (f_of_Z 1) (f_mul (f_of_Z p) f) in
                    (f_cast dtype c.1, f_cast dtype c.2)) freqs) t).

(** The two calls that end both [setup_caches]. *)
Definition freqs_of_config (config : ModelArgs F) (dtype : DType) : result (list (freq_row F)) :=
  match high_freq_factor config, low_freq_factor config with
  | Some high, Some low =>
      n_elem ← int_floordiv (dim config) (n_head config);
      precompute_freqs_cis (block_size config) n_elem (rope_base config) dtype
        (scaling_factor config) (Some low) (Some high)
        (original_max_position_embeddings config)
  | _, _ =>
      n_elem ← int_floordiv (dim config) (n_head config);
      precompute_freqs_cis (block_size config) n_elem (rope_base config) dtype
        (scaling_factor config) None None None
  end.

(** A configuration without its three long-context fields. *)
Definition without_long_context (config : ModelArgs F) : ModelArgs F :=
  mkModelArgs (block_size config) (vocab_size config) (n_layer config) (n_head config)
    (dim config) (intermediate_size config) (n_local_heads config) (head_dim config)
    (rope_base config) (norm_eps config) (scaling_factor config) None None None.

(** The pairs [(x0, x1)] of one head rotated by the pairs [(cos, sin)] of one
    position; [x.float()] and [type_as(x)] are the two casts. *)
Fixpoint rotate_head (dtype : DType) (x : list F) (fr : freq_row F) : result (list F) :=
  match x, fr with
  | [], [] => Ok []
  | x0 :: x1 :: x', (c, s) :: fr' =>
      let x0 := f_cast float32 x0 in
      let x1 := f_cast float32 x1 in
      rest ← rotate_head dtype x' fr';
      Ok (f_cast dtype (f_sub (f_mul x0 c) (f_mul x1 s))
          :: f_cast dtype (f_add (f_mul x1 c) (f_mul x0 s)) :: rest)
  | _, _ => Raise RuntimeError
  end.

Fixpoint rotate_heads (dtype : DType) (e : entry F) (fr : freq_row F) : result (entry F) :=
  match e with
  | [] => Ok []
  | h :: e' =>
      h' ← rotate_head dtype h fr;
      e'' ← rotate_heads dtype e' fr;
      Ok (h' :: e'')
  end.

Fixpoint rotate_row (dtype : DType) (r : list (entry F)) (fr : list (freq_row F))
  : result (list (entry F)) :=
  match r, fr with
  | [], [] => Ok []
  | e :: r', f :: fr' =>
      e' ← rotate_heads dtype e f;
      r'' ← rotate_row dtype r' fr';
      Ok (e' :: r'')
  | _, _ => Raise RuntimeError
  end.

(** The sequences of a batch, each rotated by its row of the table. *)
Fixpoint rotate_batch (dtype : DType) (x : tensor (entry F)) (freqs_cis : tensor (freq_row F))
  : result (tensor (entry F)) :=
  match x, freqs_cis with
  | [], [] => Ok []
  | r :: x', fr :: freqs' =>
      r' ← rotate_row dtype r fr;
      x'' ← rotate_batch dtype x' freqs';
      Ok (r' :: x'')
  | _, _ => Raise RuntimeError
  end.

(** [x] of shape [B, S, H, D] has no sequence, no position or no head: the
    sizes are read off the first sequence and its first position. *)
Definition no_head (x : tensor (entry F)) : bool :=
  match x with
  | [] => true
  | [] :: _ => true
  | ([] :: _) :: _ => true
  | ((_ :: _) :: _) :: _ => false
  end.

(** [apply_rotary_emb(x, freqs_cis)] for [x] of element type [dtype]: the
    entry of sequence [b] at index [j] is rotated by [freqs_cis[b][j]].  The
    [reshape] of [x] into pairs, with its [-1], fails when [B * S * H] is
    0.  The [view] of [freqs_cis] is modelled for a table of the shape of
    [x] only: a table of another shape raises here, also where the [view]
    would read it anew. *)
Definition apply_rotary_emb (dtype : DType) (x : tensor (entry F))
    (freqs_cis : tensor (freq_row F)) : result (tensor (entry F)) :=
  if no_head x then Raise RuntimeError else rotate_batch dtype x freqs_cis.

(** [table[idx]] for a list of positions. *)
Definition index_rows {A} (table : list A) (idx : list Z) : result (list A) :=
  mapM (py_index table) idx.

End Rope.

(** ** The paged target model ([model.py]) *)

Module Model.

(** The two kernels that [setup_caches] attaches to an attention module. *)
Inductive Kernel : Set := target_decode | target_prefill.

Section Target.
Context {F : Type} `{Scalar F}.

(** [KVCache]: [kv_cache] has shape
    [(max_num_pages, 2, page_size, n_heads, head_dim)]. *)
Record KVCache : Type := mkKVCache {
  kv_cache : list (tensor (entry F));
}.

(** [KVCache.__init__] *)
Definition KVCache_new (max_num_pages page_size n_heads head_dim : Z) (dtype : DType)
  : result KVCache :=
  head ← zeros_dim head_dim (f_of_Z 0);
  e ← zeros_dim n_heads head;
  slots ← zeros_dim page_size e;
  pages ← zeros_dim max_num_pages [slots; slots];
  Ok (mkKVCache pages).

Record Attention : Type := mkAttention {
  att_kv_cache : option KVCache;
  attn_decode : option Kernel;
  attn_prefill : option Kernel;
}.

Record Transformer : Type := mkTransformer {
  config : ModelArgs F;
  layers : list Attention;
  freqs_cis : option (list (freq_row F));
  output_dtype : DType;
}.

(** [Transformer.__init__] *)
Definition Transformer_new (config : ModelArgs F) (dtype : DType) : Transformer :=
  mkTransformer config
    (replicate (Z.to_nat (n_layer config)) (mkAttention None None None))
    None dtype.

(** [Transformer.setup_caches] *)
Definition setup_caches (self : Transformer) (num_pages page_size : Z)
  : result Transformer :=
  head_dim ← int_floordiv (dim (config self)) (n_head (config self));
  let dtype := output_dtype self in
  layers' ← mapM (fun b : Attention =>
                    kv ← KVCache_new num_pages page_size
                           (n_local_heads (config self)) head_dim dtype;
                    Ok (mkAttention (Some kv) (Some target_decode) (Some target_prefill)))
                 (layers self);
  freqs ← freqs_of_config (config self) dtype;
  Ok (mkTransformer (config self) layers' (Some freqs) (output_dtype self)).


(** The module that [setup_caches] installs in every block: a fresh cache of
    zeros and the two kernels. *)
Definition fresh_layer (config : ModelArgs F) (dtype : DType) (num_pages page_size : Z)
  : result Attention :=
  head_dim ← int_floordiv (dim config) (n_head config);
  kv ← KVCache_new num_pages page_size (n_local_heads config) head_dim dtype;
  Ok (mkAttention (Some kv) (Some target_decode) (Some target_prefill)).

End Target.
End Model.

(** ** The streaming window cache of the draft model
    ([KVCache] of [model_selfspec.py]) *)

Module SelfSpec.

Record KVCache (E : Type) : Type := mkKVCache {
  k_cache : tensor E;
  v_cache : tensor E;
  draft_k_cache : tensor E;
  draft_v_cache : tensor E;
  streaming_budget : Z;
}.
Arguments mkKVCache {E}.
Arguments k_cache {E}.
Arguments v_cache {E}.
Arguments draft_k_cache {E}.
Arguments draft_v_cache {E}.
Arguments streaming_budget {E}.

Section Streaming.
Context {E : Type}.

(** A draft cache as [KVCache.__init__] shapes it: [B] sequences of [cap]
    slots, with a budget above the 16 sink slots and within [cap]. *)
Record cache_wf (self : KVCache E) (B cap : nat) : Prop := {
  wf_k_batch : length (draft_k_cache self) = B;
  wf_v_batch : length (draft_v_cache self) = B;
  wf_k_rows : rows_of cap (draft_k_cache self);
  wf_v_rows : rows_of cap (draft_v_cache self);
  wf_budget : 16 < streaming_budget self <= Z.of_nat cap;
}.

Definition set_draft (self : KVCache E) (k v : tensor E) : KVCache E :=
  mkKVCache (k_cache self) (v_cache self) k v (streaming_budget self).

(** [KVCache.prefill(self, cache_len, k_val, v_val)]: the returned pair and
    the cache after the in-place writes. *)
Definition prefill (self : KVCache E) (cache_len : list Z) (k_val v_val : tensor E)
  : result ((tensor E * tensor E) * KVCache E) :=
  let k_out := draft_k_cache self in
  let v_out := draft_v_cache self in
  cache_len_int ← match cache_len with
                  | [] => Raise IndexError
                  | c :: _ => Ok c
                  end;
  let stop := cache_len_int + Z.of_nat (shape1 k_val) in
  if stop <=? streaming_budget self then
    k_out ← setitem1 k_out cache_len_int stop k_val;
    v_out ← setitem1 v_out cache_len_int stop v_val;
    Ok ((slice1_to k_out stop, slice1_to v_out stop), set_draft self k_out v_out)
  else
    kk ← cat1 (slice1 k_out 16 (streaming_budget self)) k_val;
    let new_k := slice1_from kk (- streaming_budget self + 16) in
    vv ← cat1 (slice1 v_out 16 (streaming_budget self)) v_val;
    let new_v := slice1_from vv (- streaming_budget self + 16) in
    k_out ← setitem1 k_out 16 (streaming_budget self) new_k;
    v_out ← setitem1 v_out 16 (streaming_budget self) new_v;
    Ok ((slice1_to k_out (streaming_budget self), slice1_to v_out (streaming_budget self)),
        set_draft self k_out v_out).

(** One call of [prefill]: the cursors and the new keys and values. *)
Definition call : Type := list Z * tensor E * tensor E.

(** The calls one after the other on the same cache: what each returned, and
    the cache at the end. *)
Fixpoint run_prefill (self : KVCache E) (calls : list call)
  : result (list (tensor E * tensor E) * KVCache E) :=
  match calls with
  | [] => Ok ([], self)
  | (cache_len, k_val, v_val) :: rest =>
      r ← prefill self cache_len k_val v_val;
      rs ← run_prefill r.2 rest;
      Ok (r.1 :: rs.1, rs.2)
  end.

(** The shapes of a call on a cache of [B] sequences. *)
Definition call_shaped (B : nat) (c : call) : Prop :=
  batch_of B c.1.2 /\ batch_of B c.2 /\ shape1 c.2 = shape1 c.1.2.

(** Cursors that advance: the first cursor of a call is at least [start],
    and the next call starts at or after the end of this one. *)
Fixpoint advancing (start : Z) (calls : list call) : Prop :=
  match calls with
  | [] => True
  | (cache_len, k_val, _) :: rest =>
      match cache_len with
      | [] => False
      | c :: _ => start <= c /\ advancing (c + Z.of_nat (shape1 k_val)) rest
      end
  end.

(** Cursors that count what was appended: the first cursor of a call is
    exactly [start], the length appended before it. *)
Fixpoint counting (start : Z) (calls : list call) : Prop :=
  match calls with
  | [] => True
  | (cache_len, k_val, _) :: rest =>
      match cache_len with
      | [] => False
      | c :: _ => c = start /\ counting (start + Z.of_nat (shape1 k_val)) rest
      end
  end.

(** The total length of the calls. *)
Definition total_len (calls : list call) : nat :=
  foldr (fun c n => (shape1 c.1.2 + n)%nat) 0%nat calls.
End Streaming.

(** [KVCache.__init__] *)
Definition KVCache_new {F} `{Scalar F} (max_batch_size max_seq_length n_heads head_dim : Z)
    (dtype : DType) (streaming_budget buffer : Z) : result (KVCache (entry F)) :=
  head ← zeros_dim head_dim (f_of_Z 0);
  e ← zeros_dim n_heads head;
  row ← zeros_dim max_seq_length e;
  cache ← zeros_dim max_batch_size row;
  draft_row ← zeros_dim (streaming_budget + buffer) e;
  draft_cache ← zeros_dim max_batch_size draft_row;
  Ok (mkKVCache cache cache draft_cache draft_cache streaming_budget).

Section Draft.
Context {F : Type} `{Scalar F}.
(** [X] is a hidden vector of [dim] numbers. *)
Context {X : Type}.
(** The kernel [torch.ops.mylib.custom_func_2], followed by the [view] of its
    output, and [dist.all_reduce]. *)
Variable custom_func_2 :
  tensor (entry F) -> tensor (entry F) -> tensor (entry F) -> tensor X.
Variable all_reduce : tensor X -> tensor X.

(** [Attention]: [wqkv] is the fused projection with its [split] and [view]s,
    position by position. *)
Record Attention : Type := mkAttention {
  wqkv : X -> (entry F) * (entry F) * (entry F);
  wo : X -> X;
  kv_cache : option (KVCache (entry F));
  process_group : bool;
  layer_idx : option Z;
  weight_dtype : DType;
}.

Definition set_kv_cache (self : Attention) (c : option (KVCache (entry F))) : Attention :=
  mkAttention (wqkv self) (wo self) c (process_group self) (layer_idx self)
    (weight_dtype self).

(** [Attention.draft_prefill]: the output and the module after the writes. *)
Definition draft_prefill (self : Attention) (x : tensor X)
    (freqs_cis streaming_freqs : tensor (freq_row F)) (cache_seqlens : list Z)
    (is_last : bool) : result (tensor X * Attention) :=
  let q := map (map (fun xi => (wqkv self xi).1.1)) x in
  let k := map (map (fun xi => (wqkv self xi).1.2)) x in
  let v := map (map (fun xi => (wqkv self xi).2)) x in
  kvc ← match kv_cache self with
        | Some c =>
            r ← prefill c cache_seqlens k v;
            Ok (r.1.1, r.1.2, Some r.2)
        | None => Ok (k, v, None)
        end;
  let k := kvc.1.1 in
  let v := kvc.1.2 in
  q ← apply_rotary_emb (weight_dtype self) q freqs_cis;
  k ← apply_rotary_emb (weight_dtype self) k
        (slice1_to streaming_freqs (Z.of_nat (shape1 k)));
  cache ← (if is_last then
             match kvc.2 with
             | None => Raise AttributeError
             | Some c =>
                 dk ← setitem1 (draft_k_cache c) 0 (Z.of_nat (shape1 k)) k;
                 Ok (Some (set_draft c dk (draft_v_cache c)))
             end
           else Ok kvc.2);
  let y := custom_func_2 q k v in
  let y := map (map (wo self)) y in
  let y := if process_group self then all_reduce y else y in
  Ok (y, set_kv_cache self cache).

Record Transformer : Type := mkTransformer {
  config : ModelArgs F;
  layers : list Attention;
  freqs_cis : option (list (freq_row F));
  streaming_freqs : option (tensor (freq_row F));
  max_batch_size : Z;
  max_seq_length : Z;
  output_dtype : DType;
  output_scales : option DType;
  output_scales_and_zeros : option DType;
}.

(** [Transformer.__init__], given the attention modules of its blocks. *)
Definition Transformer_new (config : ModelArgs F) (layers : list Attention)
    (dtype : DType) : Transformer :=
  mkTransformer config layers None None (-1) (-1) dtype None None.

(** [Transformer.setup_caches] *)
Definition setup_caches (self : Transformer)
    (max_batch_size' max_seq_length' streaming_budget' buffer : Z) : result Transformer :=
  if (max_seq_length self >=? max_seq_length') && (max_batch_size self >=? max_batch_size')
  then Ok self
  else
    head_dim ← int_floordiv (dim (config self)) (n_head (config self));
    let dtype :=
      match output_scales self, output_scales_and_zeros self with
      | Some d, _ => d
      | None, Some d => d
      | None, None => output_dtype self
      end in
    layers' ← mapM (fun ib : nat * Attention =>
                      kv ← KVCache_new max_batch_size' max_seq_length'
                             (n_local_heads (config self)) head_dim dtype
                             streaming_budget' buffer;
                      Ok (mkAttention (wqkv ib.2) (wo ib.2) (Some kv) (process_group ib.2)
                            (Some (Z.of_nat ib.1)) (weight_dtype ib.2)))
                   (imap pair (layers self));
    freqs ← freqs_of_config (config self) dtype;
    idx ← arange streaming_budget';
    idx ← zeros_dim max_batch_size' idx;
    streaming ← mapM (index_rows freqs) idx;
    Ok (mkTransformer (config self) layers' (Some freqs) (Some streaming)
          max_batch_size' max_seq_length' (output_dtype self)
          (output_scales self) (output_scales_and_zeros self)).

End Draft.

End SelfSpec.

(** ** The attention module: projection sizes and the checkpoint hook *)

(** [x % y] on two Python integers. *)
Definition int_mod (x y : Z) : result Z :=
  if y =? 0 then Raise ZeroDivisionError else Ok (x mod y).

Module Projection.

(** The two kernels that [Attention.__init__] of [model_selfspec.py] chooses
    from. *)
Inductive AttnKernel : Set := custom_func | gqa_custom.

(** What [Attention.__init__] stores: the output width of [wqkv], the fields
    copied from the configuration and, in [model_selfspec.py], the kernel
    [_attn]. *)
Record Attention : Type := mkAttention {
  wqkv_out_features : Z;
  attn_n_head : Z;
  attn_head_dim : Z;
  attn_n_local_heads : Z;
  attn_dim : Z;
  _attn : AttnKernel;
}.

(** [Attention.__init__]: the assertion, the two [nn.Linear], whose sizes
    must not be negative, and the copies. *)
Definition Attention_new {F} (config : ModelArgs F) : result Attention :=
  r ← int_mod (dim config) (n_head config);
  if negb (r =? 0) then Raise AssertionError
  else
    let total_head_dim :=
      (n_head config + 2 * n_local_heads config) * head_dim config in
    if (total_head_dim <? 0) || (dim config <? 0) then Raise RuntimeError
    else
      Ok (mkAttention total_head_dim (n_head config) (head_dim config)
            (n_local_heads config) (dim config)
            (if n_head config =? n_local_heads config then custom_func
             else gqa_custom)).

Fixpoint split_at {A} (row : list A) (sizes : list nat) : list (list A) :=
  match sizes with
  | [] => []
  | s :: rest => take s row :: split_at (drop s row) rest
  end.

(** [t.split(sizes, dim=-1)] on one row of [t]: the sizes are not negative
    and add up to the width of the row. *)
Definition split_with_sizes {A} (row : list A) (sizes : list Z) : result (list (list A)) :=
  if forallb (fun s => 0 <=? s) sizes && (foldr Z.add 0 sizes =? Z.of_nat (length row))
  then Ok (split_at row (map Z.to_nat sizes))
  else Raise RuntimeError.

(** [self.wqkv(x).split([self.dim, kv_size, kv_size], dim=-1)] on one row of
    the output of [wqkv]. *)
Definition qkv_split {A} (self : Attention) (row : list A) : result (list (list A)) :=
  let kv_size := attn_n_local_heads self * attn_head_dim self in
  split_with_sizes row [attn_dim self; kv_size; kv_size].

(** A weight of a checkpoint: a matrix given by its rows and the number of
    its columns. *)
Record Weight (R : Type) : Type := mkWeight {
  w_rows : list R;
  w_cols : Z;
}.
Arguments mkWeight {R}.
Arguments w_rows {R}.
Arguments w_cols {R}.

Section Hook.
Context {R : Type}.

(** [torch.cat(ws)] along the rows: the numbers of columns must agree. *)
Definition cat0 (ws : list (Weight R)) : result (Weight R) :=
  match ws with
  | [] => Raise RuntimeError
  | w :: rest =>
      if forallb (fun u => w_cols u =? w_cols w) rest
      then Ok (mkWeight (concat (map w_rows ws)) (w_cols w))
      else Raise RuntimeError
  end.

(** [state_dict.pop(key)] *)
Definition pop (state_dict : gmap string (Weight R)) (key : string)
  : result (Weight R * gmap string (Weight R)) :=
  match state_dict !! key with
  | Some w => Ok (w, delete key state_dict)
  | None => Raise KeyError
  end.

(** [Attention.load_hook(state_dict, prefix)]: the dictionary after the
    call. *)
Definition load_hook (state_dict : gmap string (Weight R)) (prefix : string)
  : result (gmap string (Weight R)) :=
  if bool_decide (is_Some (state_dict !! (prefix +:+ "wq.weight")))
  then
    wq ← pop state_dict (prefix +:+ "wq.weight");
    wk ← pop wq.2 (prefix +:+ "wk.weight");
    wv ← pop wk.2 (prefix +:+ "wv.weight");
    w ← cat0 [wq.1; wk.1; wv.1];
    Ok (<[prefix +:+ "wqkv.weight" := w]> wv.2)
  else Ok state_dict.

End Hook.

End Projection.

(** ** The draft model as a stack of blocks ([model_selfspec.py]) *)

Module DraftModel.

Section Stack.
Context {F : Type} `{Scalar F}.
(** [X] is a hidden vector, [Y] a vector of logits. *)
Context {X Y : Type}.
Variable custom_func_2 :
  tensor (entry F) -> tensor (entry F) -> tensor (entry F) -> tensor X.
Variable all_reduce : tensor X -> tensor X.
(** The modules without state: the embedding table, the sum of two hidden
    vectors, the two norms and the feed-forward network of block [i], the
    last norm and the output projection. *)
Variable tok_embeddings : Z -> X.
Variable add : X -> X -> X.
Variable attention_norm ffn_norm feed_forward : nat -> X -> X.
Variable norm : X -> X.
Variable output : X -> Y.

(** [x + y] for [y] viewed to the shape of [x]. *)
Definition add_residual (x y : tensor X) : result (tensor X) :=
  if decide (map length x = map length y)
  then Ok (zip_with (zip_with add) x y)
  else Raise RuntimeError.

(** [TransformerBlock.draft_prefill] of block [i], whose attention module is
    [a]. *)
Definition TransformerBlock_draft_prefill (i : nat) (a : SelfSpec.Attention (F:=F) (X:=X))
    (x : tensor X) (freqs_cis streaming_freqs : tensor (freq_row F))
    (cache_seqlens : list Z) (is_last : bool)
  : result (tensor X * SelfSpec.Attention (F:=F) (X:=X)) :=
  r ← SelfSpec.draft_prefill custom_func_2 all_reduce a
         (map (map (attention_norm i)) x) freqs_cis streaming_freqs cache_seqlens is_last;
  h ← add_residual x r.1;
  out ← add_residual h (map (map (fun hi => feed_forward i (ffn_norm i hi))) h);
  Ok (out, r.2).

(** The loop over the blocks, from block [i] on; [self.streaming_freqs] is
    read at every round. *)
Fixpoint run_layers (streaming_freqs : option (tensor (freq_row F))) (i : nat)
    (layers : list (SelfSpec.Attention (F:=F) (X:=X))) (x : tensor X)
    (freqs_cis : tensor (freq_row F)) (cache_seqlens : list Z) (is_last : bool)
  : result (tensor X * list (SelfSpec.Attention (F:=F) (X:=X))) :=
  match layers with
  | [] => Ok (x, [])
  | a :: rest =>
      sf ← match streaming_freqs with
           | Some s => Ok s
           | None => Raise AttributeError
           end;
      r ← TransformerBlock_draft_prefill i a x freqs_cis sf cache_seqlens is_last;
      rs ← run_layers streaming_freqs (S i) rest r.1 freqs_cis cache_seqlens is_last;
      Ok (rs.1, r.2 :: rs.2)
  end.

(** [self.tok_embeddings(idx)] for one token. *)
Definition embed (vocab_size : Z) (i : Z) : result X :=
  if (0 <=? i) && (i <? vocab_size) then Ok (tok_embeddings i) else Raise IndexError.

(** [Transformer.draft_prefill]: the logits and the model after the writes
    into the caches of its blocks. *)
Definition Transformer_draft_prefill (self : SelfSpec.Transformer (F:=F) (X:=X))
    (idx input_pos : tensor Z) (cache_seqlens : list Z) (is_last : bool)
  : result (tensor Y * SelfSpec.Transformer (F:=F) (X:=X)) :=
  match SelfSpec.freqs_cis self with
  | None => Raise AssertionError
  | Some table =>
      freqs_cis ← mapM (index_rows table) input_pos;
      x ← mapM (mapM (embed (vocab_size (SelfSpec.config self)))) idx;
      r ← run_layers (SelfSpec.streaming_freqs self) 0 (SelfSpec.layers self) x freqs_cis
             cache_seqlens is_last;
      Ok (map (map (fun xi => output (norm xi))) r.1,
          SelfSpec.mkTransformer (SelfSpec.config self) r.2 (SelfSpec.freqs_cis self)
            (SelfSpec.streaming_freqs self) (SelfSpec.max_batch_size self)
            (SelfSpec.max_seq_length self) (SelfSpec.output_dtype self)
            (SelfSpec.output_scales self) (SelfSpec.output_scales_and_zeros self))
  end.

End Stack.

Section Kept.
Context {F : Type} {X : Type}.
Import SelfSpec.

(** What a layer keeps over a call: its weights, and a cache that is still
    well shaped for [B] sequences, with its budget. *)
Definition layer_kept (B cap : nat) (a a' : Attention (F:=F) (X:=X)) : Prop :=
  wqkv a' = wqkv a /\ wo a' = wo a /\ process_group a' = process_group a
  /\ layer_idx a' = layer_idx a /\ weight_dtype a' = weight_dtype a
  /\ exists c c', kv_cache a = Some c /\ kv_cache a' = Some c'
                  /\ cache_wf c' B cap /\ streaming_budget c' = streaming_budget c.

(** Every layer has a cache that is well shaped for [B] sequences. *)
Definition layers_ready (B cap : nat) (layers : list (Attention (F:=F) (X:=X))) : Prop :=
  Forall (fun a => exists c, kv_cache a = Some c /\ cache_wf c B cap) layers.

End Kept.

End DraftModel.

(** The shapes that [apply_rotary_emb] is called with: a row of
    [freqs_cis] for each sequence, a position of that row for each position
    of the sequence, and heads of twice as many numbers as the position has
    pairs. *)
Definition rotary_shaped {F} (x : tensor (entry F)) (freqs : tensor (freq_row F)) : Prop :=
  Forall2 (Forall2 (fun (e : entry F) (f : freq_row F) =>
                      Forall (fun h => length h = (2 * length f)%nat) e)) x freqs.

(** [x] of shape [B, S, H, D] has a sequence, every sequence a position and
    every position a head: none of [B], [S], [H] is 0. *)
Definition has_heads {F} (x : tensor (entry F)) : Prop :=
  x <> [] /\ Forall (fun r => r <> [] /\ Forall (fun e : entry F => e <> []) r) x.

(** ** The generation loop of the benchmark ([baseline_benchmark.py]) *)

Module Benchmark.

Section Loop.
Context {F : Type} `{Scalar F}.
(** [Eng] is the engine with its caches; [encode] is
    [engine.encode(input_ids=...)], [inference] is
    [engine.inference(input_ids=...)]: the tokens they return and the engine
    afterwards. *)
Context {Eng : Type}.
Variable encode : Eng -> tensor Z -> tensor Z * Eng.
Variable inference : Eng -> tensor Z -> tensor Z * Eng.
Variables eot_1 eot_2 MAX_LEN : Z.

(** The variables of the [while] loop. *)
Record LoopState : Type := mkLoopState {
  engine : Eng;
  output : tensor Z;
  next_tokens : tensor Z;
  model_steps : Z;
  terminate : bool;
}.

(** An engine that answers a batch of [B] sequences with one token for
    each. *)
Definition one_token_each (B : nat) : Prop :=
  forall (e : Eng) (ids : tensor Z),
    length ids = B ->
    length (inference e ids).1 = B /\ rows_of 1 (inference e ids).1.

(** The shapes of the variables of the loop on a batch of [B] sequences. *)
Definition loop_shaped (B : nat) (st : LoopState) : Prop :=
  batch_of B (output st) /\ length (next_tokens st) = B.

(** [(col == eot)._is_any_true()] *)
Definition is_any_true (eot : Z) (col : list Z) : bool := existsb (Z.eqb eot) col.

(** The body of the [while] loop. *)
Definition loop_body (st : LoopState) : result LoopState :=
  let input_ids := next_tokens st in
  let r := inference (engine st) input_ids in
  output' ← cat1 (output st) r.1;
  last ← mapM (fun row => py_index row (-1)) r.1;
  Ok (mkLoopState r.2 output' r.1 (model_steps st + 1)
        (if is_any_true eot_1 last || is_any_true eot_2 last then true
         else terminate st)).

(** [while output.size(1) < MAX_LEN and terminate == False]; [None] when the
    loop is still running after [fuel] rounds. *)
Fixpoint decode_loop (fuel : nat) (st : LoopState) : result (option LoopState) :=
  if (Z.of_nat (shape1 (output st)) <? MAX_LEN) && negb (terminate st) then
    match fuel with
    | O => Ok None
    | S fuel' =>
        st' ← loop_body st;
        decode_loop fuel' st'
    end
  else Ok (Some st).

(** [total_time/model_steps], a float by an integer. *)
Definition report (total_time : F) (steps : Z) : result F :=
  if steps =? 0 then Raise ZeroDivisionError
  else Ok (f_div total_time (f_of_Z steps)).

(** What one round of the [for] loop leaves. *)
Record StepResult : Type := mkStepResult {
  res_engine : Eng;
  res_output : tensor Z;
  res_printed : F;
  res_total_time : F;
  res_model_steps : Z;
}.

(** One round of the [for] loop over the batches, for a batch [input_ids]
    and the two readings [t1], [t2] of the clock; the decoded output is
    printed only with [--printoutput] and is left out. *)
Definition eval_step (fuel : nat) (step : Z) (e : Eng) (total_time : F) (steps : Z)
    (input_ids : tensor Z) (t1 t2 : F) : result (option StepResult) :=
  let output0 := input_ids in
  let r := encode e input_ids in
  let next_tokens0 := slice1_from r.1 (-1) in
  output1 ← cat1 output0 next_tokens0;
  l ← decode_loop fuel (mkLoopState r.2 output1 next_tokens0 steps false);
  match l with
  | None => Ok None
  | Some st =>
      let total_time := f_add total_time (f_sub t2 t1) in
      printed ← report total_time (model_steps st);
      Ok (Some (if step <? 10
                then mkStepResult (engine st) (output st) printed (f_of_Z 0) 0
                else mkStepResult (engine st) (output st) printed total_time
                       (model_steps st)))
  end.

End Loop.

End Benchmark.

(** ** Exact rationals as scalars

    An instance of [Scalar] to run the model on concrete inputs.  Sums,
    products, quotients and comparisons are exact; [f_pi], [f_cos], [f_sin]
    and [f_pow] at a fractional exponent are rational approximations, casts
    do not round, and a quotient by zero is 0 where a float gives an
    infinity or a NaN.  The inputs below stay away from these corners. *)

Module RefQ.

Definition Qcos (x : Q) : Q :=
  let x2 := (x * x)%Q in
  Qred (1 - x2 / 2 + x2 * x2 / 24 - x2 * x2 * x2 / 720)%Q.

Definition Qsin (x : Q) : Q :=
  let x2 := (x * x)%Q in
  Qred (x - x * x2 / 6 + x * x2 * x2 / 120)%Q.

Definition Qpow (b e : Q) : Q :=
  let n := Qfloor e in
  Qred (Qpower b n * (1 + (e - inject_Z n) * (b - 1)))%Q.

#[global] Instance scalar_Q : Scalar Q := {|
  f_of_Z := inject_Z;
  f_pi := (355 # 113)%Q;
  f_add := fun x y => Qred (x + y)%Q;
  f_sub := fun x y => Qred (x - y)%Q;
  f_mul := fun x y => Qred (x * y)%Q;
  f_div := fun x y => Qred (x / y)%Q;
  f_pow := Qpow;
  f_cos := Qcos;
  f_sin := Qsin;
  f_ltb := fun x y => negb (Qle_bool y x);
  f_eqb := Qeq_bool;
  f_cast := fun _ x => x;
|}.

End RefQ.

(** ** Sample inputs

    A draft cache of two sequences of 20 slots with a budget of 18; an entry
    is a number that stands for its [H, D] slab. *)

Module Samples.

Definition cache : SelfSpec.KVCache nat :=
  SelfSpec.mkKVCache [[0; 0]; [0; 0]]%nat [[0; 0]; [0; 0]]%nat
    [seq 100 20; seq 200 20] [seq 300 20; seq 400 20] 18.

Definition keys : tensor nat := [[1; 2; 3]; [4; 5; 6]]%nat.
Definition values : tensor nat := [[7; 8; 9]; [10; 11; 12]]%nat.

(** Sixteen entries for each of the two sequences. *)
Definition keys16 : tensor nat := [seq 500 16; seq 600 16].
Definition values16 : tensor nat := [seq 700 16; seq 800 16].

(** A one-layer model with one head of dimension 2 and 4 positions. *)
Definition tiny_kwargs : list (Kwarg Q) :=
  [kw_block_size 4; kw_n_layer 1; kw_n_head 1; kw_dim 2; kw_vocab_size 8].

(** The same with one of the three long-context fields only. *)
Definition partial_kwargs : list (Kwarg Q) :=
  tiny_kwargs ++ [kw_low_freq_factor (Some 1)].

(** The same with the three fields and equal factors. *)
Definition equal_kwargs : list (Kwarg Q) :=
  tiny_kwargs ++ [kw_low_freq_factor (Some 4); kw_high_freq_factor (Some 4);
                  kw_original_max_position_embeddings (Some 8192)].

(** The same with both factors and no original context length. *)
Definition no_original_kwargs : list (Kwarg Q) :=
  tiny_kwargs ++ [kw_low_freq_factor (Some 1); kw_high_freq_factor (Some 4)].

Definition config_of (kwargs : list (Kwarg Q)) : ModelArgs Q :=
  match ModelArgs_new kwargs with
  | Ok c => c
  | Raise _ => field_defaults
  end.

(** The paged model of [tiny_kwargs] after [setup_caches(1, 1)]. *)
Definition paged_fresh : Model.Transformer (F:=Q) :=
  match Model.setup_caches (Model.Transformer_new (config_of tiny_kwargs) bfloat16) 1 1 with
  | Ok t => t
  | Raise _ => Model.Transformer_new (config_of tiny_kwargs) bfloat16
  end.

(** The same model once the kernel has written a key and a value into the
    only slot of its only page. *)
Definition paged_written : Model.Transformer (F:=Q) :=
  Model.mkTransformer (Model.config paged_fresh)
    [Model.mkAttention (Some (Model.mkKVCache [[[[[1; 2]%Q]]; [[[3; 4]%Q]]]]))
       (Some Model.target_decode) (Some Model.target_prefill)]
    (Model.freqs_cis paged_fresh) (Model.output_dtype paged_fresh).

(** An attention module of the draft model over hidden vectors that are
    single numbers, with one head of dimension 2. *)
Definition attention (c : option (SelfSpec.KVCache (entry Q))) : SelfSpec.Attention (F:=Q) (X:=Q) :=
  SelfSpec.mkAttention
    (fun x => ([[x; 1%Q]], [[x; 2%Q]], [[x; 3%Q]]))
    (fun y => y) c false None bfloat16.

(** The draft model of [tiny_kwargs]. *)
Definition draft_model : SelfSpec.Transformer (F:=Q) (X:=Q) :=
  SelfSpec.Transformer_new (config_of tiny_kwargs) [attention None] bfloat16.

(** The draft model after [setup_caches(1, 4, 3, 1)]. *)
Definition draft_ready : SelfSpec.Transformer (F:=Q) (X:=Q) :=
  match SelfSpec.setup_caches draft_model 1 4 3 1 with
  | Ok t => t
  | Raise _ => draft_model
  end.

(** A draft cache of one sequence of 18 slots with a budget of 17, holding
    zeros. *)
Definition draft_cache : SelfSpec.KVCache (entry Q) :=
  match SelfSpec.KVCache_new (F:=Q) 1 4 1 2 bfloat16 17 1 with
  | Ok c => c
  | Raise _ => SelfSpec.mkKVCache [] [] [] [] 17
  end.

(** A table of 17 positions: position [j] holds the pair [(j, 1)]. *)
Definition local_freqs : tensor (freq_row Q) :=
  [map (fun j => [(inject_Z (Z.of_nat j), 1%Q)]) (seq 0 17)].

(** The rows of three absolute positions 40, 41, 42. *)
Definition absolute_freqs : tensor (freq_row Q) :=
  [[[(40%Q, 1%Q)]; [(41%Q, 1%Q)]; [(42%Q, 1%Q)]]].

Definition hidden : tensor Q := [[5%Q; 6%Q; 7%Q]].

(** Stand-ins for the attention kernel and the all-reduce. *)
Definition kernel (q k v : tensor (entry Q)) : tensor Q :=
  map (map (fun _ => 0%Q)) q.
Definition reduce (y : tensor Q) : tensor Q := y.

End Samples.

(** ** More sample inputs *)

Module MoreSamples.

(** A configuration with grouped heads: four query heads over two key/value
    heads of dimension 2, and 32 positions. *)
Definition gqa_kwargs : list (Kwarg Q) :=
  [kw_block_size 32; kw_n_layer 1; kw_n_head 4; kw_n_local_heads 2; kw_dim 8;
   kw_vocab_size 8].

Definition gqa_config : ModelArgs Q := Samples.config_of gqa_kwargs.

Definition gqa_attention : Projection.Attention :=
  match Projection.Attention_new gqa_config with
  | Ok a => a
  | Raise _ => Projection.mkAttention 0 0 0 0 0 Projection.custom_func
  end.

(** A one-layer model with one head of dimension 2 and 32 positions, as a
    draft model before and after [setup_caches(1, 32, 17, 1)]. *)
Definition wide_kwargs : list (Kwarg Q) :=
  [kw_block_size 32; kw_n_layer 1; kw_n_head 1; kw_dim 2; kw_vocab_size 8].

Definition wide_model : SelfSpec.Transformer (F:=Q) (X:=Q) :=
  SelfSpec.Transformer_new (Samples.config_of wide_kwargs) [Samples.attention None]
    bfloat16.

Definition wide_ready : SelfSpec.Transformer (F:=Q) (X:=Q) :=
  match SelfSpec.setup_caches wide_model 1 32 17 1 with
  | Ok t => t
  | Raise _ => wide_model
  end.

(** One chunk of three tokens at the positions 15, 16, 17 through the model,
    with the identity for the modules without state. *)
Definition stack_step : tensor Q * SelfSpec.Transformer (F:=Q) (X:=Q) :=
  match DraftModel.Transformer_draft_prefill Samples.kernel Samples.reduce inject_Z Qplus
          (fun _ x => x) (fun _ x => x) (fun _ x => x) (fun x => x) (fun x => x)
          wide_ready [[1; 2; 3]] [[15; 16; 17]] [15] false with
  | Ok r => r
  | Raise _ => ([], wide_model)
  end.

(** The table of three positions and one pair. *)
Definition table3 : list (freq_row Q) :=
  match precompute_freqs_cis (F:=Q) 3 2 10000%Q bfloat16 1%Q None None None with
  | Ok t => t
  | Raise _ => []
  end.

(** One sequence of two positions, one head of four numbers, and the two
    pairs of each position. *)
Definition heads : tensor (entry Q) := [[[[1; 2; 3; 4]%Q]; [[5; 6; 7; 8]%Q]]].
Definition pairs : tensor (freq_row Q) :=
  [[[(1, 0); (0, 1)]%Q; [(2, 1); (1, 2)]%Q]].
Definition rotated : tensor (entry Q) :=
  match apply_rotary_emb bfloat16 heads pairs with
  | Ok t => t
  | Raise _ => []
  end.

(** What [draft_prefill] leaves for a last chunk on the sample module. *)
Definition draft_last : tensor Q * SelfSpec.Attention (F:=Q) (X:=Q) :=
  match SelfSpec.draft_prefill Samples.kernel Samples.reduce
          (Samples.attention (Some Samples.draft_cache)) Samples.hidden
          Samples.absolute_freqs Samples.local_freqs [15] true with
  | Ok r => r
  | Raise _ => ([], Samples.attention None)
  end.

(** A checkpoint with the three projections of one layer, of two columns,
    and one more weight. *)
Definition wq : Projection.Weight nat := Projection.mkWeight [1; 2; 3; 4]%nat 2.
Definition wk : Projection.Weight nat := Projection.mkWeight [5; 6]%nat 2.
Definition wv : Projection.Weight nat := Projection.mkWeight [7; 8]%nat 2.
Definition wo : Projection.Weight nat := Projection.mkWeight [9; 10]%nat 2.

Definition checkpoint : gmap string (Projection.Weight nat) :=
  <["l0.wq.weight"%string := wq]>
    (<["l0.wk.weight"%string := wk]>
       (<["l0.wv.weight"%string := wv]>
          (<["l0.wo.weight"%string := wo]> ∅))).

Definition fused : gmap string (Projection.Weight nat) :=
  <["l0.wqkv.weight"%string :=
      Projection.mkWeight [1; 2; 3; 4; 5; 6; 7; 8]%nat 2]>
    (<["l0.wo.weight"%string := wo]> ∅).

(** A checkpoint that lacks the value projection. *)
Definition broken : gmap string (Projection.Weight nat) :=
  <["l0.wq.weight"%string := wq]>
    (<["l0.wk.weight"%string := wk]> ∅).

(** An engine that counts its calls and answers every sequence with that
    count; its [encode] answers the batch itself. *)
Definition counter_encode (e : nat) (ids : tensor Z) : tensor Z * nat := (ids, e).
Definition counter_inference (e : nat) (ids : tensor Z) : tensor Z * nat :=
  (map (fun _ => [Z.of_nat e]) ids, S e).

Definition prompt : tensor Z := [[11; 12; 13]; [21; 22; 23]].

Definition started : Benchmark.LoopState (Eng:=nat) :=
  Benchmark.mkLoopState 0%nat [[11; 12; 13; 13]; [21; 22; 23; 23]] [[13]; [23]] 0 false.

End MoreSamples.

(** * Properties *)

(** ** Slices and slice assignment *)

Section SliceFacts.
Context {A : Type}.
Implicit Types l v : list A.

Lemma slice_index_nonneg (n : nat) (i : Z) :
  0 <= i -> slice_index n i = Nat.min (Z.to_nat i) n.
Proof. intros Hi. unfold slice_index. destruct (Z.ltb_spec i 0); [lia | done]. Qed.

Lemma slice_index_inside (n : nat) (i : Z) :
  0 <= i <= Z.of_nat n -> slice_index n i = Z.to_nat i.
Proof. intros Hi. rewrite slice_index_nonneg by lia. lia. Qed.

Lemma slice_index_neg (n : nat) (i : Z) :
  i < 0 -> slice_index n i = Z.to_nat (i + Z.of_nat n).
Proof. intros Hi. unfold slice_index. destruct (Z.ltb_spec i 0); [done | lia]. Qed.

Lemma expand_same n l : length l = n -> expand n l = Ok l.
Proof. intros Hl. unfold expand. by rewrite decide_True. Qed.

Lemma py_slice_inside l (a b : Z) :
  0 <= a <= b -> b <= Z.of_nat (length l) ->
  py_slice l a b = take (Z.to_nat b - Z.to_nat a) (drop (Z.to_nat a) l).
Proof.
  intros Ha Hb. unfold py_slice. by rewrite !slice_index_inside by lia.
Qed.

Lemma py_slice_to_inside l (b : Z) :
  0 <= b -> py_slice_to l b = take (Z.to_nat b) l.
Proof.
  intros Hb. unfold py_slice_to. rewrite slice_index_nonneg by lia.
  destruct (decide (Z.to_nat b <= length l)%nat).
  - by rewrite Nat.min_l.
  - rewrite Nat.min_r by lia. by rewrite !take_ge by lia.
Qed.

Lemma py_setitem_write l v (c : Z) :
  0 <= c -> c + Z.of_nat (length v) <= Z.of_nat (length l) ->
  py_setitem l c (c + Z.of_nat (length v)) v = Ok (write_at (Z.to_nat c) v l).
Proof.
  intros Hc Hfit. unfold py_setitem, write_at.
  rewrite !slice_index_inside by lia.
  replace (Z.to_nat (c + Z.of_nat (length v)) - Z.to_nat c)%nat with (length v) by lia.
  by rewrite expand_same.
Qed.

Lemma length_write_at s v l :
  (s + length v <= length l)%nat -> length (write_at s v l) = length l.
Proof.
  intros Hs. unfold write_at. rewrite !length_app, length_take, length_drop. lia.
Qed.

Lemma take_write_at_before n s v l :
  (n <= s)%nat -> (s <= length l)%nat -> take n (write_at s v l) = take n l.
Proof.
  intros Hn Hs. unfold write_at.
  rewrite take_app_le by (rewrite length_take; lia).
  rewrite take_take. f_equal. lia.
Qed.

Lemma take_write_at_end s v l :
  (s <= length l)%nat -> take (s + length v) (write_at s v l) = take s l ++ v.
Proof.
  intros Hs. unfold write_at.
  rewrite app_assoc, take_app_le by (rewrite length_app, length_take; lia).
  apply take_ge. rewrite length_app, length_take. lia.
Qed.

Lemma length_window n v l :
  (n <= length l)%nat -> (16 <= n)%nat -> length (window n v l) = (n - 16)%nat.
Proof.
  intros Hn Hs. unfold window.
  rewrite length_drop, length_app, length_take, length_drop. lia.
Qed.

End SliceFacts.

(** ** Row-wise tensor operations *)

Section TensorFacts.
Context {E : Type}.
Implicit Types t u v : tensor E.

Lemma setitem_rows_write t v (c : Z) (cap n : nat) :
  rows_of cap t -> rows_of n v -> length v = length t ->
  0 <= c -> c + Z.of_nat n <= Z.of_nat cap ->
  setitem_rows t v c (c + Z.of_nat n) =
    Ok (zip_with (fun r x => write_at (Z.to_nat c) x r) t v).
Proof.
  intros Ht Hv Hlen Hc Hfit. revert v Hv Hlen.
  induction Ht as [|r t Hr Ht IH]; intros [|x v] Hv Hlen; simplify_eq/=; [done|].
  inversion Hv as [|? ? Hx Hv']; subst.
  rewrite py_setitem_write by lia. simpl.
  by rewrite (IH v Hv').
Qed.

Lemma setitem1_write t v (c : Z) (cap n : nat) :
  rows_of cap t -> rows_of n v -> length v = length t ->
  0 <= c -> c + Z.of_nat n <= Z.of_nat cap ->
  setitem1 t c (c + Z.of_nat n) v =
    Ok (zip_with (fun r x => write_at (Z.to_nat c) x r) t v).
Proof.
  intros Ht Hv Hlen Hc Hfit. unfold setitem1.
  rewrite expand_same by done. simpl.
  by apply setitem_rows_write with cap.
Qed.

Lemma setitem1_region t v (sb : Z) (cap : nat) :
  rows_of cap t -> rows_of (Z.to_nat sb - 16) v -> length v = length t ->
  16 <= sb <= Z.of_nat cap ->
  setitem1 t 16 sb v = Ok (zip_with (fun r x => write_at 16 x r) t v).
Proof.
  intros Ht Hv Hlen Hsb.
  pose proof (setitem1_write t v 16 cap (Z.to_nat sb - 16) Ht Hv Hlen) as Hw.
  replace (16 + Z.of_nat (Z.to_nat sb - 16)) with sb in Hw by lia.
  replace (Z.to_nat 16) with 16%nat in Hw by lia.
  apply Hw; lia.
Qed.

Lemma cat1_same t u : length t = length u -> cat1 t u = Ok (zip_with app t u).
Proof. intros Hl. unfold cat1. by rewrite decide_True. Qed.

Lemma length_slice1 t (a b : Z) : length (slice1 t a b) = length t.
Proof. unfold slice1. by rewrite length_map. Qed.

Lemma slice1_to_take t (b : Z) :
  0 <= b -> slice1_to t b = map (take (Z.to_nat b)) t.
Proof.
  intros Hb. unfold slice1_to. apply map_ext. intros r. by apply py_slice_to_inside.
Qed.

Lemma shifted_window t v (sb : Z) (cap n : nat) :
  rows_of cap t -> rows_of n v -> 16 < sb <= Z.of_nat cap ->
  slice1_from (zip_with app (slice1 t 16 sb) v) (- sb + 16) =
    zip_with (fun r x => window (Z.to_nat sb) x r) t v.
Proof.
  intros Ht Hv Hsb. revert v Hv.
  induction Ht as [|r t Hr Ht IH]; intros [|x v] Hv; simpl; try done.
  inversion Hv as [|? ? Hx Hv']; subst.
  f_equal; [|by apply IH].
  unfold py_slice_from, window.
  rewrite py_slice_inside by lia.
  replace (Z.to_nat sb - Z.to_nat 16)%nat with (Z.to_nat sb - 16)%nat by lia.
  replace (Z.to_nat 16) with 16%nat by lia.
  rewrite slice_index_neg by lia. f_equal.
  rewrite length_app, length_take, length_drop. lia.
Qed.

Lemma rows_of_window t v (n cap : nat) :
  rows_of cap t -> (16 <= n <= cap)%nat ->
  rows_of (n - 16) (zip_with (fun r x => window n x r) t v).
Proof.
  intros Ht Hn. revert v.
  induction Ht as [|r t Hr Ht IH]; intros [|x v]; simpl; try by constructor.
  constructor; [|by apply IH]. apply length_window; lia.
Qed.

Lemma zip_with_zip_with_l {B C} (f : list E -> B -> C) (g : list E -> list E -> B) t v :
  zip_with f t (zip_with g t v) = zip_with (fun r x => f r (g r x)) t v.
Proof.
  revert v. induction t as [|r t IH]; intros [|x v]; simpl; try done. by rewrite IH.
Qed.

Lemma rows_of_write t v (s cap n : nat) :
  rows_of cap t -> rows_of n v -> (s + n <= cap)%nat ->
  rows_of cap (zip_with (fun r x => write_at s x r) t v).
Proof.
  intros Ht Hv Hs. revert v Hv.
  induction Ht as [|r t Hr Ht IH]; intros [|x v] Hv; simpl; try by constructor.
  inversion Hv; subst. constructor; [|by apply IH].
  rewrite length_write_at; lia.
Qed.

Lemma rows_of_shifted t v (n cap : nat) :
  rows_of cap t -> (16 <= n <= cap)%nat ->
  rows_of cap (zip_with (fun r x => shifted n x r) t v).
Proof.
  intros Ht Hn. revert v.
  induction Ht as [|r t Hr Ht IH]; intros [|x v]; simpl; try by constructor.
  constructor; [|by apply IH]. unfold shifted.
  rewrite length_write_at; rewrite ?length_window; lia.
Qed.

Lemma map_zip_with_rows {C} (f : list E -> list E -> list E) (g : list E -> C)
    (h : list E -> list E -> C) t v (cap n : nat) :
  rows_of cap t -> rows_of n v -> length v = length t ->
  (forall r x, length r = cap -> length x = n -> g (f r x) = h r x) ->
  map g (zip_with f t v) = zip_with h t v.
Proof.
  intros Ht Hv Hlen Hfg. revert v Hv Hlen.
  induction Ht as [|r t Hr Ht IH]; intros [|x v] Hv Hlen; simplify_eq/=; [done|].
  inversion Hv; subst. f_equal; [by apply Hfg | by apply IH].
Qed.

Lemma zip_with_fst {C} (g : list E -> C) t v :
  length v = length t -> zip_with (fun r _ => g r) t v = map g t.
Proof.
  revert v. induction t as [|r t IH]; intros [|x v] Hlen; simplify_eq/=; [done|].
  f_equal. by apply IH.
Qed.

Lemma zip_with_app_assoc t u v :
  zip_with app (zip_with app t u) v = zip_with app t (zip_with app u v).
Proof.
  revert u v. induction t as [|r t IH]; intros [|x u] [|y v]; simpl; try done.
  by rewrite IH, app_assoc.
Qed.

Lemma zip_with_app_nil_r t (B : nat) :
  length t = B -> zip_with app t (replicate B []) = t.
Proof.
  intros <-. induction t as [|r t IH]; simpl; [done|]. by rewrite IH, app_nil_r.
Qed.

Lemma zip_with_app_nil_l t (B : nat) :
  length t = B -> zip_with app (replicate B []) t = t.
Proof. intros <-. induction t as [|r t IH]; simpl; [done|]. by rewrite IH. Qed.

Lemma map_take_0 t : map (take 0) t = replicate (length t) [].
Proof. induction t as [|r t IH]; simpl; [done|]. by rewrite IH. Qed.

End TensorFacts.

(** ** The streaming window cache *)

Section StreamingFacts.
Context {E : Type}.
Implicit Types self : SelfSpec.KVCache E.
Import SelfSpec.

Lemma prefill_fits self (c : Z) cl (k_val v_val : tensor E) (B cap : nat) :
  cache_wf self B cap ->
  length k_val = B -> rows_of (shape1 k_val) k_val ->
  length v_val = B -> rows_of (shape1 k_val) v_val ->
  0 <= c -> c + Z.of_nat (shape1 k_val) <= streaming_budget self ->
  let s := Z.to_nat c in
  let k_out := zip_with (fun r x => write_at s x r) (draft_k_cache self) k_val in
  let v_out := zip_with (fun r x => write_at s x r) (draft_v_cache self) v_val in
  prefill self (c :: cl) k_val v_val =
    Ok ((map (take (s + shape1 k_val)) k_out, map (take (s + shape1 k_val)) v_out),
        set_draft self k_out v_out).
Proof.
  intros [Hkb Hvb Hkr Hvr Hsb] Hk Hkrows Hv Hvrows Hc Hfit s k_out v_out.
  unfold prefill. simpl.
  destruct (Z.leb_spec (c + Z.of_nat (shape1 k_val)) (streaming_budget self)); [|lia].
  rewrite (setitem1_write _ _ _ cap) by (done || lia). simpl.
  rewrite (setitem1_write _ _ _ cap) by (done || lia). simpl.
  rewrite !slice1_to_take by lia.
  replace (Z.to_nat (c + Z.of_nat (shape1 k_val))) with (s + shape1 k_val)%nat by lia.
  done.
Qed.

Lemma prefill_overflow self (c : Z) cl (k_val v_val : tensor E) (B cap : nat) :
  cache_wf self B cap ->
  length k_val = B -> rows_of (shape1 k_val) k_val ->
  length v_val = B -> rows_of (shape1 k_val) v_val ->
  streaming_budget self < c + Z.of_nat (shape1 k_val) ->
  let n := Z.to_nat (streaming_budget self) in
  let k_out := zip_with (fun r x => shifted n x r) (draft_k_cache self) k_val in
  let v_out := zip_with (fun r x => shifted n x r) (draft_v_cache self) v_val in
  prefill self (c :: cl) k_val v_val =
    Ok ((map (take n) k_out, map (take n) v_out), set_draft self k_out v_out).
Proof.
  intros [Hkb Hvb Hkr Hvr Hsb] Hk Hkrows Hv Hvrows Hover n k_out v_out.
  unfold prefill. simpl.
  destruct (Z.leb_spec (c + Z.of_nat (shape1 k_val)) (streaming_budget self)); [lia|].
  rewrite !cat1_same by (rewrite length_slice1; congruence). simpl.
  rewrite !(shifted_window _ _ _ cap (shape1 k_val)) by (done || lia).
  fold n.
  rewrite (setitem1_region _ _ _ cap);
    [|done|apply rows_of_window with cap; (done || lia)
     |rewrite length_zip_with; lia|lia].
  simpl.
  rewrite (setitem1_region _ _ _ cap);
    [|done|apply rows_of_window with cap; (done || lia)
     |rewrite length_zip_with; lia|lia].
  simpl.
  rewrite !zip_with_zip_with_l.
  rewrite !slice1_to_take by lia. fold n.
  done.
Qed.

Lemma shifted_sink (n : nat) (x r : list E) :
  (16 <= length r)%nat -> take 16 (shifted n x r) = take 16 r.
Proof. intros Hr. unfold shifted. by apply take_write_at_before. Qed.

Lemma shifted_region (n : nat) (x r : list E) :
  (16 <= n <= length r)%nat -> take (n - 16) (drop 16 (shifted n x r)) = window n x r.
Proof.
  intros Hn. unfold shifted, write_at.
  rewrite drop_app_length' by (rewrite length_take; lia).
  rewrite take_app_length'; [done|]. rewrite length_window; lia.
Qed.

Lemma shifted_beyond (n : nat) (x r : list E) :
  (16 <= n <= length r)%nat -> drop n (shifted n x r) = drop n r.
Proof.
  intros Hn. unfold shifted, write_at.
  rewrite app_assoc, drop_app_length'.
  - rewrite length_window by lia. f_equal. lia.
  - rewrite length_app, length_take, length_window by lia. lia.
Qed.

Lemma window_short (n : nat) (x r : list E) :
  (16 <= n <= length r)%nat -> (length x <= n - 16)%nat ->
  window n x r = drop (length x) (take (n - 16) (drop 16 r)) ++ x.
Proof.
  intros Hn Hx. unfold window.
  rewrite drop_app_le; [done|]. rewrite length_take, length_drop. lia.
Qed.

Lemma window_long (n : nat) (x r : list E) :
  (16 <= n <= length r)%nat -> (n - 16 <= length x)%nat ->
  window n x r = drop (length x - (n - 16)) x.
Proof.
  intros Hn Hx. unfold window.
  rewrite drop_app_ge by (rewrite length_take, length_drop; lia).
  f_equal. rewrite length_take, length_drop. lia.
Qed.

(** One call on a well-shaped cache returns, keeps the cache well shaped,
    and, from cursor 16 on, keeps the sink. *)
Lemma prefill_step self (c : Z) cl (k_val v_val : tensor E) (B cap : nat) :
  cache_wf self B cap ->
  batch_of B k_val -> batch_of B v_val -> shape1 v_val = shape1 k_val ->
  0 <= c ->
  exists ret self',
    prefill self (c :: cl) k_val v_val = Ok (ret, self')
    /\ cache_wf self' B cap
    /\ streaming_budget self' = streaming_budget self
    /\ (16 <= c ->
        map (take 16) (draft_k_cache self') = map (take 16) (draft_k_cache self)
        /\ map (take 16) (draft_v_cache self') = map (take 16) (draft_v_cache self)).
Proof.
  intros Hwf [Hk Hkr] [Hv Hvr] HL Hc. rewrite HL in Hvr.
  pose proof Hwf as [Hkb Hvb Hkrows Hvrows Hsb].
  destruct (Z.le_gt_cases (c + Z.of_nat (shape1 k_val)) (streaming_budget self))
    as [Hfit|Hover].
  - eexists _, _. split; [by apply (prefill_fits self c cl k_val v_val B cap)|].
    split; [|split; [done|]].
    + constructor; simpl; rewrite ?length_zip_with; try lia.
      * apply rows_of_write with (shape1 k_val); (done || lia).
      * apply rows_of_write with (shape1 k_val); (done || lia).
    + intros Hsink. simpl. split.
      * rewrite (map_zip_with_rows _ _ (fun r _ => take 16 r) _ _ cap (shape1 k_val));
          [apply zip_with_fst; lia|done|done|lia|].
        intros r x Hr Hx. apply take_write_at_before; lia.
      * rewrite (map_zip_with_rows _ _ (fun r _ => take 16 r) _ _ cap (shape1 k_val));
          [apply zip_with_fst; lia|done|done|lia|].
        intros r x Hr Hx. apply take_write_at_before; lia.
  - eexists _, _. split; [by apply (prefill_overflow self c cl k_val v_val B cap)|].
    split; [|split; [done|]].
    + constructor; simpl; rewrite ?length_zip_with; try lia.
      * apply rows_of_shifted; (done || lia).
      * apply rows_of_shifted; (done || lia).
    + intros _. simpl. split.
      * rewrite (map_zip_with_rows _ _ (fun r _ => take 16 r) _ _ cap (shape1 k_val));
          [apply zip_with_fst; lia|done|done|lia|].
        intros r x Hr Hx. apply shifted_sink. lia.
      * rewrite (map_zip_with_rows _ _ (fun r _ => take 16 r) _ _ cap (shape1 k_val));
          [apply zip_with_fst; lia|done|done|lia|].
        intros r x Hr Hx. apply shifted_sink. lia.
Qed.

Lemma run_keeps_sink self (calls : list (call (E:=E))) (start : Z) (B cap : nat) :
  cache_wf self B cap ->
  Forall (call_shaped B) calls -> advancing start calls -> 16 <= start ->
  exists rets self',
    run_prefill self calls = Ok (rets, self')
    /\ cache_wf self' B cap
    /\ map (take 16) (draft_k_cache self') = map (take 16) (draft_k_cache self)
    /\ map (take 16) (draft_v_cache self') = map (take 16) (draft_v_cache self).
Proof.
  intros Hwf Hshape. revert self start Hwf.
  induction Hshape as [|[[cache_len k_val] v_val] calls Hc Hshape IH];
    intros self start Hwf Hadv Hstart; simpl in *.
  { by eexists _, _. }
  destruct cache_len as [|c cl]; [done|]. destruct Hadv as [Hle Hadv].
  destruct Hc as (Hk & Hv & HL); simpl in *.
  destruct (prefill_step self c cl k_val v_val B cap) as (ret & self1 & Hrun & Hwf1 & _ & Hsink);
    [done..|lia|].
  destruct (Hsink ltac:(lia)) as [Hsk Hsv].
  destruct (IH self1 (c + Z.of_nat (shape1 k_val)) Hwf1 Hadv ltac:(lia))
    as (rets & self' & Hrest & Hwf' & Hk' & Hv').
  exists (ret :: rets), self'. rewrite Hrun. simpl. rewrite Hrest. simpl.
  split; [done|]. split; [done|]. split; congruence.
Qed.

(** C1. Sink invariance.  After a first append at cursor 0 of at least 16
    entries, any further appends whose cursors advance (each starts at or
    after the end of the one before) all return, and leave the keys and the
    values at the positions [0, 16) of every sequence equal to what they were
    right after the first append. *)
Theorem sink_invariance self cl0 (k0 v0 : tensor E) (later : list (call (E:=E)))
    (B cap : nat) :
  cache_wf self B cap ->
  call_shaped B (0 :: cl0, k0, v0) -> (16 <= shape1 k0)%nat ->
  Forall (call_shaped B) later ->
  advancing (0 + Z.of_nat (shape1 k0)) later ->
  exists ret1 self1 rets self',
    prefill self (0 :: cl0) k0 v0 = Ok (ret1, self1)
    /\ run_prefill self1 later = Ok (rets, self')
    /\ map (take 16) (draft_k_cache self') = map (take 16) (draft_k_cache self1)
    /\ map (take 16) (draft_v_cache self') = map (take 16) (draft_v_cache self1).
Proof.
  intros Hwf (Hk & Hv & HL) H16 Hshape Hadv. simpl in *.
  destruct (prefill_step self 0 cl0 k0 v0 B cap) as (ret1 & self1 & Hrun & Hwf1 & _);
    [done..|].
  destruct (run_keeps_sink self1 later (0 + Z.of_nat (shape1 k0)) B cap)
    as (rets & self' & Hrest & _ & Hsk & Hsv); [done..|lia|].
  by exists ret1, self1, rets, self'.
Qed.

Lemma length_cat_rows (B : nat) (ts : list (tensor E)) :
  Forall (fun t => length t = B) ts -> length (cat_rows B ts) = B.
Proof.
  induction 1 as [|t ts Ht Hts IH]; simpl.
  - apply length_replicate.
  - fold (cat_rows B ts). rewrite length_zip_with. lia.
Qed.

(** Appends that stay within the budget, from a cursor [s] that counts what
    is in the cache: the cache prefix grows by the chunks, and each call
    returns the prefix it has reached. *)
Lemma run_counting self (calls : list (call (E:=E))) (s B cap : nat) :
  cache_wf self B cap ->
  Forall (call_shaped B) calls -> counting (Z.of_nat s) calls ->
  Z.of_nat (s + total_len calls) <= streaming_budget self ->
  let pk := map (take s) (draft_k_cache self) in
  let pv := map (take s) (draft_v_cache self) in
  exists rets self',
    run_prefill self calls = Ok (rets, self')
    /\ length rets = length calls
    /\ map (take (s + total_len calls)) (draft_k_cache self') =
         zip_with app pk (cat_rows B (map (fun c => c.1.2) calls))
    /\ map (take (s + total_len calls)) (draft_v_cache self') =
         zip_with app pv (cat_rows B (map (fun c => c.2) calls))
    /\ forall i ret, rets !! i = Some ret ->
         ret = (zip_with app pk (cat_rows B (take (S i) (map (fun c => c.1.2) calls))),
                zip_with app pv (cat_rows B (take (S i) (map (fun c => c.2) calls)))).
Proof.
  intros Hwf Hshape. revert self s Hwf.
  induction Hshape as [|[[cache_len k_val] v_val] calls Hc Hshape IH];
    intros self s Hwf Hcount Htot pk pv; simpl in *.
  { destruct Hwf as [Hkb Hvb _ _ _].
    exists [], self. split; [done|]. split; [done|].
    rewrite Nat.add_0_r. subst pk pv.
    by rewrite !zip_with_app_nil_r by (by rewrite length_map). }
  destruct cache_len as [|c cl]; [done|]. destruct Hcount as [-> Hcount].
  destruct Hc as ([Hk Hkr] & [Hv Hvr] & HL); simpl in *. rewrite HL in Hvr.
  pose proof Hwf as [Hkb Hvb Hkrows Hvrows Hsb].
  set (L := shape1 k_val) in *.
  pose proof (prefill_fits self (Z.of_nat s) cl k_val v_val B cap Hwf Hk Hkr Hv Hvr
                ltac:(lia) ltac:(fold L; lia)) as Hrun.
  simpl in Hrun. rewrite Nat2Z.id in Hrun. fold L in Hrun.
  destruct (prefill_step self (Z.of_nat s) cl k_val v_val B cap)
    as (ret & self1 & Hrun' & Hwf1 & Hsb1 & _);
    [done|by split|split; [done|by rewrite HL]|done|lia|].
  rewrite Hrun in Hrun'. injection Hrun' as <- <-.
  replace (Z.of_nat s + Z.of_nat L) with (Z.of_nat (s + L)) in Hcount by lia.
  destruct (IH _ (s + L)%nat Hwf1 Hcount) as (rets & self' & Hrest & Hlen & Hk' & Hv' & Hrets).
  { simpl. lia. }
  simpl in Hk', Hv', Hrets.
  assert (map (take (s + L)) (zip_with (fun r x => write_at s x r) (draft_k_cache self) k_val)
          = zip_with app pk k_val) as Hpk.
  { subst pk. rewrite zip_with_fmap_l.
    apply map_zip_with_rows with cap L; [done|done|lia|].
    intros r x Hr Hx. rewrite <- Hx. apply take_write_at_end. lia. }
  assert (map (take (s + L)) (zip_with (fun r x => write_at s x r) (draft_v_cache self) v_val)
          = zip_with app pv v_val) as Hpv.
  { subst pv. rewrite zip_with_fmap_l.
    apply map_zip_with_rows with cap L; [done|done|lia|].
    intros r x Hr Hx. rewrite <- Hx. apply take_write_at_end. lia. }
  rewrite Hpk in Hk', Hrets. rewrite Hpv in Hv', Hrets.
  eexists (_ :: rets), self'. rewrite Hrun. simpl. rewrite Hrest. simpl.
  split; [done|]. split; [by rewrite Hlen|].
  rewrite Nat.add_assoc, Hk', Hv', !zip_with_app_assoc.
  split; [done|]. split; [done|].
  intros [|i] ret Hret; simpl in Hret.
  - injection Hret as <-. rewrite Hpk, Hpv. simpl.
    by rewrite !zip_with_app_nil_r by done.
  - rewrite (Hrets i ret Hret). by rewrite !zip_with_app_assoc.
Qed.

(** C3. Lossless below the budget.  Appends from cursor 0, each at the
    cursor that counts the entries appended before it, with a total within
    the budget, all return; afterwards the first [total] positions of the
    key and of the value cache are the concatenation of the appended keys
    and of the appended values in order, and the call number [i] returns the
    concatenation of the first [i + 1] chunks. *)
Theorem lossless_below_budget self (calls : list (call (E:=E))) (B cap : nat) :
  cache_wf self B cap ->
  Forall (call_shaped B) calls -> counting 0 calls ->
  Z.of_nat (total_len calls) <= streaming_budget self ->
  let ks := map (fun c => c.1.2) calls in
  let vs := map (fun c => c.2) calls in
  exists rets self',
    run_prefill self calls = Ok (rets, self')
    /\ length rets = length calls
    /\ map (take (total_len calls)) (draft_k_cache self') = cat_rows B ks
    /\ map (take (total_len calls)) (draft_v_cache self') = cat_rows B vs
    /\ forall i ret, rets !! i = Some ret ->
         ret = (cat_rows B (take (S i) ks), cat_rows B (take (S i) vs)).
Proof.
  intros Hwf Hshape Hcount Htot ks vs.
  destruct (run_counting self calls 0 B cap Hwf Hshape Hcount Htot)
    as (rets & self' & Hrun & Hlen & Hk & Hv & Hrets).
  simpl in Hk, Hv, Hrets. destruct Hwf as [Hkb Hvb _ _ _].
  assert (forall ts : list (tensor E), Forall (fun t => length t = B) ts ->
            zip_with app (replicate B []) (cat_rows B ts) = cat_rows B ts) as Hnil.
  { intros ts Hts. apply zip_with_app_nil_l. by apply length_cat_rows. }
  assert (Forall (fun t => length t = B) ks) as Hks.
  { subst ks. apply Forall_fmap. eapply Forall_impl; [exact Hshape|].
    by intros c ([? _] & _). }
  assert (Forall (fun t => length t = B) vs) as Hvs.
  { subst vs. apply Forall_fmap. eapply Forall_impl; [exact Hshape|].
    by intros c (_ & [? _] & _). }
  rewrite !map_take_0, Hkb, Hvb in *.
  exists rets, self'. split; [done|]. split; [done|].
  rewrite Hk, Hv, !Hnil by done.
  split; [done|]. split; [done|].
  intros i ret Hret. rewrite (Hrets i ret Hret).
  rewrite !Hnil; [done|by apply Forall_take..].
Qed.

(** C2. The append follows the two cases.  On a draft cache of [B]
    sequences of [cap] slots with a budget above the sink, and new keys and
    values of [B] sequences of [L] entries at a cursor [c >= 0]:
    if [c + L <= streaming_budget], every row gets the new entries written
    over the positions [c, c + L) and the call returns the prefix
    [0, c + L) of the rows; otherwise every row becomes [shifted]: its
    positions [0, 16) and those from the budget on are untouched, its sliding
    region [16, budget) is the end of the old region followed by the new
    entries (the oldest [L] entries are dropped and the region ends with the
    new ones when they fit in it, and the region is the last new entries when
    they do not), and the call returns the full buffer [0, budget). *)
Theorem prefill_two_cases self (c : Z) cl (k_val v_val : tensor E) (B cap : nat) :
  cache_wf self B cap ->
  batch_of B k_val -> batch_of B v_val -> shape1 v_val = shape1 k_val ->
  0 <= c ->
  let L := shape1 k_val in
  let s := Z.to_nat c in
  let n := Z.to_nat (streaming_budget self) in
  (c + Z.of_nat L <= streaming_budget self ->
     let k_out := zip_with (fun r x => write_at s x r) (draft_k_cache self) k_val in
     let v_out := zip_with (fun r x => write_at s x r) (draft_v_cache self) v_val in
     prefill self (c :: cl) k_val v_val =
       Ok ((map (take (s + L)) k_out, map (take (s + L)) v_out),
           set_draft self k_out v_out))
  /\ (streaming_budget self < c + Z.of_nat L ->
     let k_out := zip_with (fun r x => shifted n x r) (draft_k_cache self) k_val in
     let v_out := zip_with (fun r x => shifted n x r) (draft_v_cache self) v_val in
     prefill self (c :: cl) k_val v_val =
       Ok ((map (take n) k_out, map (take n) v_out), set_draft self k_out v_out))
  /\ (forall r x : list E, length r = cap ->
     take 16 (shifted n x r) = take 16 r
     /\ drop n (shifted n x r) = drop n r
     /\ take (n - 16) (drop 16 (shifted n x r)) =
          drop (length x) (take (n - 16) (drop 16 r) ++ x)
     /\ ((length x <= n - 16)%nat ->
          take (n - 16) (drop 16 (shifted n x r)) =
            drop (length x) (take (n - 16) (drop 16 r)) ++ x)
     /\ ((n - 16 <= length x)%nat ->
          take (n - 16) (drop 16 (shifted n x r)) = drop (length x - (n - 16)) x)
     /\ length (take n (shifted n x r)) = n).
Proof.
  intros Hwf [Hk Hkr] [Hv Hvr] HL Hc L s n. rewrite HL in Hvr.
  split; [|split].
  - intros Hfit. by apply (prefill_fits self c cl k_val v_val B cap).
  - intros Hover. by apply (prefill_overflow self c cl k_val v_val B cap).
  - intros r x Hr. destruct Hwf as [_ _ _ _ Hsb].
    assert (16 <= n <= length r)%nat as Hn by lia.
    rewrite shifted_region by done.
    split; [apply shifted_sink; lia|].
    split; [by apply shifted_beyond|].
    split; [done|].
    split; [by apply window_short|].
    split; [by apply window_long|].
    rewrite length_take. unfold shifted.
    rewrite length_write_at; rewrite ?length_window; lia.
Qed.

(** C4, as the code has it.  The append reads one cursor, the first of
    [cache_len]: the other cursors do not change its result, and when the new
    entries fit every sequence of the batch gets its entries written at that
    first cursor. *)
Theorem prefill_uses_first_cursor self (c : Z) cl cl' (k_val v_val : tensor E)
    (B cap : nat) :
  cache_wf self B cap ->
  batch_of B k_val -> batch_of B v_val -> shape1 v_val = shape1 k_val ->
  0 <= c -> c + Z.of_nat (shape1 k_val) <= streaming_budget self ->
  prefill self (c :: cl) k_val v_val = prefill self (c :: cl') k_val v_val
  /\ exists ret self',
      prefill self (c :: cl) k_val v_val = Ok (ret, self')
      /\ (forall (b : nat) r x,
            draft_k_cache self !! b = Some r -> k_val !! b = Some x ->
            draft_k_cache self' !! b = Some (write_at (Z.to_nat c) x r))
      /\ (forall (b : nat) r x,
            draft_v_cache self !! b = Some r -> v_val !! b = Some x ->
            draft_v_cache self' !! b = Some (write_at (Z.to_nat c) x r)).
Proof.
  intros Hwf [Hk Hkr] [Hv Hvr] HL Hc Hfit. rewrite HL in Hvr.
  split; [done|].
  eexists _, _. split; [by apply (prefill_fits self c cl k_val v_val B cap)|].
  simpl. split; intros b r x Hr Hx; apply lookup_zip_with_Some; eauto.
Qed.

End StreamingFacts.

(** ** The streaming cache on the sample inputs *)

Lemma sample_cache_wf : SelfSpec.cache_wf Samples.cache 2 20.
Proof. constructor; simpl; try done; try lia; by repeat constructor. Qed.

Lemma sample_keys_shaped : batch_of 2 Samples.keys /\ batch_of 2 Samples.values.
Proof. by repeat constructor. Qed.

Lemma sample_keys16_shaped : batch_of 2 Samples.keys16 /\ batch_of 2 Samples.values16.
Proof. by repeat constructor. Qed.

(** C4 fails as stated: with the cursors [0; 5] the entries of the second
    sequence are written at cursor 0, the cursor of the first sequence, and
    not at its own cursor 5. *)
Lemma prefill_ignores_own_cursor :
  exists ret self',
    SelfSpec.prefill Samples.cache [0; 5] Samples.keys Samples.values = Ok (ret, self')
    /\ SelfSpec.draft_k_cache self' !! 1%nat = Some (write_at 0 [4; 5; 6]%nat (seq 200 20))
    /\ SelfSpec.draft_k_cache self' !! 1%nat <> Some (write_at 5 [4; 5; 6]%nat (seq 200 20))
    /\ SelfSpec.draft_v_cache self' !! 1%nat = Some (write_at 0 [10; 11; 12]%nat (seq 400 20))
    /\ SelfSpec.draft_v_cache self' !! 1%nat <> Some (write_at 5 [10; 11; 12]%nat (seq 400 20)).
Proof. eexists _, _. split; [reflexivity|]. by vm_compute. Qed.

Lemma prefill_uses_first_cursor_witness :
  SelfSpec.cache_wf Samples.cache 2 20
  /\ batch_of 2 Samples.keys /\ batch_of 2 Samples.values
  /\ shape1 Samples.values = shape1 Samples.keys
  /\ 0 <= 4 /\ 4 + Z.of_nat (shape1 Samples.keys) <= SelfSpec.streaming_budget Samples.cache
  /\ SelfSpec.prefill Samples.cache [4; 9] Samples.keys Samples.values =
       SelfSpec.prefill Samples.cache [4; 0] Samples.keys Samples.values.
Proof.
  split; [exact sample_cache_wf|].
  split; [exact (proj1 sample_keys_shaped)|].
  split; [exact (proj2 sample_keys_shaped)|].
  split; [reflexivity|]. split; [lia|]. split; [simpl; lia|].
  apply (prefill_uses_first_cursor Samples.cache 4 [9] [0] Samples.keys Samples.values 2 20).
  - exact sample_cache_wf.
  - exact (proj1 sample_keys_shaped).
  - exact (proj2 sample_keys_shaped).
  - reflexivity.
  - lia.
  - simpl; lia.
Defined.

Lemma prefill_two_cases_witness :
  SelfSpec.cache_wf Samples.cache 2 20
  /\ batch_of 2 Samples.keys /\ batch_of 2 Samples.values
  /\ shape1 Samples.values = shape1 Samples.keys
  /\ 0 <= 17
  /\ SelfSpec.prefill Samples.cache [17; 17] Samples.keys Samples.values =
       Ok (([seq 100 16 ++ [2; 3]; seq 200 16 ++ [5; 6]]%nat,
            [seq 300 16 ++ [8; 9]; seq 400 16 ++ [11; 12]]%nat),
           SelfSpec.set_draft Samples.cache
             [seq 100 16 ++ [2; 3; 118; 119]; seq 200 16 ++ [5; 6; 218; 219]]%nat
             [seq 300 16 ++ [8; 9; 318; 319]; seq 400 16 ++ [11; 12; 418; 419]]%nat).
Proof.
  split; [exact sample_cache_wf|].
  split; [exact (proj1 sample_keys_shaped)|].
  split; [exact (proj2 sample_keys_shaped)|].
  split; [reflexivity|]. split; [lia|].
  refine (proj1 (proj2 (prefill_two_cases Samples.cache 17 [17] Samples.keys Samples.values 2 20
    sample_cache_wf (proj1 sample_keys_shaped) (proj2 sample_keys_shaped) eq_refl _)) _);
    simpl; lia.
Defined.

Lemma sink_invariance_witness :
  let later := [([16; 16], Samples.keys, Samples.values);
                ([19; 19], Samples.keys, Samples.values)] in
  SelfSpec.cache_wf Samples.cache 2 20
  /\ SelfSpec.call_shaped 2 ([0; 0], Samples.keys16, Samples.values16)
  /\ (16 <= shape1 Samples.keys16)%nat
  /\ Forall (SelfSpec.call_shaped 2) later
  /\ SelfSpec.advancing (0 + Z.of_nat (shape1 Samples.keys16)) later
  /\ exists ret1 self1 rets self',
      SelfSpec.prefill Samples.cache [0; 0] Samples.keys16 Samples.values16 = Ok (ret1, self1)
      /\ SelfSpec.run_prefill self1 later = Ok (rets, self')
      /\ map (take 16) (SelfSpec.draft_k_cache self') =
           map (take 16) (SelfSpec.draft_k_cache self1)
      /\ map (take 16) (SelfSpec.draft_v_cache self') =
           map (take 16) (SelfSpec.draft_v_cache self1).
Proof.
  intros later.
  assert (SelfSpec.call_shaped 2 ([0; 0], Samples.keys16, Samples.values16)) as H0
    by (by repeat constructor).
  assert (Forall (SelfSpec.call_shaped 2) later) as Hl by (by repeat constructor).
  assert (SelfSpec.advancing (0 + Z.of_nat (shape1 Samples.keys16)) later) as Ha
    by (simpl; lia).
  split; [exact sample_cache_wf|]. split; [exact H0|]. split; [simpl; lia|].
  split; [exact Hl|]. split; [exact Ha|].
  apply (sink_invariance Samples.cache [0] Samples.keys16 Samples.values16 later 2 20
           sample_cache_wf H0); [simpl; lia|exact Hl|exact Ha].
Defined.

Lemma lossless_below_budget_witness :
  let calls := [([0; 0], Samples.keys, Samples.values);
                ([3; 3], Samples.values, Samples.keys)] in
  SelfSpec.cache_wf Samples.cache 2 20
  /\ Forall (SelfSpec.call_shaped 2) calls
  /\ SelfSpec.counting 0 calls
  /\ Z.of_nat (SelfSpec.total_len calls) <= SelfSpec.streaming_budget Samples.cache
  /\ exists rets self',
      SelfSpec.run_prefill Samples.cache calls = Ok (rets, self')
      /\ length rets = 2%nat
      /\ map (take 6) (SelfSpec.draft_k_cache self') =
           [[1; 2; 3; 7; 8; 9]; [4; 5; 6; 10; 11; 12]]%nat
      /\ map (take 6) (SelfSpec.draft_v_cache self') =
           [[7; 8; 9; 1; 2; 3]; [10; 11; 12; 4; 5; 6]]%nat
      /\ forall i ret, rets !! i = Some ret ->
           ret = (cat_rows 2 (take (S i) [Samples.keys; Samples.values]),
                  cat_rows 2 (take (S i) [Samples.values; Samples.keys])).
Proof.
  intros calls.
  assert (Forall (SelfSpec.call_shaped 2) calls) as Hl by (by repeat constructor).
  assert (SelfSpec.counting 0 calls) as Hc by (simpl; lia).
  assert (Z.of_nat (SelfSpec.total_len calls) <= SelfSpec.streaming_budget Samples.cache)
    as Ht by (simpl; lia).
  split; [exact sample_cache_wf|]. split; [exact Hl|]. split; [exact Hc|].
  split; [exact Ht|].
  exact (lossless_below_budget Samples.cache calls 2 20 sample_cache_wf Hl Hc Ht).
Defined.

(** ** Model configuration *)

Section ConfigFacts.
Context {F : Type} `{Scalar F}.
Implicit Types a : ModelArgs F.
Implicit Types kw : Kwarg F.

Lemma post_init_forgets_head_dim a (h : Z) :
  post_init (set_field a (kw_head_dim h)) = post_init a.
Proof. by destruct a. Qed.

Lemma set_field_forget a kw (h : Z) :
  set_field (set_field (set_field a (kw_head_dim h)) kw) (kw_head_dim 0) =
  set_field (set_field a kw) (kw_head_dim 0).
Proof. by destruct a, kw. Qed.

Lemma foldl_set_field_forget (kws : list (Kwarg F)) a (h : Z) :
  set_field (foldl set_field (set_field a (kw_head_dim h)) kws) (kw_head_dim 0) =
  set_field (foldl set_field a kws) (kw_head_dim 0).
Proof.
  revert a h. induction kws as [|kw kws IH]; intros a h; simpl.
  - by destruct a.
  - rewrite <- (IH (set_field (set_field a (kw_head_dim h)) kw) 0).
    rewrite <- (IH (set_field a kw) 0).
    by rewrite set_field_forget.
Qed.

Lemma int_truediv_trunc_error (x y : Z) (e : PyError) :
  int_truediv_trunc x y = Raise e ->
  (e = ZeroDivisionError /\ y = 0) \/ (e = OverflowError /\ y <> 0).
Proof.
  unfold int_truediv_trunc.
  destruct (Z.eqb_spec y 0) as [->|Hy]; [intros [= <-]; by left|].
  destruct (x =? 0); [done|].
  destruct (_ && _); [|done]. intros [= <-]. by right.
Qed.

Lemma post_init_result a :
  match post_init a with
  | Ok cfg =>
      head_dim cfg = dim a / n_head a /\ dim cfg = dim a /\ n_head cfg = n_head a
      /\ n_head a <> 0
  | Raise e =>
      (e = OverflowError /\ intermediate_size a = None
       /\ int_truediv_trunc (2 * (4 * dim a)) 3 = Raise OverflowError)
      \/ (e = ZeroDivisionError /\ n_head a = 0)
  end.
Proof.
  unfold post_init, int_floordiv.
  destruct (intermediate_size a) as [v|]; simpl.
  - destruct (Z.eqb_spec (n_head a) 0) as [Hz|Hz]; simpl; [by right|].
    by repeat split.
  - destruct (int_truediv_trunc (2 * (4 * dim a)) 3) as [n|e] eqn:Hn; simpl.
    + destruct (Z.eqb_spec (n_head a) 0) as [Hz|Hz]; simpl; [by right|].
      by repeat split.
    + apply int_truediv_trunc_error in Hn as Hcase.
      destruct Hcase as [[_ ?]|[-> _]]; [done|]. by left.
Qed.

Lemma foldl_set_field_head_dim (kws : list (Kwarg F)) a (h : Z) :
  let a1 := foldl set_field (set_field a (kw_head_dim h)) kws in
  let a2 := foldl set_field a kws in
  dim a1 = dim a2 /\ n_head a1 = n_head a2 /\ intermediate_size a1 = intermediate_size a2.
Proof.
  intros a1 a2.
  pose proof (foldl_set_field_forget kws a h) as Heq. fold a1 a2 in Heq.
  assert (forall x : ModelArgs F,
            dim (set_field x (kw_head_dim 0)) = dim x
            /\ n_head (set_field x (kw_head_dim 0)) = n_head x
            /\ intermediate_size (set_field x (kw_head_dim 0)) = intermediate_size x)
    as Hkeep by (by intros []).
  destruct (Hkeep a1) as (<- & <- & <-). destruct (Hkeep a2) as (<- & <- & <-).
  by rewrite Heq.
Qed.

(** C10. The [head_dim] argument has no effect: a construction with
    [head_dim=h] among its keyword arguments gives what the construction
    without it gives.  With [a] the arguments as the construction stores them
    over the defaults, a construction that completes keeps the [dim] and the
    [n_head] of [a] and ends with [head_dim = dim // n_head] of these two,
    [n_head] not being 0; a construction that fails does so with a division
    by zero, [n_head] being 0, or, when no [intermediate_size] is given, with
    an overflow of the float quotient [8 * dim / 3]. *)
Theorem head_dim_overwritten (kw1 kw2 : list (Kwarg F)) (h : Z) :
  let a := foldl set_field field_defaults (kw1 ++ kw_head_dim h :: kw2) in
  ModelArgs_new (kw1 ++ kw_head_dim h :: kw2) = ModelArgs_new (kw1 ++ kw2)
  /\ match ModelArgs_new (kw1 ++ kw_head_dim h :: kw2) with
     | Ok cfg =>
         head_dim cfg = dim a / n_head a
         /\ dim cfg = dim a /\ n_head cfg = n_head a /\ n_head a <> 0
         /\ head_dim cfg = dim cfg / n_head cfg /\ n_head cfg <> 0
     | Raise e =>
         (e = ZeroDivisionError /\ n_head a = 0
          /\ n_head (foldl set_field field_defaults (kw1 ++ kw2)) = 0)
         \/ (e = OverflowError /\ intermediate_size a = None
             /\ int_truediv_trunc (2 * (4 * dim a)) 3 = Raise OverflowError)
     end.
Proof.
  intros a.
  assert (ModelArgs_new (kw1 ++ kw_head_dim h :: kw2) = ModelArgs_new (kw1 ++ kw2)) as Heq.
  { unfold ModelArgs_new. rewrite !foldl_app. simpl.
    rewrite <- (post_init_forgets_head_dim (foldl _ (set_field _ _) kw2) 0).
    rewrite foldl_set_field_forget.
    by rewrite post_init_forgets_head_dim. }
  split; [done|].
  assert (n_head a = n_head (foldl set_field field_defaults (kw1 ++ kw2))) as Hsame.
  { unfold a. rewrite !foldl_app. simpl.
    by destruct (foldl_set_field_head_dim kw2 (foldl set_field field_defaults kw1) h)
      as (_ & -> & _). }
  unfold ModelArgs_new. fold a.
  pose proof (post_init_result a) as Hres.
  destruct (post_init a) as [cfg|e].
  - destruct Hres as (Hh & Hd & Hn & Hz). rewrite Hd, Hn. done.
  - destruct Hres as [(-> & Hnone & Hover)|(-> & Hz)]; [by right|].
    left. by rewrite <- Hsame.
Qed.

(** *** Name resolution *)

Lemma insert_by_len_perm (x : string) (l : list string) : insert_by_len x l ≡ₚ x :: l.
Proof.
  induction l as [|y l IH]; simpl; [done|].
  destruct (String.length y <=? String.length x)%nat; [done|].
  rewrite IH. apply Permutation_swap.
Qed.

Lemma sort_by_len_desc_perm (l : list string) : sort_by_len_desc l ≡ₚ l.
Proof.
  induction l as [|x l IH]; simpl; [done|].
  fold (sort_by_len_desc l). by rewrite insert_by_len_perm, IH.
Qed.

Lemma insert_by_len_sorted (x : string) (l : list string) :
  longest_first l -> longest_first (insert_by_len x l).
Proof.
  induction 1 as [|y l Hl IH Hy]; simpl.
  - repeat constructor.
  - destruct (Nat.leb_spec (String.length y) (String.length x)) as [Hle|Hlt].
    + constructor; [by constructor|].
      constructor; [done|].
      eapply Forall_impl; [exact Hy|]. simpl. intros z Hz. lia.
    + constructor; [done|].
      rewrite insert_by_len_perm. constructor; [lia|done].
Qed.

Lemma sort_by_len_desc_sorted (l : list string) : longest_first (sort_by_len_desc l).
Proof.
  induction l as [|x l IH]; simpl; [constructor|].
  by apply insert_by_len_sorted.
Qed.

Lemma table_get_Some {V} (k : string) (t : list (string * V)) :
  k ∈ map fst t -> exists v, table_get k t = Some v.
Proof.
  induction t as [|[k' v] t IH]; simpl; intros Hin.
  - by apply elem_of_nil in Hin.
  - destruct (String.eqb_spec k k'); [by eexists|].
    apply elem_of_cons in Hin as [?|Hin]; [done|]. by apply IH.
Qed.

Lemma fuzzy_matches_keys {V} (t : list (string * V)) (name k : string) :
  k ∈ fuzzy_matches t name -> k ∈ map fst t.
Proof. unfold fuzzy_matches. rewrite list_elem_of_filter. tauto. Qed.

End ConfigFacts.

Section NameResolution.
Context {F : Type} `{Scalar F}.
Implicit Types table : list (string * list (Kwarg F)).

Lemma sorted_head_longest (c0 : string) (l : list string) (k : string) :
  longest_first (c0 :: l) -> k ∈ c0 :: l -> (String.length k <= String.length c0)%nat.
Proof.
  intros Hs Hk. apply StronglySorted_inv in Hs as [_ Hall].
  apply elem_of_cons in Hk as [->|Hk]; [done|].
  rewrite Forall_forall in Hall. by apply Hall.
Qed.

(** The resolution of a name that is not a key, by what the sorted matches
    look like. *)
Lemma from_name_in_fuzzy table (name : string) :
  table_get name table = None ->
  from_name_in table name =
    match fuzzy_matches table name with
    | [] => Raise IndexError
    | [k] => match table_get k table with
             | Some kwargs => ModelArgs_new kwargs
             | None => Raise KeyError
             end
    | _ =>
        match sort_by_len_desc (fuzzy_matches table name) with
        | c0 :: c1 :: _ =>
            if (String.length c0 =? String.length c1)%nat then Raise AssertionError
            else match table_get c0 table with
                 | Some kwargs => ModelArgs_new kwargs
                 | None => Raise KeyError
                 end
        | _ => Raise IndexError
        end
    end.
Proof.
  intros Hnone. unfold from_name_in. rewrite Hnone.
  destruct (fuzzy_matches table name) as [|k [|k' ms]] eqn:Hms; simpl; [done..|].
  destruct (insert_by_len k (insert_by_len k' (sort_by_len_desc ms)))
    as [|c0 [|c1 rest]]; simpl; [done..|].
  by destruct (String.length c0 =? String.length c1)%nat.
Qed.


End NameResolution.


(** Names that are not keys: one key occurs in the first, two keys in the
    second and the longer one wins. *)
Example from_name_fuzzy :
  from_name (F:=Q) "Meta-Llama-3.1-8B" = from_name (F:=Q) "llama-3.1-8b"
  /\ from_name (F:=Q) "Llama-2-7b-32k-Instruct" = from_name (F:=Q) "llama-2-7b-32k"
  /\ from_name (F:=Q) "llama-2-7b+llama-3-8b" = Raise AssertionError.
Proof. by vm_compute. Qed.

(** ** Rotary frequencies *)

Section RopeFacts.
Context {F : Type} `{Scalar F}.
Implicit Types inv_freq : list F.

Lemma bind_Ok {A B} (m : result A) (f : A -> result B) (b : B) :
  m ≫= f = Ok b -> exists a, m = Ok a /\ f a = Ok b.
Proof. destruct m as [a|e]; simpl; [by exists a | done]. Qed.

Lemma llama3_freq_error old s low high lw hw (freq : F) (e : PyError) :
  llama3_freq old s low high lw hw freq = Raise e ->
  e = AssertionError /\ f_eqb lw hw = true
  /\ f_ltb (f_div (f_mul (f_of_Z 2) f_pi) freq) hw = false
  /\ f_ltb lw (f_div (f_mul (f_of_Z 2) f_pi) freq) = false.
Proof.
  unfold llama3_freq.
  destruct (f_ltb (f_div _ freq) hw); [done|].
  destruct (f_ltb lw (f_div _ freq)); [done|].
  destruct (f_eqb lw hw); [|done].
  intros [= <-]. done.
Qed.

(** The loop returns when its body does on every frequency. *)
Lemma llama3_loop_ok old s low high lw hw inv_freq (g : F -> F) :
  (forall f, f ∈ inv_freq -> llama3_freq old s low high lw hw f = Ok (g f)) ->
  llama3_loop old s low high lw hw inv_freq = Ok (map g inv_freq).
Proof.
  induction inv_freq as [|f rest IH]; intros Hall; simpl; [done|].
  rewrite Hall by (rewrite elem_of_cons; auto). simpl.
  rewrite IH; [done|]. intros f' Hf'. apply Hall. rewrite elem_of_cons; auto.
Qed.

(** The loop fails as soon as its body fails on one frequency. *)
Lemma llama3_loop_raise old s low high lw hw inv_freq (f : F) :
  f ∈ inv_freq -> llama3_freq old s low high lw hw f = Raise AssertionError ->
  llama3_loop old s low high lw hw inv_freq = Raise AssertionError.
Proof.
  induction inv_freq as [|f0 rest IH]; intros Hin Hf.
  - by apply elem_of_nil in Hin.
  - simpl. destruct (llama3_freq old s low high lw hw f0) as [y|e] eqn:Hf0; simpl.
    + apply elem_of_cons in Hin as [->|Hin]; [congruence|].
      by rewrite IH.
    + by apply llama3_freq_error in Hf0 as [-> _].
Qed.

Lemma llama3_freq_rescaled old s low high (f : F) :
  let lw := f_div (f_of_Z old) (f_of_Z low) in
  let hw := f_div (f_of_Z old) (f_of_Z high) in
  let wavelen := f_div (f_mul (f_of_Z 2) f_pi) f in
  llama3_freq old s low high lw hw f =
    if f_ltb wavelen hw || f_ltb lw wavelen || negb (f_eqb lw hw)
    then Ok (rescaled_freq old s low high f)
    else Raise AssertionError.
Proof.
  intros lw hw wavelen. unfold llama3_freq, rescaled_freq.
  fold lw hw wavelen.
  destruct (f_ltb wavelen hw); [done|].
  destruct (f_ltb lw wavelen); [done|].
  by destruct (f_eqb lw hw).
Qed.

(** What [_compute_llama3_parameters] returns, with both factors non-zero. *)
Lemma llama3_parameters_cases inv_freq (old : Z) (s : F) (low high : Z) :
  low <> 0 -> high <> 0 ->
  let lw := f_div (f_of_Z old) (f_of_Z low) in
  let hw := f_div (f_of_Z old) (f_of_Z high) in
  let wavelen := fun f => f_div (f_mul (f_of_Z 2) f_pi) f in
  ((forall f, f ∈ inv_freq ->
      f_ltb (wavelen f) hw || f_ltb lw (wavelen f) || negb (f_eqb lw hw) = true) ->
   _compute_llama3_parameters inv_freq (Some old) s low high =
     Ok (map (rescaled_freq old s low high) inv_freq))
  /\ (forall f, f ∈ inv_freq ->
        f_ltb (wavelen f) hw || f_ltb lw (wavelen f) || negb (f_eqb lw hw) = false ->
        _compute_llama3_parameters inv_freq (Some old) s low high = Raise AssertionError).
Proof.
  intros Hlow Hhigh lw hw wavelen.
  unfold _compute_llama3_parameters, int_truediv.
  destruct (Z.eqb_spec low 0); [done|]. destruct (Z.eqb_spec high 0); [done|]. simpl.
  fold lw hw. split.
  - intros Hall. apply llama3_loop_ok. intros f Hf.
    rewrite llama3_freq_rescaled. fold lw hw (wavelen f). by rewrite Hall.
  - intros f Hf Hbad. apply llama3_loop_raise with f; [done|].
    rewrite llama3_freq_rescaled. fold lw hw (wavelen f). by rewrite Hbad.
Qed.


End RopeFacts.



(** ** Cache setup *)

Section SetupFacts.
Context {F : Type} `{Scalar F}.

Lemma mapM_const {A B} (f : A -> result B) (y : B) (l : list A) :
  (forall x, f x = Ok y) -> mapM f l = Ok (replicate (length l) y).
Proof.
  intros Hf. induction l as [|x l IH]; simpl; [done|].
  rewrite Hf. simpl. by rewrite IH.
Qed.

Lemma mapM_const_raise {A B} (f : A -> result B) (e : PyError) (l : list A) :
  (forall x, f x = Raise e) -> l <> [] -> mapM f l = Raise e.
Proof. intros Hf Hl. destruct l as [|x l]; [done|]. simpl. by rewrite Hf. Qed.

Lemma freqs_without_original (config : ModelArgs F) (dtype : DType) (l h : Z) :
  low_freq_factor config = Some l -> high_freq_factor config = Some h ->
  original_max_position_embeddings config = None ->
  is_ok (freqs_of_config config dtype) = false.
Proof.
  intros Hl Hh Ho. unfold freqs_of_config. rewrite Hl, Hh, Ho.
  destruct (int_floordiv _ _) as [n|]; simpl; [|done].
  unfold precompute_freqs_cis. by destruct (base_freqs _ _).
Qed.

Lemma freqs_one_factor (config : ModelArgs F) (dtype : DType) :
  low_freq_factor config = None \/ high_freq_factor config = None ->
  freqs_of_config config dtype = freqs_of_config (without_long_context config) dtype.
Proof.
  intros Hone. unfold freqs_of_config. simpl.
  destruct (high_freq_factor config), (low_freq_factor config); try done.
  by destruct Hone.
Qed.

Lemma paged_setup_inv (self self' : Model.Transformer) (num_pages page_size : Z) :
  Model.setup_caches self num_pages page_size = Ok self' ->
  exists hd freqs,
    int_floordiv (dim (Model.config self)) (n_head (Model.config self)) = Ok hd
    /\ freqs_of_config (Model.config self) (Model.output_dtype self) = Ok freqs
    /\ self' = Model.mkTransformer (Model.config self) (Model.layers self') (Some freqs)
                 (Model.output_dtype self)
    /\ length (Model.layers self') = length (Model.layers self)
    /\ Forall (fun b => Model.fresh_layer (Model.config self) (Model.output_dtype self)
                          num_pages page_size = Ok b) (Model.layers self').
Proof.
  unfold Model.setup_caches, Model.fresh_layer. intros Hrun.
  destruct (int_floordiv _ _) as [hd|]; simpl in *; [|done].
  destruct (Model.KVCache_new num_pages page_size
              (n_local_heads (Model.config self)) hd (Model.output_dtype self))
    as [kv|e] eqn:Hkv.
  - rewrite (mapM_const _ (Model.mkAttention (Some kv) (Some Model.target_decode)
                             (Some Model.target_prefill))) in Hrun
      by (intros; rewrite ?Hkv; done).
    simpl in Hrun. destruct (freqs_of_config _ _) as [freqs|]; simpl in *; [|done].
    injection Hrun as <-. exists hd, freqs. simpl.
    split; [done|]. split; [done|]. split; [done|]. split; [by rewrite length_replicate|].
    apply Forall_forall. intros b Hb. by apply elem_of_replicate in Hb as [-> _].
  - destruct (Model.layers self) as [|b bs] eqn:Hl.
    + simpl in Hrun. destruct (freqs_of_config _ _) as [freqs|]; simpl in *; [|done].
      injection Hrun as <-. exists hd, freqs. simpl. by repeat split.
    + rewrite (mapM_const_raise _ e) in Hrun; [done| |done].
      intros. rewrite ?Hkv. done.
Qed.

Lemma mapM_ignore {A B} (r : result B) (l : list A) :
  mapM (fun _ => r) l =
    match l with
    | [] => Ok []
    | _ :: _ => y ← r; Ok (replicate (length l) y)
    end.
Proof.
  destruct l as [|x l]; [done|]. destruct r as [y|e]; [|done].
  by rewrite (mapM_const _ y).
Qed.

Lemma Forall_same_result {B} (r : result B) (y : B) (l : list B) :
  r = Ok y -> Forall (fun x => r = Ok x) l -> l = replicate (length l) y.
Proof.
  intros Hr. induction 1 as [|x l Hx Hl IH]; simpl; [done|].
  rewrite <- IH. congruence.
Qed.

(** C9, as the code has it.  In [model_selfspec.py], [setup_caches] with a
    request that the recorded [max_seq_length] and [max_batch_size] cover
    returns at once and leaves the whole model unchanged, whatever the
    streaming budget and the buffer asked for.  In [model.py], [setup_caches]
    has no such check: a call that returns installs in every block a fresh
    cache of zeros of the requested shape and rebuilds the frequency table
    from the configuration, so that a second call leaves the table equal, and
    leaves the model equal when it is made with the same request on caches
    that are still as the first call built them. *)
Theorem setup_caches_recheck :
  (forall (X : Type) (self : SelfSpec.Transformer (F:=F) (X:=X))
          (max_batch_size max_seq_length streaming_budget buffer : Z),
     SelfSpec.max_seq_length self >= max_seq_length ->
     SelfSpec.max_batch_size self >= max_batch_size ->
     SelfSpec.setup_caches self max_batch_size max_seq_length streaming_budget buffer =
       Ok self)
  /\ (forall (self self' : Model.Transformer (F:=F)) (num_pages page_size : Z),
        Model.setup_caches self num_pages page_size = Ok self' ->
        Model.setup_caches self' num_pages page_size = Ok self'
        /\ Forall (fun b => Model.fresh_layer (Model.config self) (Model.output_dtype self)
                              num_pages page_size = Ok b) (Model.layers self')
        /\ forall (num_pages' page_size' : Z) (self'' : Model.Transformer),
             Model.setup_caches self' num_pages' page_size' = Ok self'' ->
             Model.freqs_cis self'' = Model.freqs_cis self'
             /\ Forall (fun b => Model.fresh_layer (Model.config self)
                                   (Model.output_dtype self) num_pages' page_size' = Ok b)
                       (Model.layers self'')).
Proof.
  split.
  - intros X self mbs msl sb buf Hs Hb. unfold SelfSpec.setup_caches.
    rewrite !(proj2 (Z.geb_le _ _)) by lia. done.
  - intros self self' np ps Hrun.
    destruct (paged_setup_inv self self' np ps Hrun)
      as (hd & freqs & Hhd & Hf & Hself & Hlen & Hall).
    destruct self' as [cfg' layers' fr' dt']. simpl in *.
    injection Hself as -> -> ->.
    split; [|split; [done|]].
    + unfold Model.setup_caches. simpl. rewrite Hhd. simpl.
      rewrite mapM_ignore. destruct layers' as [|b bs]; simpl.
      * by rewrite Hf.
      * pose proof Hall as Hb. apply Forall_inv in Hb.
        unfold Model.fresh_layer in Hb, Hall. rewrite Hhd in Hb, Hall. simpl in Hb, Hall.
        rewrite Hb. simpl. rewrite Hf. simpl.
        pose proof (Forall_same_result _ b (b :: bs) Hb Hall) as Heq.
        simpl in Heq. by rewrite <- Heq.
    + intros np' ps' self'' Hrun'.
      destruct (paged_setup_inv _ self'' np' ps' Hrun')
        as (hd' & freqs' & _ & Hf' & Hself' & _ & Hall').
      simpl in *. rewrite Hself'. simpl. split; [congruence|done].
Qed.


End SetupFacts.



(** C9 fails as stated: the paged model whose caches were set up for one
    page of one slot, and then written by the kernel, has its cache replaced
    by zeros when [setup_caches(1, 1)] is called again; and a call with the
    smaller request of no page at all replaces the cache of one page by an
    empty one. *)
Lemma paged_setup_resets_cache :
  Model.setup_caches (Model.Transformer_new (Samples.config_of Samples.tiny_kwargs) bfloat16)
    1 1 = Ok Samples.paged_fresh
  /\ Model.freqs_cis Samples.paged_written = Model.freqs_cis Samples.paged_fresh
  /\ Model.setup_caches Samples.paged_written 1 1 = Ok Samples.paged_fresh
  /\ Model.layers Samples.paged_fresh <> Model.layers Samples.paged_written
  /\ exists smaller,
      Model.setup_caches Samples.paged_fresh 0 1 = Ok smaller
      /\ Model.layers smaller <> Model.layers Samples.paged_fresh.
Proof.
  split; [by vm_compute|]. split; [by vm_compute|]. split; [by vm_compute|].
  split.
  - intros Heq. vm_compute in Heq. discriminate Heq.
  - eexists. split; [by vm_compute|].
    intros Heq. vm_compute in Heq. discriminate Heq.
Qed.

Lemma setup_caches_recheck_witness :
  SelfSpec.max_seq_length Samples.draft_ready >= 4
  /\ SelfSpec.max_batch_size Samples.draft_ready >= 1
  /\ SelfSpec.setup_caches Samples.draft_ready 1 4 8 0 = Ok Samples.draft_ready
  /\ Model.setup_caches Samples.paged_fresh 1 1 = Ok Samples.paged_fresh.
Proof.
  assert (SelfSpec.max_seq_length Samples.draft_ready >= 4) as Hs by (vm_compute; discriminate).
  assert (SelfSpec.max_batch_size Samples.draft_ready >= 1) as Hb by (vm_compute; discriminate).
  split; [exact Hs|]. split; [exact Hb|]. split.
  - exact (proj1 (setup_caches_recheck (F:=Q)) Q Samples.draft_ready 1 4 8 0 Hs Hb).
  - refine (proj1 (proj2 (setup_caches_recheck (F:=Q))
                     (Model.Transformer_new (Samples.config_of Samples.tiny_kwargs) bfloat16)
                     Samples.paged_fresh 1 1 _)).
    by vm_compute.
Defined.

(** ** Rotation of the keys in [draft_prefill] *)

Section RotaryFacts.
Context {F : Type} `{Scalar F}.
Implicit Types x out : tensor (entry F).
Implicit Types freqs : tensor (freq_row F).

Lemma rotate_row_lookup dtype (r : list (entry F)) (fr : list (freq_row F)) r' :
  rotate_row dtype r fr = Ok r' ->
  length r' = length r
  /\ forall (j : nat) e, r !! j = Some e ->
       exists f e', fr !! j = Some f /\ rotate_heads dtype e f = Ok e' /\ r' !! j = Some e'.
Proof.
  revert fr r'. induction r as [|e0 r IH]; intros [|f0 fr] r' Hrun; simpl in Hrun; try done.
  - injection Hrun as <-. split; [done|]. by intros j e Hj.
  - destruct (rotate_heads dtype e0 f0) as [e0'|] eqn:He0; simpl in Hrun; [|done].
    destruct (rotate_row dtype r fr) as [r''|] eqn:Hr; simpl in Hrun; [|done].
    injection Hrun as <-. destruct (IH fr r'' Hr) as [Hlen Hlook].
    split; [simpl; by rewrite Hlen|].
    intros [|j] e Hj; simpl in *.
    + injection Hj as <-. by exists f0, e0'.
    + by apply Hlook.
Qed.

Lemma apply_rotary_emb_batch dtype x freqs out :
  apply_rotary_emb dtype x freqs = Ok out ->
  no_head x = false /\ rotate_batch dtype x freqs = Ok out.
Proof. unfold apply_rotary_emb. by destruct (no_head x). Qed.

Lemma rotate_batch_lookup dtype x freqs out :
  rotate_batch dtype x freqs = Ok out ->
  length out = length x
  /\ forall (b : nat) r, x !! b = Some r ->
       exists fr r', freqs !! b = Some fr /\ rotate_row dtype r fr = Ok r'
                     /\ out !! b = Some r'.
Proof.
  revert freqs out. induction x as [|r0 x IH]; intros [|fr0 freqs] out Hrun;
    simpl in Hrun; try done.
  - injection Hrun as <-. split; [done|]. by intros b r Hb.
  - destruct (rotate_row dtype r0 fr0) as [r0'|] eqn:Hr0; simpl in Hrun; [|done].
    destruct (rotate_batch dtype x freqs) as [x'|] eqn:Hx; simpl in Hrun; [|done].
    injection Hrun as <-. destruct (IH freqs x' Hx) as [Hlen Hlook].
    split; [simpl; by rewrite Hlen|].
    intros [|b] r Hb; simpl in *.
    + injection Hb as <-. by exists fr0, r0'.
    + by apply Hlook.
Qed.

Lemma apply_rotary_emb_lookup dtype x freqs out :
  apply_rotary_emb dtype x freqs = Ok out ->
  length out = length x
  /\ forall (b : nat) r, x !! b = Some r ->
       exists fr r', freqs !! b = Some fr /\ rotate_row dtype r fr = Ok r'
                     /\ out !! b = Some r'.
Proof. intros Hrun. by apply rotate_batch_lookup, apply_rotary_emb_batch. Qed.

Lemma apply_rotary_emb_rows dtype x freqs out (n : nat) :
  apply_rotary_emb dtype x freqs = Ok out -> rows_of n x -> rows_of n out.
Proof.
  intros Hrun. apply apply_rotary_emb_batch in Hrun as [_ Hrun].
  revert freqs out Hrun. induction x as [|r0 x IH]; intros [|fr0 freqs] out Hrun Hrows;
    simpl in Hrun; try done.
  - injection Hrun as <-. constructor.
  - destruct (rotate_row dtype r0 fr0) as [r0'|] eqn:Hr0; simpl in Hrun; [|done].
    destruct (rotate_batch dtype x freqs) as [x'|] eqn:Hx; simpl in Hrun; [|done].
    injection Hrun as <-. inversion Hrows as [|? ? Hr0len Hrows']; subst.
    constructor; [|by apply (IH freqs)].
    by apply rotate_row_lookup in Hr0 as [-> _].
Qed.

Lemma apply_rotary_emb_shape1 dtype x freqs out :
  apply_rotary_emb dtype x freqs = Ok out -> shape1 out = shape1 x.
Proof.
  intros Hrun. apply apply_rotary_emb_batch in Hrun as [_ Hrun]. revert Hrun.
  destruct x as [|r0 x], freqs as [|fr0 freqs]; simpl; try done.
  - by intros [= <-].
  - destruct (rotate_row dtype r0 fr0) as [r0'|] eqn:Hr0; simpl; [|done].
    destruct (rotate_batch dtype x freqs) as [x'|]; simpl; [|done].
    intros [= <-]. simpl. by apply rotate_row_lookup in Hr0 as [-> _].
Qed.

End RotaryFacts.

Section DraftPrefillFacts.
Context {F : Type} `{Scalar F} {X : Type}.
Variable custom_func_2 :
  tensor (entry F) -> tensor (entry F) -> tensor (entry F) -> tensor X.
Variable all_reduce : tensor X -> tensor X.
Import SelfSpec.

Lemma rows_of_shape1 {E} (t : tensor E) (m : nat) :
  rows_of m t -> rows_of (shape1 t) t /\ (shape1 t <= m)%nat.
Proof.
  intros Hrows. destruct t as [|r t]; simpl; [split; [constructor|lia]|].
  inversion Hrows; subst. split; [done|lia].
Qed.

Lemma batch_of_map_map {A E} (f : A -> E) (t : tensor A) (B : nat) :
  batch_of B t -> batch_of B (map (map f) t) /\ shape1 (map (map f) t) = shape1 t.
Proof.
  intros [Hlen Hrows].
  assert (shape1 (map (map f) t) = shape1 t) as Hs.
  { destruct t; simpl; [done|]. by rewrite length_map. }
  split; [|done]. split; [by rewrite length_map|].
  rewrite Hs. unfold rows_of in *. rewrite Forall_fmap.
  eapply Forall_impl; [exact Hrows|]. intros r Hr. simpl in *. by rewrite length_map.
Qed.

Lemma rows_of_map_take {E} (t : tensor E) (p cap : nat) :
  rows_of cap t -> (p <= cap)%nat -> rows_of p (map (take p) t).
Proof.
  intros Hrows Hp. unfold rows_of in *. rewrite Forall_fmap.
  eapply Forall_impl; [exact Hrows|]. intros r Hr. simpl in *. rewrite length_take. lia.
Qed.

(** What a call returns has the batch of the cache and rows within it. *)
Lemma prefill_returns {E} (self : KVCache E) (c : Z) cl (k_val v_val : tensor E)
    (B cap : nat) :
  cache_wf self B cap ->
  batch_of B k_val -> batch_of B v_val -> shape1 v_val = shape1 k_val -> 0 <= c ->
  exists k_ret v_ret self' (m : nat),
    prefill self (c :: cl) k_val v_val = Ok ((k_ret, v_ret), self')
    /\ cache_wf self' B cap
    /\ length k_ret = B /\ rows_of m k_ret
    /\ length v_ret = B /\ rows_of m v_ret /\ (m <= cap)%nat.
Proof.
  intros Hwf Hk Hv HL Hc.
  destruct (prefill_step self c cl k_val v_val B cap Hwf Hk Hv HL Hc)
    as (ret & self' & Hrun & Hwf' & _ & _).
  destruct Hk as [Hk Hkr], Hv as [Hv Hvr]. rewrite HL in Hvr.
  pose proof Hwf as [Hkb Hvb Hkrows Hvrows Hsb].
  destruct (Z.le_gt_cases (c + Z.of_nat (shape1 k_val)) (streaming_budget self))
    as [Hfit|Hover].
  - pose proof (prefill_fits self c cl k_val v_val B cap Hwf Hk Hkr Hv Hvr Hc Hfit) as Heq.
    simpl in Heq. rewrite Heq in Hrun. injection Hrun as <- <-.
    eexists _, _, _, (Z.to_nat c + shape1 k_val)%nat. split; [exact Heq|].
    split; [done|]. rewrite !length_map, !length_zip_with.
    split; [lia|]. split.
    { apply rows_of_map_take with cap; [|lia].
      apply rows_of_write with (shape1 k_val); (done || lia). }
    split; [lia|]. split; [|lia].
    apply rows_of_map_take with cap; [|lia].
    apply rows_of_write with (shape1 k_val); (done || lia).
  - pose proof (prefill_overflow self c cl k_val v_val B cap Hwf Hk Hkr Hv Hvr ltac:(lia))
      as Heq.
    simpl in Heq. rewrite Heq in Hrun. injection Hrun as <- <-.
    eexists _, _, _, (Z.to_nat (streaming_budget self)). split; [exact Heq|].
    split; [done|]. rewrite !length_map, !length_zip_with.
    split; [lia|]. split.
    { apply rows_of_map_take with cap; [|lia]. apply rows_of_shifted; (done || lia). }
    split; [lia|]. split; [|lia].
    apply rows_of_map_take with cap; [|lia]. apply rows_of_shifted; (done || lia).
Qed.

Lemma py_index_nat {A} (table : list A) (s : nat) :
  py_index table (Z.of_nat s) =
    match table !! s with
    | Some x => Ok x
    | None => Raise IndexError
    end.
Proof.
  unfold py_index. destruct (Z.ltb_spec (Z.of_nat s) 0); [lia|].
  destruct (Z.ltb_spec (Z.of_nat s) 0); [lia|]. by rewrite Nat2Z.id.
Qed.

Lemma index_rows_seq {A} (table : list A) (s n : nat) rows :
  mapM (py_index table) (map Z.of_nat (seq s n)) = Ok rows ->
  rows = take n (drop s table).
Proof.
  revert s rows. induction n as [|n IH]; intros s rows Hrun; simpl in Hrun.
  - injection Hrun as <-. done.
  - rewrite py_index_nat in Hrun.
    destruct (table !! s) as [x|] eqn:Hx; simpl in Hrun; [|done].
    destruct (mapM (py_index table) (map Z.of_nat (seq (S s) n))) as [rows'|] eqn:Hrest;
      simpl in Hrun; [|done].
    injection Hrun as <-. rewrite (IH (S s) rows' Hrest).
    by rewrite (drop_S _ _ _ Hx).
Qed.

Lemma mapM_replicate_inv {A B} (f : A -> result B) (x : A) (n : nat) (l : list B) :
  mapM f (replicate n x) = Ok l ->
  (n = 0%nat /\ l = []) \/ (exists y, f x = Ok y /\ l = replicate n y).
Proof.
  revert l. induction n as [|n IH]; intros l Hrun; simpl in Hrun.
  - injection Hrun as <-. by left.
  - destruct (f x) as [y|] eqn:Hy; simpl in Hrun; [|done].
    destruct (mapM f (replicate n x)) as [l'|] eqn:Hrest; simpl in Hrun; [|done].
    injection Hrun as <-. right. exists y. split; [done|].
    destruct (IH l' eq_refl) as [[-> ->]|(y' & Hy' & ->)]; [done|].
    simpl. congruence.
Qed.

(** After a [setup_caches] that builds, every sequence of
    [streaming_freqs] holds the rows of the positions 0, 1, ... of the table,
    up to the streaming budget. *)
Lemma setup_streaming_freqs (self self' : Transformer (F:=F) (X:=X))
    (mbs msl sb buf : Z) :
  max_seq_length self < msl \/ max_batch_size self < mbs ->
  setup_caches self mbs msl sb buf = Ok self' ->
  exists table,
    freqs_cis self' = Some table
    /\ streaming_freqs self' = Some (replicate (Z.to_nat mbs) (take (Z.to_nat sb) table)).
Proof.
  intros Hguard. unfold setup_caches.
  assert ((max_seq_length self >=? msl) && (max_batch_size self >=? mbs) = false) as ->.
  { apply andb_false_iff. rewrite !Z.geb_leb, !Z.leb_gt. tauto. }
  destruct (int_floordiv _ _); simpl; [|done].
  destruct (mapM _ (imap pair (layers self))); simpl; [|done].
  destruct (freqs_of_config _ _) as [table|]; simpl; [|done].
  unfold arange. destruct (Z.ltb_spec sb 0); simpl; [done|].
  unfold zeros_dim. destruct (Z.ltb_spec mbs 0); simpl; [done|].
  destruct (mapM (index_rows table) _) as [streaming|] eqn:Hs; simpl; [|done].
  intros [= <-]. exists table. split; [done|]. simpl. f_equal.
  apply mapM_replicate_inv in Hs as [[Hn ->]|(rows & Hrows & ->)].
  - by rewrite Hn.
  - unfold index_rows in Hrows. apply index_rows_seq in Hrows.
    rewrite drop_0 in Hrows. by subst rows.
Qed.

(** C8.  In [draft_prefill] on a module with a well-shaped cache, the append
    returns [k_ret], [v_ret] and the cache [c1].  When the two rotations
    succeed (the queries with the rows [freqs_cis] of the input positions,
    the returned keys with [streaming_freqs]), the rotated key of sequence [b]
    at index [j] of the returned buffer is the key at that index rotated by
    [streaming_freqs[b][j]], whatever [freqs_cis] is; the kernel gets these
    rotated keys and the returned values; and the module ends with the cache
    [c1], in which, exactly when [is_last] holds, the rotated keys are
    written over the positions [0, L) of the draft key cache, the draft value
    cache being the one of [c1] in both cases.  The table [streaming_freqs]
    that a [setup_caches] leaves holds, for every sequence, the rows of the
    positions 0, 1, ... of [freqs_cis]. *)
Theorem draft_prefill_local_rotation (self : Attention (F:=F) (X:=X))
    (c : KVCache (entry F)) (x : tensor X)
    (freqs_cis streaming_freqs : tensor (freq_row F)) (c0 : Z) (cl : list Z)
    (is_last : bool) (B cap : nat) :
  kv_cache self = Some c -> cache_wf c B cap -> batch_of B x -> 0 <= c0 ->
  let q := map (map (fun xi => (wqkv self xi).1.1)) x in
  let k := map (map (fun xi => (wqkv self xi).1.2)) x in
  let v := map (map (fun xi => (wqkv self xi).2)) x in
  (exists k_ret v_ret c1,
    prefill c (c0 :: cl) k v = Ok ((k_ret, v_ret), c1)
    /\ forall q_rot k_rot,
        apply_rotary_emb (weight_dtype self) q freqs_cis = Ok q_rot ->
        apply_rotary_emb (weight_dtype self) k_ret
          (slice1_to streaming_freqs (Z.of_nat (shape1 k_ret))) = Ok k_rot ->
        (forall (b j : nat) r e,
           k_ret !! b = Some r -> r !! j = Some e ->
           exists row f e' r',
             streaming_freqs !! b = Some row /\ row !! j = Some f
             /\ rotate_heads (weight_dtype self) e f = Ok e'
             /\ k_rot !! b = Some r' /\ r' !! j = Some e')
        /\ let dk := zip_with (fun r y => write_at 0 y r) (draft_k_cache c1) k_rot in
           let y := custom_func_2 q_rot k_rot v_ret in
           let y := map (map (wo self)) y in
           let y := if process_group self then all_reduce y else y in
           draft_prefill custom_func_2 all_reduce self x freqs_cis streaming_freqs
             (c0 :: cl) is_last =
             Ok (y, set_kv_cache self
                      (Some (if is_last then set_draft c1 dk (draft_v_cache c1) else c1))))
  /\ (forall (model model' : Transformer (F:=F) (X:=X)) (mbs msl sb buf : Z),
        max_seq_length model < msl \/ max_batch_size model < mbs ->
        setup_caches model mbs msl sb buf = Ok model' ->
        exists table,
          SelfSpec.freqs_cis model' = Some table
          /\ SelfSpec.streaming_freqs model' =
               Some (replicate (Z.to_nat mbs) (take (Z.to_nat sb) table))).
Proof.
  intros Hc Hwf Hx Hc0 q k v.
  split; [|intros model model' mbs msl sb buf; apply setup_streaming_freqs].
  destruct (batch_of_map_map (fun xi => (wqkv self xi).1.2) x B Hx) as [Hk Hks].
  destruct (batch_of_map_map (fun xi => (wqkv self xi).2) x B Hx) as [Hv Hvs].
  fold k in Hk, Hks. fold v in Hv, Hvs.
  destruct (prefill_returns c c0 cl k v B cap Hwf Hk Hv ltac:(congruence) Hc0)
    as (k_ret & v_ret & c1 & m & Hrun & Hwf1 & Hkl & Hkr & Hvl & Hvr & Hm).
  exists k_ret, v_ret, c1. split; [done|].
  intros q_rot k_rot Hq Hrot. split.
  - intros b j r e Hb Hj.
    destruct (apply_rotary_emb_lookup _ _ _ _ Hrot) as [_ Hlook].
    destruct (Hlook b r Hb) as (fr & r' & Hfr & Hr' & Hout).
    destruct (rotate_row_lookup _ _ _ _ Hr') as [_ Hrow].
    destruct (Hrow j e Hj) as (f & e' & Hf & He' & Hr'j).
    unfold slice1_to in Hfr. rewrite list_lookup_fmap in Hfr.
    destruct (streaming_freqs !! b) as [row|] eqn:Hsf; simpl in Hfr; [|done].
    injection Hfr as <-. exists row, f, e', r'.
    split; [done|]. split; [|done].
    rewrite py_slice_to_inside in Hf by lia.
    rewrite lookup_take_Some in Hf. tauto.
  - intros dk y y0 y1. unfold draft_prefill. rewrite Hc. fold q k v.
    rewrite Hrun. simpl. rewrite Hq. simpl. rewrite Hrot. simpl.
    destruct is_last; [|done].
    pose proof (apply_rotary_emb_rows _ _ _ _ m Hrot Hkr) as Hrows.
    destruct (rows_of_shape1 k_rot m Hrows) as [Hrows' Hle].
    destruct (apply_rotary_emb_lookup _ _ _ _ Hrot) as [Hlen _].
    destruct Hwf1 as [Hkb1 Hvb1 Hkrows1 Hvrows1 Hsb1].
    pose proof (setitem1_write (draft_k_cache c1) k_rot 0 cap (shape1 k_rot)
                  Hkrows1 Hrows' ltac:(lia) ltac:(lia) ltac:(lia)) as Hset.
    rewrite Z.add_0_l in Hset. change (Z.to_nat 0) with 0%nat in Hset.
    rewrite Hset. done.
Qed.

End DraftPrefillFacts.

Lemma sample_draft_cache_wf : SelfSpec.cache_wf Samples.draft_cache 1 18.
Proof. constructor; try done; vm_compute; by repeat constructor. Qed.

Lemma draft_prefill_local_rotation_witness :
  SelfSpec.kv_cache (Samples.attention (Some Samples.draft_cache)) = Some Samples.draft_cache
  /\ SelfSpec.cache_wf Samples.draft_cache 1 18
  /\ batch_of 1 Samples.hidden
  /\ 0 <= 15
  /\ exists y att c',
      SelfSpec.draft_prefill Samples.kernel Samples.reduce
        (Samples.attention (Some Samples.draft_cache)) Samples.hidden
        Samples.absolute_freqs Samples.local_freqs [15] true = Ok (y, att)
      /\ SelfSpec.kv_cache att = Some c'
      /\ SelfSpec.draft_k_cache c' =
           [replicate 16 [[0; 0]%Q] ++ [[[110; 39]%Q]; [[0; 0]%Q]]]
      /\ SelfSpec.draft_v_cache c' =
           [replicate 16 [[0; 0]%Q] ++ [[[7; 3]%Q]; [[0; 0]%Q]]].
Proof.
  assert (batch_of 1 Samples.hidden) as Hx by (by repeat constructor).
  split; [reflexivity|]. split; [exact sample_draft_cache_wf|]. split; [exact Hx|].
  split; [lia|].
  destruct (proj1 (draft_prefill_local_rotation Samples.kernel Samples.reduce
                     (Samples.attention (Some Samples.draft_cache)) Samples.draft_cache
                     Samples.hidden Samples.absolute_freqs Samples.local_freqs 15 []
                     true 1 18 eq_refl sample_draft_cache_wf Hx ltac:(lia)))
    as (k_ret & v_ret & c1 & Hrun & Hall).
  vm_compute in Hrun. injection Hrun as <- <- <-.
  edestruct Hall as [_ Hres]; [vm_compute; reflexivity | vm_compute; reflexivity |].
  eexists _, _, _. split; [exact Hres|].
  split; [reflexivity|]. split; vm_compute; reflexivity.
Defined.

(** * Further properties of the code *)

(** ** More on the streaming append *)

Section StreamingMore.
Context {E : Type}.
Implicit Types self : SelfSpec.KVCache E.
Implicit Types r x : list E.
Import SelfSpec.

Lemma write_at_beyond (s n : nat) x r :
  (s + length x <= n)%nat -> (n <= length r)%nat -> drop n (write_at s x r) = drop n r.
Proof.
  intros Hs Hn. unfold write_at.
  rewrite drop_app_ge by (rewrite length_take; lia).
  rewrite length_take, drop_app_ge by lia.
  rewrite drop_drop. f_equal. lia.
Qed.

Lemma write_at_nil (s : nat) r : write_at s [] r = r.
Proof. unfold write_at. simpl. rewrite Nat.add_0_r. apply take_drop. Qed.

Lemma window_nil (n : nat) r : window n [] r = take (n - 16) (drop 16 r).
Proof. unfold window. simpl. by rewrite app_nil_r. Qed.

Lemma shifted_nil (n : nat) r : (16 <= n <= length r)%nat -> shifted n [] r = r.
Proof.
  intros Hn. unfold shifted. rewrite window_nil. unfold write_at.
  rewrite length_take, length_drop.
  replace (16 + (n - 16) `min` (length r - 16))%nat with (16 + (n - 16))%nat by lia.
  rewrite <- drop_drop, take_drop. apply take_drop.
Qed.

Lemma length_shifted (n : nat) x r :
  (16 <= n <= length r)%nat -> length (shifted n x r) = length r.
Proof.
  intros Hn. unfold shifted. rewrite length_write_at; rewrite ?length_window; lia.
Qed.

Lemma shifted_parts (n : nat) x r :
  (16 <= n <= length r)%nat ->
  shifted n x r = take 16 r ++ window n x r ++ drop n r.
Proof.
  intros Hn. unfold shifted, write_at. rewrite length_window by lia.
  do 3 f_equal. lia.
Qed.

Lemma window_window (n : nat) (a b : list E) r :
  (16 <= n <= length r)%nat ->
  window n b (shifted n a r) = window n (a ++ b) r.
Proof.
  intros Hn. unfold window at 1. rewrite shifted_region by lia.
  unfold window. rewrite length_app, <- drop_drop, app_assoc.
  f_equal. symmetry. apply drop_app_le.
  rewrite length_app, length_take, length_drop. lia.
Qed.

Lemma shifted_shifted (n : nat) (a b : list E) r :
  (16 <= n <= length r)%nat ->
  shifted n b (shifted n a r) = shifted n (a ++ b) r.
Proof.
  intros Hn.
  rewrite (shifted_parts n b) by (rewrite length_shifted; lia).
  rewrite shifted_sink, shifted_beyond, window_window by lia.
  by rewrite <- shifted_parts.
Qed.

End StreamingMore.

Section StreamingMoreTheorems.
Context {E : Type}.
Implicit Types self : SelfSpec.KVCache E.
Implicit Types t u v : tensor E.
Import SelfSpec.

Lemma zip_with_shifted_shifted (n cap : nat) t u v :
  rows_of cap t -> (16 <= n <= cap)%nat ->
  zip_with (fun r x => shifted n x r) (zip_with (fun r x => shifted n x r) t u) v =
  zip_with (fun r x => shifted n x r) t (zip_with app u v).
Proof.
  intros Ht Hn. revert u v.
  induction Ht as [|r t Hr Ht IH]; intros [|a u] [|b v]; simpl; try done.
  rewrite IH. f_equal. apply shifted_shifted. lia.
Qed.

Lemma rows_of_zip_app (m p : nat) u v :
  rows_of m u -> rows_of p v -> rows_of (m + p) (zip_with app u v).
Proof.
  intros Hu. revert v. induction Hu as [|a u Ha Hu IH]; intros [|b v] Hv; simpl;
    try (by constructor).
  inversion Hv; subst. constructor; [|by apply IH].
  rewrite length_app. lia.
Qed.

Lemma batch_of_zip_app (B : nat) u v :
  batch_of B u -> batch_of B v ->
  batch_of B (zip_with app u v)
  /\ (shape1 u <= shape1 (zip_with app u v))%nat.
Proof.
  intros [Hu Hur] [Hv Hvr]. split.
  - split; [rewrite length_zip_with; lia|].
    by apply (rows_of_shape1 _ _ (rows_of_zip_app _ _ u v Hur Hvr)).
  - destruct u as [|a u], v as [|b v]; simpl in *; try lia.
    rewrite length_app. lia.
Qed.

Lemma zip_with_rows_nil (f : list E -> list E -> list E) t v :
  rows_of 0 v -> length v = length t ->
  (forall r, r ∈ t -> f r [] = r) -> zip_with f t v = t.
Proof.
  intros Hv. revert t. induction Hv as [|x v Hx Hv IH]; intros [|r t] Hlen Hf;
    simplify_eq/=; [done|].
  apply nil_length_inv in Hx. subst x.
  rewrite Hf by (rewrite elem_of_cons; auto).
  f_equal. apply IH; [done|]. intros r' Hr'. apply Hf. rewrite elem_of_cons; auto.
Qed.

Lemma set_draft_same self : set_draft self (draft_k_cache self) (draft_v_cache self) = self.
Proof. by destruct self. Qed.

(** X1.  The window that a call returns has [min (cache_len + new_len) budget]
    positions for every sequence of the batch, keys and values alike. *)
Theorem prefill_returned_length self (c : Z) cl (k_val v_val : tensor E) (B cap : nat) :
  cache_wf self B cap ->
  batch_of B k_val -> batch_of B v_val -> shape1 v_val = shape1 k_val -> 0 <= c ->
  let m := Z.to_nat (Z.min (c + Z.of_nat (shape1 k_val)) (streaming_budget self)) in
  exists k_ret v_ret self',
    prefill self (c :: cl) k_val v_val = Ok ((k_ret, v_ret), self')
    /\ length k_ret = B /\ rows_of m k_ret
    /\ length v_ret = B /\ rows_of m v_ret.
Proof.
  intros Hwf [Hk Hkr] [Hv Hvr] HL Hc m. rewrite HL in Hvr.
  pose proof Hwf as [Hkb Hvb Hkrows Hvrows Hsb].
  destruct (Z.le_gt_cases (c + Z.of_nat (shape1 k_val)) (streaming_budget self))
    as [Hfit|Hover].
  - eexists _, _, _. split; [by apply (prefill_fits self c cl k_val v_val B cap)|].
    rewrite !length_map, !length_zip_with.
    replace m with (Z.to_nat c + shape1 k_val)%nat by lia.
    split; [lia|]. split.
    { apply rows_of_map_take with cap; [|lia].
      apply rows_of_write with (shape1 k_val); (done || lia). }
    split; [lia|].
    apply rows_of_map_take with cap; [|lia].
    apply rows_of_write with (shape1 k_val); (done || lia).
  - eexists _, _, _.
    split; [apply (prefill_overflow self c cl k_val v_val B cap); (done || lia)|].
    rewrite !length_map, !length_zip_with.
    replace m with (Z.to_nat (streaming_budget self)) by lia.
    split; [lia|]. split.
    { apply rows_of_map_take with cap; [|lia]. apply rows_of_shifted; (done || lia). }
    split; [lia|].
    apply rows_of_map_take with cap; [|lia]. apply rows_of_shifted; (done || lia).
Qed.

(** X2.  A call never writes at or beyond the streaming budget: the slots
    [budget, cap) of the draft caches (the buffer) are as before, and so are
    the target caches and the budget itself. *)
Theorem prefill_keeps_buffer self (c : Z) cl (k_val v_val : tensor E) (B cap : nat) :
  cache_wf self B cap ->
  batch_of B k_val -> batch_of B v_val -> shape1 v_val = shape1 k_val -> 0 <= c ->
  let n := Z.to_nat (streaming_budget self) in
  exists ret self',
    prefill self (c :: cl) k_val v_val = Ok (ret, self')
    /\ map (drop n) (draft_k_cache self') = map (drop n) (draft_k_cache self)
    /\ map (drop n) (draft_v_cache self') = map (drop n) (draft_v_cache self)
    /\ k_cache self' = k_cache self /\ v_cache self' = v_cache self
    /\ streaming_budget self' = streaming_budget self.
Proof.
  intros Hwf [Hk Hkr] [Hv Hvr] HL Hc n. rewrite HL in Hvr.
  pose proof Hwf as [Hkb Hvb Hkrows Hvrows Hsb].
  destruct (Z.le_gt_cases (c + Z.of_nat (shape1 k_val)) (streaming_budget self))
    as [Hfit|Hover].
  - eexists _, _. split; [by apply (prefill_fits self c cl k_val v_val B cap)|].
    simpl. split; [|split; [|done]].
    + rewrite (map_zip_with_rows _ _ (fun r _ => drop n r) _ _ cap (shape1 k_val));
        [apply zip_with_fst; lia|done|done|lia|].
      intros r x Hr Hx. apply write_at_beyond; lia.
    + rewrite (map_zip_with_rows _ _ (fun r _ => drop n r) _ _ cap (shape1 k_val));
        [apply zip_with_fst; lia|done|done|lia|].
      intros r x Hr Hx. apply write_at_beyond; lia.
  - eexists _, _.
    split; [apply (prefill_overflow self c cl k_val v_val B cap); (done || lia)|].
    simpl. split; [|split; [|done]].
    + rewrite (map_zip_with_rows _ _ (fun r _ => drop n r) _ _ cap (shape1 k_val));
        [apply zip_with_fst; lia|done|done|lia|].
      intros r x Hr Hx. apply shifted_beyond; lia.
    + rewrite (map_zip_with_rows _ _ (fun r _ => drop n r) _ _ cap (shape1 k_val));
        [apply zip_with_fst; lia|done|done|lia|].
      intros r x Hr Hx. apply shifted_beyond; lia.
Qed.

(** X3.  Past the budget the cursor is not used: two calls that both overflow
    give the same result whatever their cursors. *)
Theorem prefill_overflow_ignores_cursor self (c c' : Z) cl cl' (k_val v_val : tensor E)
    (B cap : nat) :
  cache_wf self B cap ->
  batch_of B k_val -> batch_of B v_val -> shape1 v_val = shape1 k_val ->
  streaming_budget self < c + Z.of_nat (shape1 k_val) ->
  streaming_budget self < c' + Z.of_nat (shape1 k_val) ->
  prefill self (c :: cl) k_val v_val = prefill self (c' :: cl') k_val v_val.
Proof.
  intros Hwf [Hk Hkr] [Hv Hvr] HL Hc Hc'. rewrite HL in Hvr.
  rewrite (prefill_overflow self c cl k_val v_val B cap) by done.
  by rewrite (prefill_overflow self c' cl' k_val v_val B cap) by done.
Qed.

(** X4.  Appending nothing changes nothing: with no new position the cache is
    left as it is, and the call returns the first [min cache_len budget]
    positions of it. *)
Theorem prefill_empty self (c : Z) cl (k_val v_val : tensor E) (B cap : nat) :
  cache_wf self B cap ->
  length k_val = B -> rows_of 0 k_val -> length v_val = B -> rows_of 0 v_val ->
  0 <= c ->
  let m := Z.to_nat (Z.min c (streaming_budget self)) in
  prefill self (c :: cl) k_val v_val =
    Ok ((map (take m) (draft_k_cache self), map (take m) (draft_v_cache self)), self).
Proof.
  intros Hwf Hk Hkr Hv Hvr Hc m.
  pose proof Hwf as [Hkb Hvb Hkrows Hvrows Hsb].
  assert (shape1 k_val = 0%nat) as HL.
  { destruct k_val; [done|]. by inversion Hkr. }
  assert (forall t : tensor E, rows_of cap t -> forall r, r ∈ t -> length r = cap) as Hrow.
  { intros t Ht r Hr. unfold rows_of in Ht. rewrite Forall_forall in Ht. by apply Ht. }
  destruct (Z.le_gt_cases (c + Z.of_nat (shape1 k_val)) (streaming_budget self))
    as [Hfit|Hover].
  - rewrite (prefill_fits self c cl k_val v_val B cap) by (rewrite ?HL; first [done|lia]).
    rewrite HL, Nat.add_0_r.
    rewrite !(zip_with_rows_nil (fun r x => write_at (Z.to_nat c) x r))
      by (done || lia || (intros; apply write_at_nil)).
    replace m with (Z.to_nat c) by lia. by rewrite set_draft_same.
  - rewrite (prefill_overflow self c cl k_val v_val B cap) by (rewrite ?HL; first [done|lia]).
    rewrite (zip_with_rows_nil (fun r x => shifted _ x r) (draft_k_cache self))
      by (done || lia || (intros r Hr; apply shifted_nil; rewrite (Hrow _ Hkrows r Hr); lia)).
    rewrite (zip_with_rows_nil (fun r x => shifted _ x r) (draft_v_cache self))
      by (done || lia || (intros r Hr; apply shifted_nil; rewrite (Hrow _ Hvrows r Hr); lia)).
    replace m with (Z.to_nat (streaming_budget self)) by lia. by rewrite set_draft_same.
Qed.

(** X5.  Past the budget, chunking does not matter: two overflowing calls one
    after the other leave the cache, and return from the second call, what
    one call with the two chunks concatenated leaves and returns. *)
Theorem prefill_overflow_compose self (c1 c2 : Z) cl1 cl2
    (ka va kb vb : tensor E) (B cap : nat) :
  cache_wf self B cap ->
  batch_of B ka -> batch_of B va -> shape1 va = shape1 ka ->
  batch_of B kb -> batch_of B vb -> shape1 vb = shape1 kb ->
  streaming_budget self < c1 + Z.of_nat (shape1 ka) ->
  streaming_budget self < c2 + Z.of_nat (shape1 kb) ->
  exists r1 self1 r2 self2,
    prefill self (c1 :: cl1) ka va = Ok (r1, self1)
    /\ prefill self1 (c2 :: cl2) kb vb = Ok (r2, self2)
    /\ prefill self (c1 :: cl1) (zip_with app ka kb) (zip_with app va vb) = Ok (r2, self2).
Proof.
  intros Hwf Hka Hva HLa Hkb Hvb HLb Hc1 Hc2.
  pose proof Hwf as [Hkbat Hvbat Hkrows Hvrows Hsb].
  set (n := Z.to_nat (streaming_budget self)).
  pose proof (prefill_overflow self c1 cl1 ka va B cap Hwf (proj1 Hka) (proj2 Hka)
                (proj1 Hva) ltac:(rewrite <- HLa; exact (proj2 Hva)) Hc1) as H1.
  simpl in H1. fold n in H1.
  set (K1 := zip_with (fun r x => shifted n x r) (draft_k_cache self) ka) in *.
  set (V1 := zip_with (fun r x => shifted n x r) (draft_v_cache self) va) in *.
  assert (cache_wf (set_draft self K1 V1) B cap) as Hwf1.
  { constructor; simpl; subst K1 V1; rewrite ?length_zip_with;
      try (apply rows_of_shifted; (done || lia)); try lia.
    - destruct Hka. lia.
    - destruct Hva. lia. }
  pose proof (prefill_overflow (set_draft self K1 V1) c2 cl2 kb vb B cap Hwf1 (proj1 Hkb)
                (proj2 Hkb) (proj1 Hvb) ltac:(rewrite <- HLb; exact (proj2 Hvb)) Hc2) as H2.
  simpl in H2. fold n in H2.
  destruct (batch_of_zip_app B ka kb Hka Hkb) as (Hkab & Hle).
  destruct (batch_of_zip_app B va vb Hva Hvb) as (Hvab & _).
  assert (shape1 (zip_with app va vb) = shape1 (zip_with app ka kb)) as HLab.
  { destruct ka as [|a ka], kb as [|b kb], va as [|a' va], vb as [|b' vb];
      simpl in *; try done; try (destruct Hka, Hva, Hkb, Hvb; simpl in *; lia).
    rewrite !length_app. lia. }
  pose proof (prefill_overflow self c1 cl1 (zip_with app ka kb) (zip_with app va vb) B cap
                Hwf (proj1 Hkab) (proj2 Hkab) (proj1 Hvab)
                ltac:(rewrite <- HLab; exact (proj2 Hvab)) ltac:(lia)) as H3.
  simpl in H3. fold n in H3.
  eexists _, _, _, _. split; [exact H1|]. split; [exact H2|].
  rewrite H3. subst K1 V1.
  rewrite !(zip_with_shifted_shifted n cap) by (done || lia).
  done.
Qed.

End StreamingMoreTheorems.

(** ** More on the configuration *)

Lemma find_multiple_bounds (n k : Z) :
  0 < k -> find_multiple n k mod k = 0 /\ n <= find_multiple n k < n + k.
Proof.
  intros Hk. unfold find_multiple.
  pose proof (Z.mod_pos_bound n k Hk) as Hb.
  pose proof (Z.div_mod n k ltac:(lia)) as Hdm.
  destruct (Z.eqb_spec (n mod k) 0) as [Hz|Hnz]; [split; [done|lia]|].
  split; [|lia].
  replace (n + k - n mod k) with ((n / k + 1) * k) by lia.
  apply Z.mod_mul. lia.
Qed.

(** X6.  [find_multiple n k], for a positive [k], is the least multiple of [k]
    that is at least [n]. *)
Theorem find_multiple_least (n k : Z) :
  0 < k ->
  find_multiple n k mod k = 0
  /\ n <= find_multiple n k < n + k
  /\ forall m, m mod k = 0 -> n <= m -> find_multiple n k <= m.
Proof.
  intros Hk. destruct (find_multiple_bounds n k Hk) as [Hmod Hrange].
  split; [done|]. split; [done|].
  intros m Hm Hle. apply Z.mod_divide in Hm; [|lia]. destruct Hm as [q ->].
  apply Z.mod_divide in Hmod; [|lia]. destruct Hmod as [p Hp].
  rewrite Hp in *.
  assert (p * k < (q + 1) * k) as Hlt by lia.
  apply Z.mul_lt_mono_pos_r in Hlt; [|done].
  apply Z.mul_le_mono_nonneg_r; lia.
Qed.

(** Rounding a third to [s >= 1] binary places and truncating gives the
    integer quotient. *)
Lemma round_third (a s : Z) :
  0 <= a -> 1 <= s ->
  let num := a * 2 ^ s in
  let q := num / 3 in
  let r := num mod 3 in
  (if (3 <? 2 * r) || ((2 * r =? 3) && Z.odd q) then q + 1 else q) / 2 ^ s = a / 3.
Proof.
  intros Ha Hs num q r.
  assert (2 <= 2 ^ s) as HP.
  { change 2 with (2 ^ 1) at 1. apply Z.pow_le_mono_r; lia. }
  pose proof (Z.div_mod num 3 ltac:(lia)) as Hnum.
  pose proof (Z.mod_pos_bound num 3 ltac:(lia)) as Hr.
  pose proof (Z.div_mod a 3 ltac:(lia)) as Ha3.
  pose proof (Z.mod_pos_bound a 3 ltac:(lia)) as Hr3.
  fold q r in Hnum, Hr.
  set (m := if (3 <? 2 * r) || ((2 * r =? 3) && Z.odd q) then q + 1 else q).
  assert (q <= m /\ 3 * m <= num + 1) as [Hlow Hup].
  { subst m. clearbody q r num.
    destruct (Z.ltb_spec 3 (2 * r)); cbn [orb andb]; [lia|].
    destruct (Z.eqb_spec (2 * r) 3); cbn [orb andb]; lia. }
  clearbody m. subst q r. unfold num in *.
  set (P := 2 ^ s) in *. set (q0 := a / 3) in *. set (r0 := a mod 3) in *.
  clearbody P q0 r0.
  symmetry. apply Z.div_unique with (m - q0 * P); [|lia].
  left. split; [|nia].
  assert (q0 * P <= a * P / 3); [|lia].
  apply Z.div_le_lower_bound; nia.
Qed.

Lemma int_truediv_trunc_third (x : Z) :
  Z.abs x < 2 ^ 53 -> int_truediv_trunc x 3 = Ok (Z.quot x 3).
Proof.
  intros Hx. unfold int_truediv_trunc.
  change (3 =? 0) with false. cbv iota.
  destruct (Z.eqb_spec x 0) as [->|Hx0]; [done|].
  set (a := Z.abs x). assert (0 < a) as Ha by lia.
  unfold round_div. cbv zeta. cbn [fst snd].
  change (Z.abs 3) with 3. change (Z.log2 3) with 1. fold a.
  assert (Z.log2 a < 53) as Hlog by (by apply Z.log2_lt_pow2).
  set (e0 := Z.log2 a - 1).
  set (e := if (if 0 <=? e0 then 3 * 2 ^ e0 <=? a else 3 <=? a * 2 ^ (- e0))
            then e0 else e0 - 1).
  assert (e <= 51) as He by (subst e e0; destruct (if _ <=? _ then _ else _); lia).
  set (s := 52 - e). assert (1 <= s) as Hs by lia.
  destruct (Z.leb_spec 0 s) as [_|]; [|lia].
  destruct (Z.leb_spec 0 (- s)) as [|_]; [lia|]. cbn [andb].
  rewrite Z.opp_involutive, (round_third a s) by lia.
  f_equal. change (Z.sgn 3) with 1. rewrite Z.mul_1_r.
  rewrite <- (Z.quot_div_nonneg a 3) by lia. subst a.
  rewrite Z.quot_abs_l by lia. generalize (x ÷ 3). intros z.
  destruct (Z.sgn_spec x) as [[? ->]|[[? ->]|[? ->]]]; lia.
Qed.

Section ConfigMore.
Context {F : Type} `{Scalar F}.
Implicit Types a cfg : ModelArgs F.

Lemma post_init_Ok a cfg :
  post_init a = Ok cfg ->
  n_head a <> 0
  /\ exists isz,
       match intermediate_size a with
       | Some v => isz = v
       | None => exists n, int_truediv_trunc (2 * (4 * dim a)) 3 = Ok n
                           /\ isz = find_multiple n 256
       end
       /\ cfg = mkModelArgs (block_size a) (vocab_size a) (n_layer a) (n_head a) (dim a)
                  (Some isz)
                  (if n_local_heads a =? -1 then n_head a else n_local_heads a)
                  (dim a / n_head a) (rope_base a) (norm_eps a) (scaling_factor a)
                  (low_freq_factor a) (high_freq_factor a)
                  (original_max_position_embeddings a).
Proof.
  unfold post_init, int_floordiv.
  destruct (intermediate_size a) as [v|]; simpl.
  - destruct (Z.eqb_spec (n_head a) 0) as [|Hnz]; simpl; [done|].
    intros [= <-]. split; [done|]. by exists v.
  - destruct (int_truediv_trunc (2 * (4 * dim a)) 3) as [n|]; simpl; [|done].
    destruct (Z.eqb_spec (n_head a) 0) as [|Hnz]; simpl; [done|].
    intros [= <-]. split; [done|]. eexists. split; [by exists n|done].
Qed.

(** X7.  Running [__post_init__] again on a configuration that it has built
    leaves the configuration as it is. *)
Theorem post_init_idempotent a cfg :
  post_init a = Ok cfg -> post_init cfg = Ok cfg.
Proof.
  intros Hrun. apply post_init_Ok in Hrun as (Hnz & isz & _ & ->).
  unfold post_init, int_floordiv. simpl.
  destruct (Z.eqb_spec (n_head a) 0) as [|_]; [done|]. simpl.
  f_equal. f_equal.
  destruct (Z.eqb_spec (n_local_heads a) (-1)) as [Hl|Hl].
  - by destruct (Z.eqb_spec (n_head a) (-1)).
  - by destruct (Z.eqb_spec (n_local_heads a) (-1)).
Qed.

(** X8.  The feed-forward width of a built configuration: the given one, or,
    when none is given, the least multiple of 256 not below [n], where [n] is
    what [int(8 * dim / 3)] gives: the truncation of the double nearest to
    the quotient, which is the truncated quotient itself as long as [dim] is
    below [2^50] in absolute value.  The key/value head count is [n_head]
    when left at [-1]. *)
Theorem post_init_defaults a cfg :
  post_init a = Ok cfg ->
  (forall v, intermediate_size a = Some v -> intermediate_size cfg = Some v)
  /\ (intermediate_size a = None ->
      exists n m,
        int_truediv_trunc (2 * (4 * dim a)) 3 = Ok n
        /\ intermediate_size cfg = Some m
        /\ m mod 256 = 0 /\ n <= m < n + 256
        /\ (Z.abs (dim a) < 2 ^ 50 -> n = Z.quot (8 * dim a) 3))
  /\ (n_local_heads a = -1 -> n_local_heads cfg = n_head a)
  /\ (n_local_heads a <> -1 -> n_local_heads cfg = n_local_heads a).
Proof.
  intros Hrun. apply post_init_Ok in Hrun as (Hnz & isz & Hisz & ->). simpl.
  split; [|split; [|split]].
  - intros v Hv. rewrite Hv in Hisz. by subst isz.
  - intros Hnone. rewrite Hnone in Hisz. destruct Hisz as (n & Hn & ->).
    exists n, (find_multiple n 256). split; [done|]. split; [done|].
    destruct (find_multiple_bounds n 256 ltac:(lia)) as (? & ?).
    split; [done|]. split; [done|].
    intros Hdim. rewrite int_truediv_trunc_third in Hn by lia.
    injection Hn as <-. f_equal. lia.
  - by intros ->.
  - intros Hne. by destruct (Z.eqb_spec (n_local_heads a) (-1)).
Qed.

(** X9.  A name that is not a key resolves, when it resolves, to the
    configuration of a key that occurs in it, and that key is strictly longer
    than every other key that occurs in it. *)
Theorem from_name_fuzzy_sound (table : list (string * list (Kwarg F)))
    (name : string) cfg :
  table_get name table = None ->
  from_name_in table name = Ok cfg ->
  exists k kwargs,
    k ∈ fuzzy_matches table name
    /\ contains (lower k) (lower name) = true
    /\ table_get k table = Some kwargs
    /\ ModelArgs_new kwargs = Ok cfg
    /\ forall k', k' ∈ fuzzy_matches table name -> k' <> k ->
                  (String.length k' < String.length k)%nat.
Proof.
  intros Hnone. rewrite (from_name_in_fuzzy table name Hnone).
  assert (forall k, k ∈ fuzzy_matches table name -> contains (lower k) (lower name) = true)
    as Hcontains.
  { intros k. unfold fuzzy_matches. rewrite list_elem_of_filter. tauto. }
  pose proof (sort_by_len_desc_perm (fuzzy_matches table name)) as Hperm.
  pose proof (sort_by_len_desc_sorted (fuzzy_matches table name)) as Hsorted.
  destruct (fuzzy_matches table name) as [|m [|m' ms]] eqn:Hms; [done| |].
  - destruct (table_get m table) as [kwargs|] eqn:Hget; [|done].
    intros Hnew. exists m, kwargs.
    assert (m ∈ [m]) as Hin by (rewrite elem_of_cons; auto).
    split; [done|]. split; [by apply Hcontains|]. split; [done|]. split; [done|].
    intros k' Hk' Hne. apply list_elem_of_singleton in Hk'. done.
  - destruct (sort_by_len_desc (m :: m' :: ms)) as [|c0 [|c1 rest]] eqn:Hsort; [done..|].
    destruct (Nat.eqb_spec (String.length c0) (String.length c1)) as [|Hne]; [done|].
    destruct (table_get c0 table) as [kwargs|] eqn:Hget; [|done].
    intros Hnew. exists c0, kwargs.
    assert (c0 ∈ m :: m' :: ms) as Hin by (rewrite <- Hperm, elem_of_cons; auto).
    split; [done|]. split; [by apply Hcontains|]. split; [done|]. split; [done|].
    intros k' Hk' Hk'ne. rewrite <- Hperm in Hk'.
    apply elem_of_cons in Hk' as [?|Hk']; [done|].
    assert (String.length c1 <= String.length c0)%nat as Hle0.
    { apply (sorted_head_longest c0 (c1 :: rest) c1 Hsorted). rewrite !elem_of_cons; auto. }
    assert (String.length k' <= String.length c1)%nat as Hle1.
    { apply (sorted_head_longest c1 rest k'); [|done].
      by apply StronglySorted_inv in Hsorted as [? _]. }
    lia.
Qed.

(** X10.  Every configuration of the table is built without error, passes the
    assertion of [Attention] that [n_head] divides [dim], has query heads
    grouped evenly over its key/value heads, and has its three long-context
    fields all present or all absent. *)
Theorem transformer_configs_sound (name : string) (kwargs : list (Kwarg F)) :
  table_get name transformer_configs = Some kwargs ->
  exists cfg,
    from_name name = Ok cfg
    /\ dim cfg mod n_head cfg = 0
    /\ head_dim cfg * n_head cfg = dim cfg
    /\ 0 < n_local_heads cfg /\ n_head cfg mod n_local_heads cfg = 0
    /\ (is_Some (low_freq_factor cfg) <-> is_Some (high_freq_factor cfg))
    /\ (is_Some (low_freq_factor cfg) <->
        is_Some (original_max_position_embeddings cfg)).
Proof.
  intros Hget. unfold from_name, from_name_in. rewrite Hget.
  unfold transformer_configs in Hget. simpl in Hget.
  repeat match type of Hget with
         | (if String.eqb ?a ?b then _ else _) = _ =>
             destruct (String.eqb a b);
             [injection Hget as <-; eexists; split; [reflexivity|];
              simpl; repeat split; try done; try lia;
              try (intros [? ?]; done); try (by eexists)|]
         end.
  done.
Qed.

End ConfigMore.

(** ** More on the frequency table and on cache setup *)

Section TableMore.
Context {F : Type} `{Scalar F}.

Lemma result_mapM_lookup {A B} (f : A -> result B) (l : list A) (l' : list B) :
  mapM f l = Ok l' ->
  length l' = length l
  /\ forall (i : nat) x, l !! i = Some x -> exists y, f x = Ok y /\ l' !! i = Some y.
Proof.
  revert l'. induction l as [|x0 l IH]; intros l' Hrun; simpl in Hrun.
  - injection Hrun as <-. split; [done|]. by intros i x Hi.
  - destruct (f x0) as [y0|] eqn:Hx0; simpl in Hrun; [|done].
    destruct (mapM f l) as [l''|] eqn:Hl; simpl in Hrun; [|done].
    injection Hrun as <-. destruct (IH l'' eq_refl) as [Hlen Hlook].
    split; [simpl; by rewrite Hlen|].
    intros [|i] x Hi; simpl in *.
    + injection Hi as <-. by exists y0.
    + by apply Hlook.
Qed.

Lemma llama3_loop_length old s low high lw hw (inv_freq out : list F) :
  llama3_loop old s low high lw hw inv_freq = Ok out -> length out = length inv_freq.
Proof.
  revert out. induction inv_freq as [|f rest IH]; intros out Hrun; simpl in Hrun.
  - by injection Hrun as <-.
  - destruct (llama3_freq old s low high lw hw f); simpl in Hrun; [|done].
    destruct (llama3_loop old s low high lw hw rest) as [out'|]; simpl in Hrun; [|done].
    injection Hrun as <-. simpl. by rewrite (IH out').
Qed.

Lemma precompute_rows (seq_len n_elem : Z) (base : F) (dtype : DType)
    (scaling_factor : F) (low high original : option Z) (table : list (freq_row F)) :
  precompute_freqs_cis seq_len n_elem base dtype scaling_factor low high original
    = Ok table ->
  0 <= seq_len /\ length table = Z.to_nat seq_len.
Proof.
  unfold precompute_freqs_cis, arange. intros Hrun.
  destruct (base_freqs n_elem base) as [freqs0|]; simpl in Hrun; [|done].
  destruct low as [l|], high as [h|]; simpl in Hrun;
    try (destruct (_compute_llama3_parameters freqs0 original scaling_factor l h);
         simpl in Hrun; [|done]);
    (destruct (Z.ltb_spec seq_len 0); simpl in Hrun; [done|]);
    injection Hrun as <-; (split; [lia|by rewrite !length_map, length_seq]).
Qed.

Lemma KVCache_new_draft_wf (max_batch_size max_seq_length n_heads head_dim : Z)
    (dtype : DType) (streaming_budget buffer : Z) (c : SelfSpec.KVCache (entry F)) :
  SelfSpec.KVCache_new max_batch_size max_seq_length n_heads head_dim dtype
    streaming_budget buffer = Ok c ->
  16 < streaming_budget -> 0 <= buffer ->
  SelfSpec.cache_wf c (Z.to_nat max_batch_size) (Z.to_nat (streaming_budget + buffer)).
Proof.
  unfold SelfSpec.KVCache_new, zeros_dim. intros Hrun Hsb Hbuf.
  repeat match type of Hrun with
  | context [?n <? 0] => destruct (Z.ltb_spec n 0); simpl in Hrun; [done|]
  end.
  injection Hrun as <-.
  constructor; simpl; rewrite ?length_replicate; try done; try lia;
    apply Forall_forall; intros r Hr;
    apply elem_of_replicate in Hr as [-> _]; apply length_replicate.
Qed.

(** X11.  A table that is built has one row for each of the [seq_len] positions
    and [n_elem // 2] pairs in every row; it is not built for a negative
    [seq_len] or a negative [n_elem // 2]. *)
Theorem precompute_freqs_cis_shape (seq_len n_elem : Z) (base : F) (dtype : DType)
    (scaling_factor : F) (low high original : option Z) (table : list (freq_row F)) :
  precompute_freqs_cis seq_len n_elem base dtype scaling_factor low high original
    = Ok table ->
  0 <= seq_len /\ 0 <= n_elem / 2
  /\ length table = Z.to_nat seq_len
  /\ Forall (fun row => length row = Z.to_nat (n_elem / 2)) table.
Proof.
  unfold precompute_freqs_cis, base_freqs, arange. intros Hrun.
  destruct (Z.ltb_spec (n_elem / 2) 0); simpl in Hrun; [done|].
  set (freqs0 := map _ (map Z.of_nat (seq 0 (Z.to_nat (n_elem / 2))))) in Hrun.
  assert (length freqs0 = Z.to_nat (n_elem / 2)) as Hlen0.
  { subst freqs0. by rewrite !length_map, length_seq. }
  assert (exists freqs, length freqs = Z.to_nat (n_elem / 2) /\
            (t ← (if seq_len <? 0 then Raise RuntimeError
                  else Ok (map Z.of_nat (seq 0 (Z.to_nat seq_len))));
             Ok (map (fun p => map (fun f =>
                    let c := polar (f_of_Z 1) (f_mul (f_of_Z p) f) in
                    (f_cast dtype c.1, f_cast dtype c.2)) freqs) t)) = Ok table)
    as (freqs & Hlen & Hrest).
  { destruct low as [l|], high as [h|]; simpl in Hrun;
      try (eexists; split; [|exact Hrun]; by rewrite length_map).
    destruct (_compute_llama3_parameters freqs0 original scaling_factor l h)
      as [freqs|] eqn:Hll; simpl in Hrun; [|done].
    exists freqs. split; [|done].
    unfold _compute_llama3_parameters in Hll.
    destruct original as [old|]; [|done].
    destruct (int_truediv old l); simpl in Hll; [|done].
    destruct (int_truediv old h); simpl in Hll; [|done].
    by rewrite (llama3_loop_length _ _ _ _ _ _ _ _ Hll). }
  destruct (Z.ltb_spec seq_len 0); simpl in Hrest; [done|].
  injection Hrest as <-.
  split; [lia|]. split; [lia|]. split; [by rewrite !length_map, length_seq|].
  apply Forall_forall. intros row Hrow.
  apply list_elem_of_fmap in Hrow as (p & -> & _). by rewrite length_map.
Qed.

(** X12.  The draft cache that [KVCache.__init__] builds, with a budget above the
    16 sink slots and a buffer that is not negative, is well shaped for the
    streaming append: one row of [streaming_budget + buffer] slots for each
    of the [max_batch_size] sequences; the target cache has
    [max_seq_length] slots for each. *)
Theorem KVCache_new_wf (max_batch_size max_seq_length n_heads head_dim : Z) (dtype : DType)
    (streaming_budget buffer : Z) (c : SelfSpec.KVCache (entry F)) :
  SelfSpec.KVCache_new max_batch_size max_seq_length n_heads head_dim dtype
    streaming_budget buffer = Ok c ->
  16 < streaming_budget -> 0 <= buffer ->
  SelfSpec.cache_wf c (Z.to_nat max_batch_size) (Z.to_nat (streaming_budget + buffer))
  /\ SelfSpec.streaming_budget c = streaming_budget
  /\ length (SelfSpec.k_cache c) = Z.to_nat max_batch_size
  /\ rows_of (Z.to_nat max_seq_length) (SelfSpec.k_cache c)
  /\ SelfSpec.v_cache c = SelfSpec.k_cache c.
Proof.
  intros Hrun Hsb Hbuf.
  split; [by apply (KVCache_new_draft_wf _ max_seq_length n_heads head_dim dtype)|].
  unfold SelfSpec.KVCache_new, zeros_dim in Hrun.
  repeat match type of Hrun with
  | context [?n <? 0] => destruct (Z.ltb_spec n 0); simpl in Hrun; [done|]
  end.
  injection Hrun as <-. simpl. rewrite length_replicate.
  repeat split.
  apply Forall_forall. intros r Hr.
  apply elem_of_replicate in Hr as [-> _]. apply length_replicate.
Qed.

End TableMore.

Section DraftSetupMore.
Context {F : Type} `{Scalar F} {X : Type}.
Implicit Types self : SelfSpec.Transformer (F:=F) (X:=X).
Import SelfSpec.

Lemma index_rows_bound {A} (table : list A) (s n : nat) rows :
  mapM (py_index table) (map Z.of_nat (seq s n)) = Ok rows ->
  n = 0%nat \/ (s + n <= length table)%nat.
Proof.
  revert s rows. induction n as [|n IH]; intros s rows Hrun; [by left|right].
  simpl in Hrun. rewrite py_index_nat in Hrun.
  destruct (table !! s) as [x|] eqn:Hx; simpl in Hrun; [|done].
  apply lookup_lt_Some in Hx.
  destruct (mapM (py_index table) (map Z.of_nat (seq (S s) n))) as [rows'|] eqn:Hrest;
    simpl in Hrun; [|done].
  destruct (IH (S s) rows' Hrest); lia.
Qed.

Lemma freqs_of_config_rows (config : ModelArgs F) (dtype : DType) table :
  freqs_of_config config dtype = Ok table ->
  0 <= block_size config /\ length table = Z.to_nat (block_size config).
Proof.
  unfold freqs_of_config. intros Hrun.
  destruct (high_freq_factor config), (low_freq_factor config);
    destruct (int_floordiv _ _); simpl in Hrun; try done;
    apply precompute_rows in Hrun; tauto.
Qed.

(** What a call of [setup_caches] that rebuilds leaves behind. *)
Lemma draft_setup_inv self self' (mbs msl sb buf : Z) :
  max_seq_length self < msl \/ max_batch_size self < mbs ->
  setup_caches self mbs msl sb buf = Ok self' ->
  exists hd dtype layers' table,
    int_floordiv (dim (config self)) (n_head (config self)) = Ok hd
    /\ mapM (fun ib : nat * Attention =>
               kv ← KVCache_new mbs msl (n_local_heads (config self)) hd dtype sb buf;
               Ok (mkAttention (wqkv ib.2) (wo ib.2) (Some kv) (process_group ib.2)
                     (Some (Z.of_nat ib.1)) (weight_dtype ib.2)))
            (imap pair (layers self)) = Ok layers'
    /\ freqs_of_config (config self) dtype = Ok table
    /\ 0 <= sb /\ (0 < mbs -> sb <= Z.of_nat (length table)) /\ 0 <= mbs
    /\ self' = mkTransformer (config self) layers' (Some table)
                 (Some (replicate (Z.to_nat mbs) (take (Z.to_nat sb) table)))
                 mbs msl (output_dtype self) (output_scales self)
                 (output_scales_and_zeros self).
Proof.
  intros Hguard. unfold setup_caches.
  assert ((max_seq_length self >=? msl) && (max_batch_size self >=? mbs) = false) as ->.
  { apply andb_false_iff. rewrite !Z.geb_leb, !Z.leb_gt. tauto. }
  destruct (int_floordiv _ _) as [hd|]; simpl; [|done].
  match goal with
  | |- context [mapM ?f (imap pair (layers self))] =>
      destruct (mapM f (imap pair (layers self))) as [layers'|] eqn:Hlayers
  end; simpl; [|done].
  match goal with
  | |- context [freqs_of_config ?c ?d] =>
      destruct (freqs_of_config c d) as [table|] eqn:Hfreqs
  end; simpl; [|done].
  unfold arange. destruct (Z.ltb_spec sb 0); simpl; [done|].
  unfold zeros_dim. destruct (Z.ltb_spec mbs 0); simpl; [done|].
  destruct (mapM (index_rows table) _) as [streaming|] eqn:Hs; simpl; [|done].
  intros [= <-]. eexists hd, _, layers', table.
  split; [done|]. split; [exact Hlayers|]. split; [exact Hfreqs|].
  split; [lia|].
  apply mapM_replicate_inv in Hs as [[Hn ->]|(rows & Hrows & ->)].
  - split; [lia|]. split; [lia|]. by rewrite Hn.
  - unfold index_rows in Hrows.
    pose proof (index_rows_bound _ _ _ _ Hrows) as Hbound.
    apply index_rows_seq in Hrows. rewrite drop_0 in Hrows. subst rows.
    split; [lia|]. split; [lia|]. done.
Qed.

End DraftSetupMore.

Section DraftSetupTheorems.
Context {F : Type} `{Scalar F} {X : Type}.
Implicit Types self : SelfSpec.Transformer (F:=F) (X:=X).
Import SelfSpec.

(** X13.  A call of [setup_caches] of the draft model that rebuilds and returns
    records the requested sizes, larger or smaller than the ones it had, and
    keeps the configuration.  The batch size and the streaming budget are
    not negative, and with at least one sequence the budget is at most
    [block_size]: the index into the table is repeated for each sequence
    before it is used, so that with no sequence any budget passes.  The
    table has [block_size] rows and [streaming_freqs] is its first
    [streaming_budget] rows, once for each of the [max_batch_size]
    sequences. *)
Theorem draft_setup_tables self self' (mbs msl sb buf : Z) :
  max_seq_length self < msl \/ max_batch_size self < mbs ->
  setup_caches self mbs msl sb buf = Ok self' ->
  max_batch_size self' = mbs /\ max_seq_length self' = msl
  /\ config self' = config self
  /\ 0 <= mbs /\ 0 <= sb /\ (0 < mbs -> sb <= block_size (config self))
  /\ exists table,
       freqs_cis self' = Some table
       /\ length table = Z.to_nat (block_size (config self))
       /\ streaming_freqs self'
          = Some (replicate (Z.to_nat mbs) (take (Z.to_nat sb) table)).
Proof.
  intros Hguard Hrun.
  destruct (draft_setup_inv _ _ _ _ _ _ Hguard Hrun)
    as (hd & dtype & layers' & table & _ & _ & Hfreqs & Hsb & Hle & Hmbs & ->).
  apply freqs_of_config_rows in Hfreqs as [Hblock Hlen]. simpl.
  do 5 (split; [done || lia|]).
  split; [intros Hpos; specialize (Hle Hpos); lia|].
  by exists table.
Qed.

(** X14.  A call of [setup_caches] of the draft model that rebuilds and returns
    keeps the number of layers; layer [i] keeps its weights, gets its index
    [i] and a new cache whose budget is the requested one, and which is
    well shaped for the streaming append when the budget is above the 16
    sink slots and the buffer is not negative. *)
Theorem draft_setup_layers self self' (mbs msl sb buf : Z) :
  max_seq_length self < msl \/ max_batch_size self < mbs ->
  setup_caches self mbs msl sb buf = Ok self' ->
  length (layers self') = length (layers self)
  /\ forall (i : nat) (b : Attention), layers self !! i = Some b ->
       exists c, layers self' !! i
                 = Some (mkAttention (wqkv b) (wo b) (Some c) (process_group b)
                           (Some (Z.of_nat i)) (weight_dtype b))
         /\ streaming_budget c = sb
         /\ (16 < sb -> 0 <= buf ->
             cache_wf c (Z.to_nat mbs) (Z.to_nat (sb + buf))).
Proof.
  intros Hguard Hrun.
  destruct (draft_setup_inv _ _ _ _ _ _ Hguard Hrun)
    as (hd & dtype & layers' & table & _ & Hlayers & _ & _ & _ & _ & ->).
  apply result_mapM_lookup in Hlayers as [Hlen Hlook]. simpl.
  split; [by rewrite Hlen, length_imap|].
  intros i b Hi.
  destruct (Hlook i (i, b)) as (y & Hy & Hyi).
  { by rewrite list_lookup_imap, Hi. }
  simpl in Hy.
  destruct (KVCache_new mbs msl _ hd dtype sb buf) as [c|] eqn:Hc; simpl in Hy; [|done].
  injection Hy as <-. exists c. split; [done|].
  split.
  - unfold KVCache_new in Hc.
    repeat match type of Hc with
    | context [zeros_dim ?n ?x] => destruct (zeros_dim n x); simpl in Hc; [|done]
    end.
    by injection Hc as <-.
  - intros Hsb Hbuf. by apply (KVCache_new_draft_wf _ _ _ _ _ _ _ _ Hc).
Qed.

(** X15.  After a call of [setup_caches] that rebuilt, any later call whose sizes
    are covered by the ones of that call changes nothing, whatever streaming
    budget and buffer it asks for. *)
Theorem draft_setup_then_covered self self' (mbs msl sb buf mbs' msl' sb' buf' : Z) :
  max_seq_length self < msl \/ max_batch_size self < mbs ->
  setup_caches self mbs msl sb buf = Ok self' ->
  mbs' <= mbs -> msl' <= msl ->
  setup_caches self' mbs' msl' sb' buf' = Ok self'.
Proof.
  intros Hguard Hrun Hmbs Hmsl.
  destruct (draft_setup_inv _ _ _ _ _ _ Hguard Hrun)
    as (hd & dtype & layers' & table & _ & _ & _ & _ & _ & _ & ->).
  unfold setup_caches. simpl.
  assert ((msl >=? msl') && (mbs >=? mbs') = true) as ->; [|done].
  apply andb_true_iff. rewrite !Z.geb_leb, !Z.leb_le. lia.
Qed.

End DraftSetupTheorems.

(** ** More on the rotation *)

Section RotaryMore.
Context {F : Type} `{Scalar F}.
Implicit Types x out : tensor (entry F).
Implicit Types freqs : tensor (freq_row F).

Lemma rotate_head_pairs dtype (h : list F) (fr : freq_row F) h' :
  rotate_head dtype h fr = Ok h' ->
  length h = (2 * length fr)%nat /\ length h' = length h
  /\ forall (i : nat) c s, fr !! i = Some (c, s) ->
       exists a0 a1,
         h !! (2 * i)%nat = Some a0 /\ h !! (2 * i + 1)%nat = Some a1
         /\ h' !! (2 * i)%nat
            = Some (f_cast dtype (f_sub (f_mul (f_cast float32 a0) c)
                                        (f_mul (f_cast float32 a1) s)))
         /\ h' !! (2 * i + 1)%nat
            = Some (f_cast dtype (f_add (f_mul (f_cast float32 a1) c)
                                        (f_mul (f_cast float32 a0) s))).
Proof.
  revert h h'. induction fr as [|[c0 s0] fr IH]; intros h h' Hrun.
  - destruct h as [|a0 [|a1 h]]; simpl in Hrun; try done.
    injection Hrun as <-. repeat split; done.
  - destruct h as [|a0 [|a1 h]]; simpl in Hrun; try done.
    destruct (rotate_head dtype h fr) as [rest|] eqn:Hrest; simpl in Hrun; [|done].
    injection Hrun as <-. destruct (IH h rest Hrest) as (Hlen & Hlen' & Hlook).
    split; [simpl; lia|]. split; [simpl; lia|].
    intros [|i] c s Hi.
    + injection Hi as <- <-. by exists a0, a1.
    + destruct (Hlook i c s Hi) as (y0 & y1 & Hy0 & Hy1 & Hr0 & Hr1).
      exists y0, y1.
      replace (2 * S i)%nat with (S (S (2 * i))) by lia.
      replace (S (S (2 * i)) + 1)%nat with (S (S (2 * i + 1))) by lia.
      simpl lookup. done.
Qed.

Lemma rotate_head_returns dtype (h : list F) (fr : freq_row F) :
  length h = (2 * length fr)%nat -> exists h', rotate_head dtype h fr = Ok h'.
Proof.
  revert h. induction fr as [|[c0 s0] fr IH]; intros h Hlen.
  - destruct h; [by eexists|done].
  - destruct h as [|a0 [|a1 h]]; simpl in Hlen; try lia.
    destruct (IH h) as [rest Hrest]; [lia|].
    simpl. rewrite Hrest. by eexists.
Qed.

Lemma rotate_heads_lookup dtype (e : entry F) (f : freq_row F) e' :
  rotate_heads dtype e f = Ok e' ->
  length e' = length e
  /\ forall (n : nat) h, e !! n = Some h ->
       exists h', rotate_head dtype h f = Ok h' /\ e' !! n = Some h'.
Proof.
  revert e'. induction e as [|h0 e IH]; intros e' Hrun; simpl in Hrun.
  - injection Hrun as <-. split; [done|]. by intros n h Hn.
  - destruct (rotate_head dtype h0 f) as [h0'|] eqn:Hh0; simpl in Hrun; [|done].
    destruct (rotate_heads dtype e f) as [e''|] eqn:He; simpl in Hrun; [|done].
    injection Hrun as <-. destruct (IH e'' eq_refl) as [Hlen Hlook].
    split; [simpl; by rewrite Hlen|].
    intros [|n] h Hn; simpl in *.
    + injection Hn as <-. by exists h0'.
    + by apply Hlook.
Qed.

Lemma rotate_heads_returns dtype (e : entry F) (f : freq_row F) :
  Forall (fun h => length h = (2 * length f)%nat) e ->
  exists e', rotate_heads dtype e f = Ok e'.
Proof.
  induction 1 as [|h e Hh _ [e' He']]; [by eexists|].
  destruct (rotate_head_returns dtype h f Hh) as [h' Hh'].
  simpl. rewrite Hh', He'. by eexists.
Qed.

Lemma rotate_row_returns dtype (r : list (entry F)) (fr : list (freq_row F)) :
  Forall2 (fun (e : entry F) (f : freq_row F) =>
             Forall (fun h => length h = (2 * length f)%nat) e) r fr ->
  exists r', rotate_row dtype r fr = Ok r'.
Proof.
  induction 1 as [|e f r fr He _ [r' Hr']]; [by eexists|].
  destruct (rotate_heads_returns dtype e f He) as [e' He'].
  simpl. rewrite He', Hr'. by eexists.
Qed.

Lemma has_heads_no_head x : has_heads x -> no_head x = false.
Proof.
  intros [Hx Hrows]. destruct x as [|r x]; [done|].
  inversion Hrows as [|? ? [Hr Hentries] _]; subst.
  destruct r as [|e r]; [done|].
  inversion Hentries as [|? ? He _]; subst. by destruct e.
Qed.

(** X16.  On inputs of matching shapes, with at least one sequence, one
    position and one head, [apply_rotary_emb] returns, and what it returns
    has the batch size and sequence length of [x]. *)
Theorem apply_rotary_emb_returns dtype x freqs :
  rotary_shaped x freqs -> has_heads x ->
  exists out, apply_rotary_emb dtype x freqs = Ok out
              /\ length out = length x /\ shape1 out = shape1 x.
Proof.
  intros Hshape Hheads.
  assert (exists out, rotate_batch dtype x freqs = Ok out) as [out Hout].
  { clear Hheads. induction Hshape as [|r fr x freqs Hr _ [out Hout]]; [by eexists|].
    destruct (rotate_row_returns dtype r fr Hr) as [r' Hr'].
    simpl. rewrite Hr', Hout. by eexists. }
  assert (apply_rotary_emb dtype x freqs = Ok out) as Hrun.
  { unfold apply_rotary_emb. by rewrite (has_heads_no_head x Hheads). }
  exists out. split; [done|]. split.
  - by apply apply_rotary_emb_lookup in Hrun as [-> _].
  - by apply apply_rotary_emb_shape1 in Hrun.
Qed.

(** X17.  The rotation pairs the numbers [2 i] and [2 i + 1] of a head with the
    pair [i] of the table row of its sequence and position: with
    [(c, s) = freqs_cis[b][j][i]] and [a0], [a1] the two numbers as floats,
    the output holds [a0 c - a1 s] and [a1 c + a0 s] at these two places,
    cast to the element type of [x]. *)
Theorem apply_rotary_emb_pairs dtype x freqs out (b j n i : nat)
    (r : list (entry F)) (e : entry F) (h : list F)
    (fr : list (freq_row F)) (f : freq_row F) (c s : F) :
  apply_rotary_emb dtype x freqs = Ok out ->
  x !! b = Some r -> r !! j = Some e -> e !! n = Some h ->
  freqs !! b = Some fr -> fr !! j = Some f -> f !! i = Some (c, s) ->
  exists a0 a1 r' e' h',
    h !! (2 * i)%nat = Some a0 /\ h !! (2 * i + 1)%nat = Some a1
    /\ out !! b = Some r' /\ r' !! j = Some e' /\ e' !! n = Some h'
    /\ length h' = length h
    /\ h' !! (2 * i)%nat
       = Some (f_cast dtype (f_sub (f_mul (f_cast float32 a0) c)
                                   (f_mul (f_cast float32 a1) s)))
    /\ h' !! (2 * i + 1)%nat
       = Some (f_cast dtype (f_add (f_mul (f_cast float32 a1) c)
                                   (f_mul (f_cast float32 a0) s))).
Proof.
  intros Hrun Hb Hj Hn Hfb Hfj Hfi.
  apply apply_rotary_emb_lookup in Hrun as [_ Hrows].
  destruct (Hrows b r Hb) as (fr0 & r' & Hfr0 & Hrow & Hout).
  rewrite Hfb in Hfr0. injection Hfr0 as <-.
  apply rotate_row_lookup in Hrow as [_ Hentries].
  destruct (Hentries j e Hj) as (f0 & e' & Hf0 & Hheads & He').
  rewrite Hfj in Hf0. injection Hf0 as <-.
  apply rotate_heads_lookup in Hheads as [_ Hheads].
  destruct (Hheads n h Hn) as (h' & Hhead & Hh').
  apply rotate_head_pairs in Hhead as (_ & Hlen & Hpairs).
  destruct (Hpairs i c s Hfi) as (a0 & a1 & Hx0 & Hx1 & Hy0 & Hy1).
  by exists a0, a1, r', e', h'.
Qed.

End RotaryMore.

(** ** More on [draft_prefill] *)

Section DraftPrefillMore.
Context {F : Type} `{Scalar F} {X : Type}.
Variable custom_func_2 :
  tensor (entry F) -> tensor (entry F) -> tensor (entry F) -> tensor X.
Variable all_reduce : tensor X -> tensor X.
Import SelfSpec.

Lemma prefill_target_untouched {E} (self self' : KVCache E) cl (k_val v_val : tensor E) ret :
  prefill self cl k_val v_val = Ok (ret, self') ->
  k_cache self' = k_cache self /\ v_cache self' = v_cache self
  /\ streaming_budget self' = streaming_budget self.
Proof.
  unfold prefill. destruct cl as [|c cl]; simpl; [done|].
  destruct (_ <=? _).
  - destruct (setitem1 (draft_k_cache self) _ _ _); simpl; [|done].
    destruct (setitem1 (draft_v_cache self) _ _ _); simpl; [|done].
    by intros [= <- <-].
  - destruct (cat1 _ k_val); simpl; [|done].
    destruct (cat1 _ v_val); simpl; [|done].
    destruct (setitem1 (draft_k_cache self) _ _ _); simpl; [|done].
    destruct (setitem1 (draft_v_cache self) _ _ _); simpl; [|done].
    by intros [= <- <-].
Qed.

Lemma draft_prefill_weights (self self' : Attention (F:=F) (X:=X)) (x y : tensor X)
    (freqs_cis streaming_freqs : tensor (freq_row F)) (cache_seqlens : list Z)
    (is_last : bool) :
  draft_prefill custom_func_2 all_reduce self x freqs_cis streaming_freqs
    cache_seqlens is_last = Ok (y, self') ->
  wqkv self' = wqkv self /\ wo self' = wo self
  /\ process_group self' = process_group self /\ layer_idx self' = layer_idx self
  /\ weight_dtype self' = weight_dtype self.
Proof.
  unfold draft_prefill.
  destruct (match kv_cache self with Some c => _ | None => _ end) as [kvc|];
    simpl; [|done].
  destruct (apply_rotary_emb _ _ freqs_cis) as [q_rot|]; simpl; [|done].
  destruct (apply_rotary_emb _ _ (slice1_to _ _)) as [k_rot|]; simpl; [|done].
  destruct (if is_last then _ else _) as [cache|]; simpl; [|done].
  by intros [= <- <-].
Qed.

Lemma draft_prefill_cache_wf (self self' : Attention (F:=F) (X:=X))
    (c : KVCache (entry F)) (x y : tensor X)
    (freqs_cis streaming_freqs : tensor (freq_row F)) (c0 : Z) (cl : list Z)
    (is_last : bool) (B cap : nat) :
  kv_cache self = Some c -> cache_wf c B cap -> batch_of B x -> 0 <= c0 ->
  draft_prefill custom_func_2 all_reduce self x freqs_cis streaming_freqs
    (c0 :: cl) is_last = Ok (y, self') ->
  exists c', kv_cache self' = Some c' /\ cache_wf c' B cap
             /\ streaming_budget c' = streaming_budget c.
Proof.
  intros Hc Hwf Hx Hc0.
  destruct (batch_of_map_map (fun xi => (wqkv self xi).1.2) x B Hx) as [Hk Hks].
  destruct (batch_of_map_map (fun xi => (wqkv self xi).2) x B Hx) as [Hv Hvs].
  destruct (prefill_returns c c0 cl _ _ B cap Hwf Hk Hv ltac:(congruence) Hc0)
    as (k_ret & v_ret & c1 & m & Hrun & Hwf1 & Hkl & Hkr & Hvl & Hvr & Hm).
  destruct (prefill_target_untouched _ _ _ _ _ _ Hrun) as (_ & _ & Hsb).
  unfold draft_prefill. rewrite Hc, Hrun. simpl.
  destruct (apply_rotary_emb _ _ freqs_cis) as [q_rot|]; simpl; [|done].
  destruct (apply_rotary_emb _ k_ret _) as [k_rot|] eqn:Hrot; simpl; [|done].
  destruct is_last; simpl.
  - pose proof (apply_rotary_emb_rows _ _ _ _ m Hrot Hkr) as Hrows.
    destruct (rows_of_shape1 k_rot m Hrows) as [Hrows' Hle].
    destruct (apply_rotary_emb_lookup _ _ _ _ Hrot) as [Hlen _].
    pose proof Hwf1 as [Hkb1 Hvb1 Hkrows1 Hvrows1 Hsb1].
    pose proof (setitem1_write (draft_k_cache c1) k_rot 0 cap (shape1 k_rot)
                  Hkrows1 Hrows' ltac:(lia) ltac:(lia) ltac:(lia)) as Hset.
    rewrite Z.add_0_l in Hset. change (Z.to_nat 0) with 0%nat in Hset.
    rewrite Hset. simpl. intros [= <- <-]. simpl.
    eexists. split; [done|]. simpl.
    split; [|done]. constructor; simpl; try done.
    + rewrite length_zip_with. lia.
    + apply rows_of_write with (shape1 k_rot); (done || lia).
  - intros [= <- <-]. simpl. by exists c1.
Qed.

(** X18.  A call of [draft_prefill] that returns, on a module with a well-shaped
    cache, leaves a module with the same weights and a cache that is still
    well shaped, with the same budget and the same target buffers
    [k_cache], [v_cache]: the next call finds what it needs, also after a
    last chunk. *)
Theorem draft_prefill_keeps_shape (self self' : Attention (F:=F) (X:=X))
    (c : KVCache (entry F)) (x y : tensor X)
    (freqs_cis streaming_freqs : tensor (freq_row F)) (c0 : Z) (cl : list Z)
    (is_last : bool) (B cap : nat) :
  kv_cache self = Some c -> cache_wf c B cap -> batch_of B x -> 0 <= c0 ->
  draft_prefill custom_func_2 all_reduce self x freqs_cis streaming_freqs
    (c0 :: cl) is_last = Ok (y, self') ->
  wqkv self' = wqkv self /\ wo self' = wo self
  /\ process_group self' = process_group self /\ layer_idx self' = layer_idx self
  /\ weight_dtype self' = weight_dtype self
  /\ exists c', kv_cache self' = Some c' /\ cache_wf c' B cap
                /\ streaming_budget c' = streaming_budget c
                /\ k_cache c' = k_cache c /\ v_cache c' = v_cache c.
Proof.
  intros Hc Hwf Hx Hc0 Hrun.
  destruct (draft_prefill_weights _ _ _ _ _ _ _ _ Hrun) as (? & ? & ? & ? & ?).
  destruct (draft_prefill_cache_wf _ _ _ _ _ _ _ _ _ _ _ _ Hc Hwf Hx Hc0 Hrun)
    as (c' & Hc' & Hwf' & Hsb').
  do 5 (split; [done|]). exists c'. do 3 (split; [done|]).
  revert Hrun. unfold draft_prefill. rewrite Hc. simpl.
  destruct (prefill c _ _ _) as [[ret c1]|] eqn:Hpre; simpl; [|done].
  destruct (prefill_target_untouched _ _ _ _ _ _ Hpre) as (Hkc & Hvc & _).
  destruct (apply_rotary_emb _ _ freqs_cis) as [q_rot|]; simpl; [|done].
  destruct (apply_rotary_emb _ _ (slice1_to _ _)) as [k_rot|]; simpl; [|done].
  destruct is_last; simpl.
  - destruct (setitem1 _ _ _ _) as [dk|]; simpl; [|done].
    intros [= <- <-]. simpl in Hc'. injection Hc' as <-. done.
  - intros [= <- <-]. simpl in Hc'. injection Hc' as <-. done.
Qed.

(** X19.  Without a cache, a call of [draft_prefill] for a last chunk never
    returns: once the rotations are done, the write into the cache raises
    [AttributeError].  For another chunk the call attends over the keys and
    values of the chunk itself and leaves the module as it was. *)
Theorem draft_prefill_without_cache (self : Attention (F:=F) (X:=X)) (x : tensor X)
    (freqs_cis streaming_freqs : tensor (freq_row F)) (cache_seqlens : list Z) :
  kv_cache self = None ->
  let q := map (map (fun xi => (wqkv self xi).1.1)) x in
  let k := map (map (fun xi => (wqkv self xi).1.2)) x in
  let v := map (map (fun xi => (wqkv self xi).2)) x in
  is_ok (draft_prefill custom_func_2 all_reduce self x freqs_cis streaming_freqs
           cache_seqlens true) = false
  /\ forall q_rot k_rot,
       apply_rotary_emb (weight_dtype self) q freqs_cis = Ok q_rot ->
       apply_rotary_emb (weight_dtype self) k
         (slice1_to streaming_freqs (Z.of_nat (shape1 k))) = Ok k_rot ->
       draft_prefill custom_func_2 all_reduce self x freqs_cis streaming_freqs
         cache_seqlens true = Raise AttributeError
       /\ let y := map (map (wo self)) (custom_func_2 q_rot k_rot v) in
          draft_prefill custom_func_2 all_reduce self x freqs_cis streaming_freqs
            cache_seqlens false
          = Ok (if process_group self then all_reduce y else y, self).
Proof.
  intros Hc q k v. unfold draft_prefill. rewrite Hc. simpl. fold q k v. split.
  - destruct (apply_rotary_emb _ q _); simpl; [|done].
    by destruct (apply_rotary_emb _ k _).
  - intros q_rot k_rot -> ->. simpl. split; [done|].
    unfold set_kv_cache. rewrite <- Hc. by destruct self.
Qed.

End DraftPrefillMore.

(** ** The projection sizes and the checkpoint hook *)

Section ProjectionMore.
Context {F : Type} `{Scalar F}.
Import Projection.

(** X20.  For a configuration as the constructor leaves it, with a positive
    number of heads and local heads that are not negative, an attention
    module that [Attention.__init__] accepts has [dim = n_head * head_dim],
    and the split of a row of the output of [wqkv] succeeds: the row is the
    query of [n_head * head_dim] numbers followed by the key and the value
    of [n_local_heads * head_dim] numbers each. *)
Theorem qkv_split_fits (kwargs : list (Kwarg F)) (config : ModelArgs F) (a : Attention)
    {A} (row : list A) :
  ModelArgs_new kwargs = Ok config ->
  Attention_new config = Ok a ->
  0 < n_head config -> 0 <= n_local_heads config ->
  length row = Z.to_nat (wqkv_out_features a) ->
  dim config = n_head config * head_dim config
  /\ exists q k v,
       qkv_split a row = Ok [q; k; v] /\ row = q ++ k ++ v
       /\ Z.of_nat (length q) = n_head config * head_dim config
       /\ Z.of_nat (length k) = n_local_heads config * head_dim config
       /\ length v = length k.
Proof.
  unfold ModelArgs_new. intros Hnew Hattn Hnh Hnlh Hrow.
  set (c0 := foldl set_field field_defaults kwargs) in *.
  apply post_init_Ok in Hnew as (Hz & isz & _ & ->). simpl in *.
  unfold Attention_new, int_mod in Hattn. simpl in Hattn.
  destruct (Z.eqb_spec (n_head c0) 0) as [|_]; [done|]. simpl in Hattn.
  destruct (Z.eqb_spec (dim c0 mod n_head c0) 0) as [Hmod|]; simpl in Hattn; [|done].
  set (nlh := if n_local_heads c0 =? -1 then n_head c0 else n_local_heads c0) in *.
  set (hd := dim c0 / n_head c0) in *.
  destruct (Z.ltb_spec ((n_head c0 + 2 * nlh) * hd) 0) as [|Htot]; simpl in Hattn; [done|].
  destruct (Z.ltb_spec (dim c0) 0) as [|Hdim]; simpl in Hattn; [done|].
  injection Hattn as <-. simpl in Hrow.
  assert (dim c0 = n_head c0 * hd) as Hexact by (by apply Z.div_exact).
  assert (0 <= hd) as Hhd by (apply Z.div_pos; lia).
  assert (0 <= nlh * hd) as Hkv by nia.
  split; [done|].
  unfold qkv_split, split_with_sizes. simpl.
  assert (Z.of_nat (length row) = dim c0 + (nlh * hd + (nlh * hd + 0))) as Hlen by nia.
  destruct (Z.leb_spec 0 (dim c0)) as [_|]; [|lia].
  destruct (Z.leb_spec 0 (nlh * hd)) as [_|]; [|lia]. simpl.
  destruct (Z.eqb_spec (dim c0 + (nlh * hd + (nlh * hd + 0))) (Z.of_nat (length row)))
    as [_|]; [|lia].
  eexists _, _, _. split; [done|].
  split.
  { rewrite (take_ge (drop _ (drop _ row))) by (rewrite !length_drop; lia).
    by rewrite !take_drop. }
  rewrite !length_take, !length_drop. lia.
Qed.

End ProjectionMore.

Section HookMore.
Context {R : Type}.
Import Projection.
Implicit Types state_dict : gmap string (Weight R).

Lemma weight_keys_distinct (prefix : string) :
  prefix +:+ "wq.weight" <> prefix +:+ "wk.weight"
  /\ prefix +:+ "wq.weight" <> prefix +:+ "wv.weight"
  /\ prefix +:+ "wk.weight" <> prefix +:+ "wv.weight"
  /\ prefix +:+ "wqkv.weight" <> prefix +:+ "wq.weight"
  /\ prefix +:+ "wqkv.weight" <> prefix +:+ "wk.weight"
  /\ prefix +:+ "wqkv.weight" <> prefix +:+ "wv.weight".
Proof. repeat split; intros Heq; by apply String.app_inj in Heq. Qed.

Lemma load_hook_inv state_dict state_dict' (prefix : string) :
  load_hook state_dict prefix = Ok state_dict' ->
  state_dict !! (prefix +:+ "wq.weight") = None /\ state_dict' = state_dict
  \/ exists wq wk wv,
       state_dict !! (prefix +:+ "wq.weight") = Some wq
       /\ state_dict !! (prefix +:+ "wk.weight") = Some wk
       /\ state_dict !! (prefix +:+ "wv.weight") = Some wv
       /\ w_cols wk = w_cols wq /\ w_cols wv = w_cols wq
       /\ state_dict'
          = <[prefix +:+ "wqkv.weight" :=
                mkWeight (w_rows wq ++ w_rows wk ++ w_rows wv) (w_cols wq)]>
              (delete (prefix +:+ "wv.weight")
                 (delete (prefix +:+ "wk.weight")
                    (delete (prefix +:+ "wq.weight") state_dict))).
Proof.
  destruct (weight_keys_distinct prefix) as (Hqk & Hqv & Hkv & _).
  unfold load_hook, pop. case_bool_decide as Hq.
  - destruct Hq as [wq Hq]. rewrite Hq. simpl.
    rewrite lookup_delete_ne by done.
    destruct (state_dict !! (prefix +:+ "wk.weight")) as [wk|] eqn:Hk; simpl; [|done].
    rewrite !lookup_delete_ne by done.
    destruct (state_dict !! (prefix +:+ "wv.weight")) as [wv|] eqn:Hv; simpl; [|done].
    destruct (Z.eqb_spec (w_cols wk) (w_cols wq)) as [Hck|]; simpl; [|done].
    destruct (Z.eqb_spec (w_cols wv) (w_cols wq)) as [Hcv|]; simpl; [|done].
    intros [= <-]. right. exists wq, wk, wv. rewrite app_nil_r. done.
  - intros [= <-]. left. split; [|done].
    by apply eq_None_not_Some.
Qed.

(** X21.  With the three weights [wq], [wk], [wv] of a prefix in the dictionary,
    of the same number of columns, [load_hook] returns; afterwards the key
    [wqkv.weight] of the prefix holds the rows of [wq], then those of [wk],
    then those of [wv], the three keys are gone, and every other key holds
    what it held. *)
Theorem load_hook_fuses state_dict (prefix : string) (wq wk wv : Weight R) :
  state_dict !! (prefix +:+ "wq.weight") = Some wq ->
  state_dict !! (prefix +:+ "wk.weight") = Some wk ->
  state_dict !! (prefix +:+ "wv.weight") = Some wv ->
  w_cols wk = w_cols wq -> w_cols wv = w_cols wq ->
  exists state_dict',
    load_hook state_dict prefix = Ok state_dict'
    /\ state_dict' !! (prefix +:+ "wqkv.weight")
       = Some (mkWeight (w_rows wq ++ w_rows wk ++ w_rows wv) (w_cols wq))
    /\ state_dict' !! (prefix +:+ "wq.weight") = None
    /\ state_dict' !! (prefix +:+ "wk.weight") = None
    /\ state_dict' !! (prefix +:+ "wv.weight") = None
    /\ forall key : string,
         key <> prefix +:+ "wqkv.weight" -> key <> prefix +:+ "wq.weight" ->
         key <> prefix +:+ "wk.weight" -> key <> prefix +:+ "wv.weight" ->
         state_dict' !! key = state_dict !! key.
Proof.
  intros Hq Hk Hv Hck Hcv.
  destruct (weight_keys_distinct prefix) as (Hqk & Hqv & Hkv & Hfq & Hfk & Hfv).
  eexists. split.
  { unfold load_hook, pop. rewrite bool_decide_eq_true_2 by by eexists.
    rewrite Hq. simpl. rewrite lookup_delete_ne, Hk by done. simpl.
    rewrite !lookup_delete_ne, Hv by done. simpl.
    rewrite Hck, Hcv, Z.eqb_refl. simpl. rewrite app_nil_r. done. }
  split; [by rewrite lookup_insert_eq|].
  split.
  { rewrite lookup_insert_ne, !lookup_delete_ne, lookup_delete_eq by done. done. }
  split.
  { rewrite lookup_insert_ne, lookup_delete_ne, lookup_delete_eq by done. done. }
  split.
  { rewrite lookup_insert_ne, lookup_delete_eq by done. done. }
  intros key Hf Hkq Hkk Hkv'.
  by rewrite lookup_insert_ne, !lookup_delete_ne by done.
Qed.

(** X22.  A second run of [load_hook] with the same prefix on the dictionary that
    a first run left changes nothing. *)
Theorem load_hook_idempotent state_dict state_dict' (prefix : string) :
  load_hook state_dict prefix = Ok state_dict' ->
  load_hook state_dict' prefix = Ok state_dict'.
Proof.
  intros Hrun.
  destruct (weight_keys_distinct prefix) as (Hqk & Hqv & Hkv & Hfq & Hfk & Hfv).
  assert (state_dict' !! (prefix +:+ "wq.weight") = None) as Hnone.
  { apply load_hook_inv in Hrun as [[Hq ->]|(wq & wk & wv & _ & _ & _ & _ & _ & ->)];
      [done|].
    rewrite lookup_insert_ne, !lookup_delete_ne, lookup_delete_eq by done. done. }
  unfold load_hook. rewrite bool_decide_eq_false_2; [done|].
  rewrite Hnone. by intros [? ?].
Qed.

(** X23.  [load_hook] looks for [wq.weight] only: without it the dictionary is
    left as it is, also when it holds [wk.weight] or [wv.weight]; with it
    and without one of the other two the call raises [KeyError]; with the
    three of them and numbers of columns that differ, [torch.cat] raises. *)
Theorem load_hook_partial state_dict (prefix : string) :
  (state_dict !! (prefix +:+ "wq.weight") = None ->
   load_hook state_dict prefix = Ok state_dict)
  /\ (is_Some (state_dict !! (prefix +:+ "wq.weight")) ->
      state_dict !! (prefix +:+ "wk.weight") = None
      \/ state_dict !! (prefix +:+ "wv.weight") = None ->
      load_hook state_dict prefix = Raise KeyError)
  /\ (forall wq wk wv,
        state_dict !! (prefix +:+ "wq.weight") = Some wq ->
        state_dict !! (prefix +:+ "wk.weight") = Some wk ->
        state_dict !! (prefix +:+ "wv.weight") = Some wv ->
        w_cols wk <> w_cols wq \/ w_cols wv <> w_cols wq ->
        load_hook state_dict prefix = Raise RuntimeError).
Proof.
  destruct (weight_keys_distinct prefix) as (Hqk & Hqv & Hkv & _).
  split; [|split].
  - intros Hq. unfold load_hook. rewrite bool_decide_eq_false_2; [done|].
    rewrite Hq. by intros [? ?].
  - intros Hq Hmiss. unfold load_hook, pop. rewrite bool_decide_eq_true_2 by done.
    destruct Hq as [wq ->]. simpl. rewrite lookup_delete_ne by done.
    destruct (state_dict !! (prefix +:+ "wk.weight")) as [wk|] eqn:Hk; simpl; [|done].
    rewrite !lookup_delete_ne by done.
    destruct Hmiss as [|Hv]; [done|]. by rewrite Hv.
  - intros wq wk wv Hq Hk Hv Hcols. unfold load_hook, pop.
    rewrite bool_decide_eq_true_2 by by eexists.
    rewrite Hq. simpl. rewrite lookup_delete_ne, Hk by done. simpl.
    rewrite !lookup_delete_ne, Hv by done. simpl.
    destruct (Z.eqb_spec (w_cols wk) (w_cols wq)); simpl; [|done].
    destruct (Z.eqb_spec (w_cols wv) (w_cols wq)); simpl; [|done].
    by destruct Hcols.
Qed.

End HookMore.

(** ** The generation loop of the benchmark *)

Section BenchmarkMore.
Context {F : Type} `{Scalar F} {Eng : Type}.
Variable encode : Eng -> tensor Z -> tensor Z * Eng.
Variable inference : Eng -> tensor Z -> tensor Z * Eng.
Variables eot_1 eot_2 MAX_LEN : Z.
Import Benchmark.

Lemma last_column (t : tensor Z) :
  rows_of 1 t -> exists col, mapM (fun row => py_index row (-1)) t = Ok col.
Proof.
  induction 1 as [|r t Hr _ [col Hcol]]; [by eexists|].
  destruct r as [|a [|? ?]]; try done.
  simpl. rewrite Hcol. by eexists.
Qed.

Lemma shape1_zip_app {E} (t u : tensor E) :
  length u = length t -> shape1 (zip_with app t u) = (shape1 t + shape1 u)%nat.
Proof.
  destruct t, u; simpl; try done. intros _. by rewrite length_app.
Qed.

Lemma loop_body_step (B : nat) (st : LoopState (Eng:=Eng)) :
  one_token_each inference B -> (0 < B)%nat -> loop_shaped B st ->
  exists st', loop_body inference eot_1 eot_2 st = Ok st'
    /\ loop_shaped B st'
    /\ shape1 (output st') = Datatypes.S (shape1 (output st))
    /\ model_steps st' = model_steps st + 1.
Proof.
  intros Heng HB [[Hlen Hrows] Hnext].
  destruct (Heng (engine st) (next_tokens st) Hnext) as [Hrl Hrr].
  unfold loop_body, cat1. rewrite decide_True by lia. simpl.
  destruct (last_column _ Hrr) as [col ->]. simpl.
  eexists. split; [done|]. simpl.
  assert (shape1 (inference (engine st) (next_tokens st)).1 = 1%nat) as Hone.
  { destruct (inference _ _).1; simpl in *; [lia|]. by inversion Hrr. }
  assert (shape1 (zip_with app (output st) (inference (engine st) (next_tokens st)).1)
          = Datatypes.S (shape1 (output st))) as Hs.
  { rewrite shape1_zip_app by lia. lia. }
  split; [|by split].
  unfold loop_shaped, batch_of. simpl.
  split; [|done]. split; [rewrite length_zip_with; lia|].
  rewrite Hs.
  replace (Datatypes.S (shape1 (output st))) with (shape1 (output st) + 1)%nat by lia.
  by apply rows_of_zip_app.
Qed.

Lemma decode_loop_runs (B : nat) (fuel : nat) (st : LoopState (Eng:=Eng)) :
  one_token_each inference B -> (0 < B)%nat -> loop_shaped B st ->
  MAX_LEN - Z.of_nat (shape1 (output st)) <= Z.of_nat fuel ->
  exists st',
    decode_loop inference eot_1 eot_2 MAX_LEN fuel st = Ok (Some st')
    /\ loop_shaped B st'
    /\ model_steps st' - model_steps st
       = Z.of_nat (shape1 (output st')) - Z.of_nat (shape1 (output st))
    /\ (shape1 (output st) <= shape1 (output st'))%nat
    /\ (Z.of_nat (shape1 (output st')) <= MAX_LEN \/ st' = st)
    /\ (terminate st' = true \/ MAX_LEN <= Z.of_nat (shape1 (output st')))
    /\ (terminate st = false -> Z.of_nat (shape1 (output st)) < MAX_LEN ->
        model_steps st < model_steps st').
Proof.
  intros Heng HB. revert st.
  induction fuel as [|fuel IH]; intros st Hshape Hfuel; simpl.
  - destruct (Z.ltb_spec (Z.of_nat (shape1 (output st))) MAX_LEN); [lia|]. simpl.
    exists st. split; [done|]. split; [done|]. split; [lia|]. split; [lia|].
    split; [by right|]. split; [right; lia|]. intros; lia.
  - destruct (Z.ltb_spec (Z.of_nat (shape1 (output st))) MAX_LEN) as [Hlt|Hge];
      [destruct (terminate st) eqn:Hterm|]; simpl.
    + exists st. split; [done|]. split; [done|]. split; [lia|]. split; [lia|].
      split; [by right|]. split; [by left|]. intros; congruence.
    + destruct (loop_body_step B st Heng HB Hshape) as (st1 & -> & Hshape1 & Hw & Hsteps).
      simpl. destruct (IH st1 Hshape1 ltac:(lia))
        as (st' & -> & Hshape' & Hcount & Hmono & Hmax & Hstop & _).
      exists st'. split; [done|]. split; [done|].
      split; [lia|]. split; [lia|].
      split; [left; destruct Hmax as [?| ->]; lia|].
      split; [done|]. intros _ _. lia.
    + exists st. split; [done|]. split; [done|]. split; [lia|]. split; [lia|].
      split; [by right|]. split; [right; lia|]. intros; lia.
Qed.

(** X24.  With an engine that answers every batch with one token for each
    sequence, the [while] loop stops after at most [MAX_LEN] minus the
    width of [output] rounds.  The number of steps it counts is the number
    of columns it adds to [output]; the width of [output] does not go
    beyond [MAX_LEN], unless it was there before; and at the end either
    [terminate] is set or [output] has [MAX_LEN] columns or more. *)
Theorem decode_loop_bound (B : nat) (st : LoopState (Eng:=Eng)) :
  one_token_each inference B -> (0 < B)%nat -> loop_shaped B st ->
  exists st',
    decode_loop inference eot_1 eot_2 MAX_LEN
      (Z.to_nat (MAX_LEN - Z.of_nat (shape1 (output st)))) st = Ok (Some st')
    /\ model_steps st' - model_steps st
       = Z.of_nat (shape1 (output st')) - Z.of_nat (shape1 (output st))
    /\ (shape1 (output st) <= shape1 (output st'))%nat
    /\ (Z.of_nat (shape1 (output st')) <= MAX_LEN \/ st' = st)
    /\ (terminate st' = true \/ MAX_LEN <= Z.of_nat (shape1 (output st'))).
Proof.
  intros Heng HB Hshape.
  destruct (decode_loop_runs B (Z.to_nat (MAX_LEN - Z.of_nat (shape1 (output st)))) st
              Heng HB Hshape ltac:(lia))
    as (st' & Hrun & _ & Hcount & Hmono & Hmax & Hstop & _).
  by exists st'.
Qed.

Lemma last_tokens (t : tensor Z) :
  Forall (fun r => r <> []) t -> rows_of 1 (slice1_from t (-1)).
Proof.
  intros Ht. unfold rows_of, slice1_from. rewrite Forall_fmap.
  eapply Forall_impl; [exact Ht|]. intros r Hr. simpl in *.
  unfold py_slice_from, slice_index. simpl. rewrite length_drop.
  destruct r; [done|]. simpl. lia.
Qed.

(** X25.  One round of the [for] loop on a batch of [B] sequences of [n - 1]
    tokens, with an engine that answers with one token for each sequence.
    When [n] reaches [MAX_LEN] the [while] loop is not entered, and with no
    step counted before, the report divides by zero.  Below [MAX_LEN] the
    round completes: it counts [k] new steps, between 1 and [MAX_LEN - n],
    leaves [n + k] columns in [output], prints the time over the steps
    counted so far, and resets both counters when [step] is below 10. *)
Theorem eval_step_report (B : nat) (step : Z) (e : Eng) (total_time : F) (steps : Z)
    (input_ids : tensor Z) (t1 t2 : F) :
  one_token_each inference B -> (0 < B)%nat -> batch_of B input_ids ->
  length (encode e input_ids).1 = B ->
  Forall (fun r => r <> []) (encode e input_ids).1 ->
  0 <= steps ->
  let n := Z.of_nat (shape1 input_ids) + 1 in
  (steps = 0 -> MAX_LEN <= n ->
   forall fuel,
     eval_step encode inference eot_1 eot_2 MAX_LEN fuel step e total_time steps
       input_ids t1 t2 = Raise ZeroDivisionError)
  /\ (n < MAX_LEN ->
      exists res k,
        eval_step encode inference eot_1 eot_2 MAX_LEN (Z.to_nat (MAX_LEN - n)) step e
          total_time steps input_ids t1 t2 = Ok (Some res)
        /\ 1 <= k <= MAX_LEN - n
        /\ Z.of_nat (shape1 (res_output res)) = n + k
        /\ res_printed res
           = f_div (f_add total_time (f_sub t2 t1)) (f_of_Z (steps + k))
        /\ res_model_steps res = (if step <? 10 then 0 else steps + k)
        /\ res_total_time res
           = (if step <? 10 then f_of_Z 0 else f_add total_time (f_sub t2 t1))).
Proof.
  intros Heng HB [Hlen Hrows] Hel Hne Hsteps n.
  pose proof (last_tokens _ Hne) as Hlast.
  set (next := slice1_from (encode e input_ids).1 (-1)) in *.
  assert (length next = B) as Hnl by (unfold next, slice1_from; by rewrite length_map).
  assert (shape1 next = 1%nat) as Hone.
  { destruct next; simpl in *; [lia|]. by inversion Hlast. }
  assert (Z.of_nat (shape1 (zip_with app input_ids next)) = n) as Hw.
  { rewrite shape1_zip_app by lia. lia. }
  assert (loop_shaped B (mkLoopState (encode e input_ids).2
                           (zip_with app input_ids next) next steps false)) as Hshape.
  { split; [|done]. split; [simpl; rewrite length_zip_with; lia|]. simpl.
    rewrite shape1_zip_app by lia. rewrite Hone. by apply rows_of_zip_app. }
  split.
  - intros -> Hn fuel. unfold eval_step, cat1. fold next.
    rewrite decide_True by lia. simpl.
    assert ((Z.of_nat (shape1 (zip_with app input_ids next)) <? MAX_LEN) = false) as Hguard
      by (apply Z.ltb_ge; lia).
    destruct fuel; simpl; rewrite Hguard; done.
  - intros Hn. unfold eval_step, cat1. fold next.
    rewrite decide_True by lia. simpl.
    destruct (decode_loop_runs B (Z.to_nat (MAX_LEN - n)) _ Heng HB Hshape)
      as (st' & Hrun & _ & Hcount & Hmono & Hmax & Hstop & Hstrict).
    { simpl. lia. }
    simpl in *. rewrite Hrun. simpl.
    specialize (Hstrict eq_refl ltac:(lia)).
    assert (Z.of_nat (shape1 (output st')) <= MAX_LEN) as Hle.
    { destruct Hmax as [?| ->]; simpl; lia. }
    unfold report. destruct (Z.eqb_spec (model_steps st') 0) as [|_]; [lia|]. simpl.
    exists (if step <? 10
            then mkStepResult (engine st') (output st')
                   (f_div (f_add total_time (f_sub t2 t1)) (f_of_Z (model_steps st')))
                   (f_of_Z 0) 0
            else mkStepResult (engine st') (output st')
                   (f_div (f_add total_time (f_sub t2 t1)) (f_of_Z (model_steps st')))
                   (f_add total_time (f_sub t2 t1)) (model_steps st')),
      (model_steps st' - steps).
    replace (steps + (model_steps st' - steps)) with (model_steps st') by lia.
    split; [by destruct (step <? 10)|].
    split; [lia|].
    destruct (step <? 10); simpl; repeat split; try done; lia.
Qed.

End BenchmarkMore.

(** ** More on the frequency table *)

Section TablePrefix.
Context {F : Type} `{Scalar F}.

(** X26.  The rows of the table do not depend on how many there are: the table
    for [n] positions is the first [n] rows of the table for [m >= n]
    positions, and is built whenever that one is. *)
Theorem precompute_freqs_cis_prefix (n m n_elem : Z) (base : F) (dtype : DType)
    (scaling_factor : F) (low high original : option Z) (table : list (freq_row F)) :
  0 <= n <= m ->
  precompute_freqs_cis m n_elem base dtype scaling_factor low high original = Ok table ->
  precompute_freqs_cis n n_elem base dtype scaling_factor low high original
    = Ok (take (Z.to_nat n) table).
Proof.
  intros Hn. unfold precompute_freqs_cis, arange.
  destruct (base_freqs n_elem base) as [freqs|]; simpl; [|done].
  destruct (Z.ltb_spec m 0); [lia|]. destruct (Z.ltb_spec n 0); [lia|].
  destruct low as [l|], high as [h|]; simpl;
    try (destruct (_compute_llama3_parameters freqs original scaling_factor l h);
         simpl; [|done]);
    intros [= <-]; f_equal;
    rewrite <- !fmap_take, take_seq;
    by replace (Z.to_nat n `min` Z.to_nat m)%nat with (Z.to_nat n) by lia.
Qed.


End TablePrefix.

(** ** The draft model as a stack of blocks *)

Section DraftModelMore.
Context {F : Type} `{Scalar F} {X Y : Type}.
Variable custom_func_2 :
  tensor (entry F) -> tensor (entry F) -> tensor (entry F) -> tensor X.
Variable all_reduce : tensor X -> tensor X.
Variable tok_embeddings : Z -> X.
Variable add : X -> X -> X.
Variable attention_norm ffn_norm feed_forward : nat -> X -> X.
Variable norm : X -> X.
Variable output : X -> Y.
Import SelfSpec DraftModel.

Lemma add_residual_shape (x y z : tensor X) :
  add_residual add x y = Ok z -> map length z = map length x.
Proof.
  unfold add_residual. case_decide as Heq; [|done]. intros [= <-].
  revert y Heq. induction x as [|r x IH]; intros [|s y] Heq; simpl in *; try done.
  injection Heq as Hr Hrest. f_equal; [rewrite length_zip_with; lia|by apply IH].
Qed.

Lemma map_length_map_map {A A'} (f : A -> A') (x : tensor A) :
  map length (map (map f) x) = map length x.
Proof. induction x as [|r x IH]; simpl; [done|]. by rewrite length_map, IH. Qed.

Lemma batch_of_map_length {A A'} (B : nat) (x : tensor A) (y : tensor A') :
  map length x = map length y -> batch_of B y -> batch_of B x.
Proof.
  intros Heq [Hlen Hrows].
  assert (length x = B) as Hx.
  { rewrite <- Hlen, <- (length_map length x), Heq. apply length_map. }
  assert (shape1 x = shape1 y) as Hs.
  { destruct x, y; simpl in *; congruence. }
  split; [done|]. rewrite Hs. unfold rows_of in *.
  assert (Forall (fun k => k = shape1 y) (map length y)) as Hall
    by (apply Forall_fmap; exact Hrows).
  rewrite <- Heq in Hall. apply Forall_fmap in Hall. exact Hall.
Qed.

Lemma embed_rows (vocab_size : Z) (idx : tensor Z) (x : tensor X) :
  mapM (mapM (embed tok_embeddings vocab_size)) idx = Ok x ->
  map length x = map length idx.
Proof.
  revert x. induction idx as [|r idx IH]; intros x Hrun; simpl in Hrun.
  - by injection Hrun as <-.
  - destruct (mapM (embed tok_embeddings vocab_size) r) as [r'|] eqn:Hr;
      simpl in Hrun; [|done].
    destruct (mapM (mapM (embed tok_embeddings vocab_size)) idx) as [x'|];
      simpl in Hrun; [|done].
    injection Hrun as <-. simpl.
    apply result_mapM_lookup in Hr as [-> _]. by rewrite (IH x').
Qed.

Lemma block_keeps (i : nat) (a a' : Attention (F:=F) (X:=X)) (x out : tensor X)
    (freqs_cis streaming_freqs : tensor (freq_row F)) (c0 : Z) (cl : list Z)
    (is_last : bool) (c : KVCache (entry F)) (B cap : nat) :
  kv_cache a = Some c -> cache_wf c B cap -> batch_of B x -> 0 <= c0 ->
  TransformerBlock_draft_prefill custom_func_2 all_reduce add attention_norm ffn_norm
    feed_forward i a x freqs_cis streaming_freqs (c0 :: cl) is_last = Ok (out, a') ->
  map length out = map length x /\ layer_kept B cap a a'.
Proof.
  intros Hc Hwf Hx Hc0. unfold TransformerBlock_draft_prefill.
  destruct (draft_prefill _ _ a _ _ _ _ _) as [[y a1]|] eqn:Hrun; simpl; [|done].
  destruct (add_residual add x y) as [h|] eqn:Hh; simpl; [|done].
  destruct (add_residual add h _) as [o|] eqn:Ho; simpl; [|done].
  intros [= <- <-].
  apply add_residual_shape in Hh, Ho. split; [congruence|].
  destruct (batch_of_map_map (attention_norm i) x B Hx) as [Hnx _].
  destruct (draft_prefill_weights _ _ _ _ _ _ _ _ _ _ Hrun) as (? & ? & ? & ? & ?).
  destruct (draft_prefill_cache_wf _ _ _ _ _ _ _ _ _ _ _ _ _ _ Hc Hwf Hnx Hc0 Hrun)
    as (c' & Hc' & Hwf' & Hsb').
  do 5 (split; [done|]). by exists c, c'.
Qed.

Lemma run_layers_keeps (sf : option (tensor (freq_row F))) (B cap : nat)
    (layers layers' : list (Attention (F:=F) (X:=X))) (i : nat) (x out : tensor X)
    (freqs_cis : tensor (freq_row F)) (c0 : Z) (cl : list Z) (is_last : bool) :
  layers_ready B cap layers -> batch_of B x -> 0 <= c0 ->
  run_layers custom_func_2 all_reduce add attention_norm ffn_norm feed_forward
    sf i layers x freqs_cis (c0 :: cl) is_last = Ok (out, layers') ->
  map length out = map length x
  /\ Forall2 (layer_kept B cap) layers layers'
  /\ (layers <> [] -> is_Some sf).
Proof.
  intros Hready. revert layers' i x out.
  induction Hready as [|a layers (c & Hc & Hwf) _ IH]; intros layers' i x out Hx Hc0 Hrun;
    simpl in Hrun.
  - injection Hrun as <- <-. split; [done|]. split; [constructor|done].
  - destruct sf as [s|]; simpl in Hrun; [|done].
    destruct (TransformerBlock_draft_prefill _ _ _ _ _ _ i a x _ _ _ _) as [[x1 a1]|]
      eqn:Hblock; simpl in Hrun; [|done].
    destruct (block_keeps _ _ _ _ _ _ _ _ _ _ _ _ _ Hc Hwf Hx Hc0 Hblock) as [Hshape Hkept].
    destruct (run_layers _ _ _ _ _ _ (Some s) (S i) layers x1 _ _ _) as [[x2 rest]|]
      eqn:Hrest; simpl in Hrun; [|done].
    injection Hrun as <- <-.
    destruct (IH rest (S i) x1 x2 (batch_of_map_length B _ _ Hshape Hx) Hc0 Hrest)
      as (Hshape' & Hall & _).
    split; [congruence|]. split; [by constructor|]. by eexists.
Qed.

(** X28.  A call of [Transformer.draft_prefill] that returns, on a model whose
    layers all have a well-shaped cache, needed the tables of
    [setup_caches]; it gives logits for every token of [idx], keeps the
    configuration, the tables and the recorded sizes, and leaves every layer
    with its weights and a cache that is still well shaped, with its budget:
    the next chunk can follow, also after a last chunk. *)
Theorem Transformer_draft_prefill_keeps_shape (self self' : Transformer (F:=F) (X:=X))
    (idx input_pos : tensor Z) (c0 : Z) (cl : list Z) (is_last : bool)
    (logits : tensor Y) (B cap : nat) :
  layers_ready B cap (layers self) -> batch_of B idx -> 0 <= c0 ->
  Transformer_draft_prefill custom_func_2 all_reduce tok_embeddings add attention_norm
    ffn_norm feed_forward norm output self idx input_pos (c0 :: cl) is_last
    = Ok (logits, self') ->
  is_Some (freqs_cis self)
  /\ (layers self <> [] -> is_Some (streaming_freqs self))
  /\ map length logits = map length idx
  /\ config self' = config self /\ freqs_cis self' = freqs_cis self
  /\ streaming_freqs self' = streaming_freqs self
  /\ max_batch_size self' = max_batch_size self
  /\ max_seq_length self' = max_seq_length self
  /\ Forall2 (layer_kept B cap) (layers self) (layers self')
  /\ layers_ready B cap (layers self').
Proof.
  intros Hready Hidx Hc0. unfold Transformer_draft_prefill.
  destruct (freqs_cis self) as [table|] eqn:Htable; [|done].
  destruct (mapM (index_rows table) input_pos) as [freqs|]; simpl; [|done].
  destruct (mapM (mapM (embed tok_embeddings _)) idx) as [x|] eqn:Hx; simpl; [|done].
  apply embed_rows in Hx.
  destruct (run_layers _ _ _ _ _ _ _ 0 (layers self) x freqs _ _) as [[out layers']|]
    eqn:Hrun; simpl; [|done].
  intros [= <- <-]. simpl.
  destruct (run_layers_keeps _ B cap _ _ _ _ _ _ _ _ _ Hready
              (batch_of_map_length B _ _ Hx Hidx) Hc0 Hrun) as (Hshape & Hall & Hsf).
  split; [by eexists|]. split; [done|].
  split; [rewrite map_length_map_map; congruence|].
  do 5 (split; [done|]). split; [done|].
  unfold layers_ready. clear -Hall.
  induction Hall as [|a a' l l' (_ & _ & _ & _ & _ & c & c' & _ & Hc' & Hwf' & _) _ IH];
    constructor; [by exists c'|done].
Qed.

End DraftModelMore.

(** ** The further properties on the sample inputs *)

Lemma prefill_returned_length_witness :
  SelfSpec.cache_wf Samples.cache 2 20
  /\ batch_of 2 Samples.keys /\ batch_of 2 Samples.values
  /\ shape1 Samples.values = shape1 Samples.keys /\ 0 <= 17
  /\ exists k_ret v_ret self',
       SelfSpec.prefill Samples.cache [17; 17] Samples.keys Samples.values
         = Ok ((k_ret, v_ret), self')
       /\ length k_ret = 2%nat /\ rows_of 18 k_ret
       /\ length v_ret = 2%nat /\ rows_of 18 v_ret.
Proof.
  split; [exact sample_cache_wf|].
  split; [exact (proj1 sample_keys_shaped)|].
  split; [exact (proj2 sample_keys_shaped)|].
  split; [reflexivity|]. split; [lia|].
  exact (prefill_returned_length Samples.cache 17 [17] Samples.keys Samples.values 2 20
           sample_cache_wf (proj1 sample_keys_shaped) (proj2 sample_keys_shaped)
           eq_refl ltac:(lia)).
Defined.

Lemma prefill_keeps_buffer_witness :
  SelfSpec.cache_wf Samples.cache 2 20
  /\ batch_of 2 Samples.keys /\ batch_of 2 Samples.values
  /\ shape1 Samples.values = shape1 Samples.keys /\ 0 <= 17
  /\ exists ret self',
       SelfSpec.prefill Samples.cache [17; 17] Samples.keys Samples.values = Ok (ret, self')
       /\ map (drop 18) (SelfSpec.draft_k_cache self') = [[118; 119]; [218; 219]]%nat
       /\ map (drop 18) (SelfSpec.draft_v_cache self') = [[318; 319]; [418; 419]]%nat
       /\ SelfSpec.k_cache self' = SelfSpec.k_cache Samples.cache
       /\ SelfSpec.v_cache self' = SelfSpec.v_cache Samples.cache
       /\ SelfSpec.streaming_budget self' = 18.
Proof.
  split; [exact sample_cache_wf|].
  split; [exact (proj1 sample_keys_shaped)|].
  split; [exact (proj2 sample_keys_shaped)|].
  split; [reflexivity|]. split; [lia|].
  exact (prefill_keeps_buffer Samples.cache 17 [17] Samples.keys Samples.values 2 20
           sample_cache_wf (proj1 sample_keys_shaped) (proj2 sample_keys_shaped)
           eq_refl ltac:(lia)).
Defined.

Lemma prefill_overflow_ignores_cursor_witness :
  SelfSpec.cache_wf Samples.cache 2 20
  /\ batch_of 2 Samples.keys /\ batch_of 2 Samples.values
  /\ shape1 Samples.values = shape1 Samples.keys
  /\ SelfSpec.streaming_budget Samples.cache < 16 + Z.of_nat (shape1 Samples.keys)
  /\ SelfSpec.streaming_budget Samples.cache < 400 + Z.of_nat (shape1 Samples.keys)
  /\ SelfSpec.prefill Samples.cache [16; 16] Samples.keys Samples.values
     = SelfSpec.prefill Samples.cache [400] Samples.keys Samples.values.
Proof.
  split; [exact sample_cache_wf|].
  split; [exact (proj1 sample_keys_shaped)|].
  split; [exact (proj2 sample_keys_shaped)|].
  split; [reflexivity|]. split; [simpl; lia|]. split; [simpl; lia|].
  exact (prefill_overflow_ignores_cursor Samples.cache 16 400 [16] [] Samples.keys
           Samples.values 2 20 sample_cache_wf (proj1 sample_keys_shaped)
           (proj2 sample_keys_shaped) eq_refl ltac:(simpl; lia) ltac:(simpl; lia)).
Defined.

Lemma prefill_empty_witness :
  SelfSpec.cache_wf Samples.cache 2 20
  /\ length ([[]; []] : tensor nat) = 2%nat /\ rows_of 0 ([[]; []] : tensor nat)
  /\ 0 <= 5
  /\ SelfSpec.prefill Samples.cache [5; 5] [[]; []] [[]; []]
     = Ok ((map (take 5) (SelfSpec.draft_k_cache Samples.cache),
            map (take 5) (SelfSpec.draft_v_cache Samples.cache)), Samples.cache).
Proof.
  assert (rows_of 0 ([[]; []] : tensor nat)) as Hrows by (by repeat constructor).
  split; [exact sample_cache_wf|]. split; [reflexivity|]. split; [exact Hrows|].
  split; [lia|].
  exact (prefill_empty Samples.cache 5 [5] [[]; []] [[]; []] 2 20 sample_cache_wf
           eq_refl Hrows eq_refl Hrows ltac:(lia)).
Defined.

Lemma prefill_overflow_compose_witness :
  SelfSpec.cache_wf Samples.cache 2 20
  /\ batch_of 2 Samples.keys /\ batch_of 2 Samples.values
  /\ batch_of 2 Samples.keys16 /\ batch_of 2 Samples.values16
  /\ SelfSpec.streaming_budget Samples.cache < 16 + Z.of_nat (shape1 Samples.keys)
  /\ SelfSpec.streaming_budget Samples.cache < 19 + Z.of_nat (shape1 Samples.keys16)
  /\ exists r1 self1 r2 self2,
       SelfSpec.prefill Samples.cache [16; 16] Samples.keys Samples.values = Ok (r1, self1)
       /\ SelfSpec.prefill self1 [19; 19] Samples.keys16 Samples.values16 = Ok (r2, self2)
       /\ SelfSpec.prefill Samples.cache [16; 16]
            (zip_with app Samples.keys Samples.keys16)
            (zip_with app Samples.values Samples.values16) = Ok (r2, self2).
Proof.
  split; [exact sample_cache_wf|].
  split; [exact (proj1 sample_keys_shaped)|].
  split; [exact (proj2 sample_keys_shaped)|].
  split; [exact (proj1 sample_keys16_shaped)|].
  split; [exact (proj2 sample_keys16_shaped)|].
  split; [simpl; lia|]. split; [simpl; lia|].
  exact (prefill_overflow_compose Samples.cache 16 19 [16] [19] Samples.keys Samples.values
           Samples.keys16 Samples.values16 2 20 sample_cache_wf
           (proj1 sample_keys_shaped) (proj2 sample_keys_shaped) eq_refl
           (proj1 sample_keys16_shaped) (proj2 sample_keys16_shaped) eq_refl
           ltac:(simpl; lia) ltac:(simpl; lia)).
Defined.

Lemma find_multiple_least_witness :
  0 < 256
  /\ find_multiple 10922 256 = 11008
  /\ find_multiple 10922 256 mod 256 = 0
  /\ 10922 <= find_multiple 10922 256 < 10922 + 256
  /\ forall m, m mod 256 = 0 -> 10922 <= m -> find_multiple 10922 256 <= m.
Proof.
  split; [lia|]. split; [reflexivity|].
  exact (find_multiple_least 10922 256 ltac:(lia)).
Defined.

Lemma post_init_idempotent_witness :
  post_init (foldl set_field field_defaults MoreSamples.gqa_kwargs)
    = Ok MoreSamples.gqa_config
  /\ post_init MoreSamples.gqa_config = Ok MoreSamples.gqa_config.
Proof.
  split; [reflexivity|].
  exact (post_init_idempotent (foldl set_field field_defaults MoreSamples.gqa_kwargs)
           MoreSamples.gqa_config eq_refl).
Defined.

Lemma post_init_defaults_witness :
  let a := foldl set_field (field_defaults (F:=Q))
             [kw_block_size 4096; kw_n_layer 32; kw_n_head 32; kw_dim 4096] in
  exists cfg,
    post_init a = Ok cfg
    /\ intermediate_size a = None /\ Z.abs (dim a) < 2 ^ 50 /\ n_local_heads a = -1
    /\ int_truediv_trunc (2 * (4 * dim a)) 3 = Ok 10922
    /\ intermediate_size cfg = Some 11008
    /\ n_local_heads cfg = 32.
Proof.
  intros a.
  destruct (post_init a) as [cfg|] eqn:Hrun; [|vm_compute in Hrun; discriminate Hrun].
  exists cfg. split; [reflexivity|]. split; [reflexivity|].
  split; [vm_compute; reflexivity|]. split; [reflexivity|].
  destruct (post_init_defaults a cfg Hrun) as (_ & Hsize & Hheads & _).
  destruct (Hsize eq_refl) as (n & m & Hn & Hm & Hmod & Hrange & Hexact).
  specialize (Hexact ltac:(vm_compute; reflexivity)).
  change (Z.quot (8 * dim a) 3) with 10922 in Hexact. subst n.
  split; [exact Hn|]. split; [|exact (Hheads eq_refl)].
  rewrite Hm. f_equal.
  apply Z.mod_divide in Hmod; [|lia]. destruct Hmod as [k ->]. lia.
Defined.

Lemma from_name_fuzzy_sound_witness :
  table_get "Meta-Llama-3.1-8B" (transformer_configs (F:=Q)) = None
  /\ exists cfg k kwargs,
       from_name_in transformer_configs "Meta-Llama-3.1-8B" = Ok cfg
       /\ k ∈ fuzzy_matches (transformer_configs (F:=Q)) "Meta-Llama-3.1-8B"
       /\ contains (lower k) (lower "Meta-Llama-3.1-8B") = true
       /\ table_get k transformer_configs = Some kwargs
       /\ ModelArgs_new kwargs = Ok cfg
       /\ forall k', k' ∈ fuzzy_matches (transformer_configs (F:=Q)) "Meta-Llama-3.1-8B" ->
                     k' <> k -> (String.length k' < String.length k)%nat.
Proof.
  split; [reflexivity|].
  destruct (from_name_in (transformer_configs (F:=Q)) "Meta-Llama-3.1-8B") as [cfg|] eqn:Hrun;
    [|vm_compute in Hrun; discriminate Hrun].
  destruct (from_name_fuzzy_sound transformer_configs "Meta-Llama-3.1-8B" cfg
              eq_refl Hrun) as (k & kwargs & Hall).
  by exists cfg, k, kwargs.
Defined.

Lemma transformer_configs_sound_witness :
  table_get "tinyllama" (transformer_configs (F:=Q))
    = Some [kw_block_size 2048; kw_n_layer 22; kw_n_head 32; kw_n_local_heads 4;
            kw_dim 2048; kw_intermediate_size (Some 5632); kw_vocab_size 32000]
  /\ exists cfg,
       from_name (F:=Q) "tinyllama" = Ok cfg
       /\ dim cfg mod n_head cfg = 0
       /\ head_dim cfg * n_head cfg = dim cfg
       /\ 0 < n_local_heads cfg /\ n_head cfg mod n_local_heads cfg = 0
       /\ (is_Some (low_freq_factor cfg) <-> is_Some (high_freq_factor cfg))
       /\ (is_Some (low_freq_factor cfg) <->
           is_Some (original_max_position_embeddings cfg)).
Proof.
  split; [reflexivity|].
  exact (transformer_configs_sound (F:=Q) "tinyllama" _ eq_refl).
Defined.

Lemma precompute_freqs_cis_shape_witness :
  precompute_freqs_cis (F:=Q) 3 2 10000%Q bfloat16 1%Q None None None
    = Ok MoreSamples.table3
  /\ 0 <= 3 /\ 0 <= 2 / 2
  /\ length MoreSamples.table3 = 3%nat
  /\ Forall (fun row => length row = 1%nat) MoreSamples.table3.
Proof.
  split; [reflexivity|].
  exact (precompute_freqs_cis_shape (F:=Q) 3 2 10000%Q bfloat16 1%Q None None None
           MoreSamples.table3 eq_refl).
Defined.

Lemma precompute_freqs_cis_prefix_witness :
  0 <= 2 <= 3
  /\ precompute_freqs_cis (F:=Q) 3 2 10000%Q bfloat16 1%Q None None None
       = Ok MoreSamples.table3
  /\ precompute_freqs_cis (F:=Q) 2 2 10000%Q bfloat16 1%Q None None None
       = Ok (take 2 MoreSamples.table3).
Proof.
  split; [lia|]. split; [reflexivity|].
  exact (precompute_freqs_cis_prefix (F:=Q) 2 3 2 10000%Q bfloat16 1%Q None None None
           MoreSamples.table3 ltac:(lia) eq_refl).
Defined.


Lemma KVCache_new_wf_witness :
  SelfSpec.KVCache_new (F:=Q) 1 4 1 2 bfloat16 17 1 = Ok Samples.draft_cache
  /\ 16 < 17 /\ 0 <= 1
  /\ SelfSpec.cache_wf Samples.draft_cache 1 18
  /\ SelfSpec.streaming_budget Samples.draft_cache = 17
  /\ length (SelfSpec.k_cache Samples.draft_cache) = 1%nat
  /\ rows_of 4 (SelfSpec.k_cache Samples.draft_cache)
  /\ SelfSpec.v_cache Samples.draft_cache = SelfSpec.k_cache Samples.draft_cache.
Proof.
  split; [reflexivity|]. split; [lia|]. split; [lia|].
  exact (KVCache_new_wf (F:=Q) 1 4 1 2 bfloat16 17 1 Samples.draft_cache eq_refl
           ltac:(lia) ltac:(lia)).
Defined.

Lemma wide_setup_runs :
  SelfSpec.setup_caches MoreSamples.wide_model 1 32 17 1 = Ok MoreSamples.wide_ready.
Proof. by vm_compute. Qed.

Lemma draft_setup_tables_witness :
  (SelfSpec.max_seq_length MoreSamples.wide_model < 32
   \/ SelfSpec.max_batch_size MoreSamples.wide_model < 1)
  /\ SelfSpec.setup_caches MoreSamples.wide_model 1 32 17 1 = Ok MoreSamples.wide_ready
  /\ SelfSpec.max_batch_size MoreSamples.wide_ready = 1
  /\ SelfSpec.max_seq_length MoreSamples.wide_ready = 32
  /\ SelfSpec.config MoreSamples.wide_ready = SelfSpec.config MoreSamples.wide_model
  /\ 17 <= block_size (SelfSpec.config MoreSamples.wide_model)
  /\ exists table,
       SelfSpec.freqs_cis MoreSamples.wide_ready = Some table
       /\ length table = 32%nat
       /\ SelfSpec.streaming_freqs MoreSamples.wide_ready = Some [take 17 table].
Proof.
  assert (SelfSpec.max_seq_length MoreSamples.wide_model < 32
          \/ SelfSpec.max_batch_size MoreSamples.wide_model < 1) as Hguard
    by (left; simpl; lia).
  split; [exact Hguard|]. split; [exact wide_setup_runs|].
  destruct (draft_setup_tables MoreSamples.wide_model MoreSamples.wide_ready 1 32 17 1
              Hguard wide_setup_runs)
    as (Hmbs & Hmsl & Hconfig & _ & _ & Hbudget & Htable).
  split; [exact Hmbs|]. split; [exact Hmsl|]. split; [exact Hconfig|].
  split; [exact (Hbudget ltac:(lia))|exact Htable].
Defined.

Lemma draft_setup_layers_witness :
  (SelfSpec.max_seq_length MoreSamples.wide_model < 32
   \/ SelfSpec.max_batch_size MoreSamples.wide_model < 1)
  /\ SelfSpec.setup_caches MoreSamples.wide_model 1 32 17 1 = Ok MoreSamples.wide_ready
  /\ length (SelfSpec.layers MoreSamples.wide_ready) = 1%nat
  /\ exists c,
       SelfSpec.layers MoreSamples.wide_ready !! 0%nat
       = Some (SelfSpec.mkAttention (SelfSpec.wqkv (Samples.attention None))
                 (SelfSpec.wo (Samples.attention None)) (Some c) false (Some 0) bfloat16)
       /\ SelfSpec.streaming_budget c = 17
       /\ SelfSpec.cache_wf c 1 18.
Proof.
  assert (SelfSpec.max_seq_length MoreSamples.wide_model < 32
          \/ SelfSpec.max_batch_size MoreSamples.wide_model < 1) as Hguard
    by (left; simpl; lia).
  split; [exact Hguard|]. split; [exact wide_setup_runs|].
  destruct (draft_setup_layers MoreSamples.wide_model MoreSamples.wide_ready 1 32 17 1
              Hguard wide_setup_runs) as [Hlen Hlayers].
  split; [exact Hlen|].
  destruct (Hlayers 0%nat (Samples.attention None) eq_refl) as (c & Hc & Hsb & Hwf).
  exists c. split; [exact Hc|]. split; [exact Hsb|].
  exact (Hwf ltac:(lia) ltac:(lia)).
Defined.

Lemma draft_setup_then_covered_witness :
  (SelfSpec.max_seq_length MoreSamples.wide_model < 32
   \/ SelfSpec.max_batch_size MoreSamples.wide_model < 1)
  /\ SelfSpec.setup_caches MoreSamples.wide_model 1 32 17 1 = Ok MoreSamples.wide_ready
  /\ 1 <= 1 /\ 16 <= 32
  /\ SelfSpec.setup_caches MoreSamples.wide_ready 1 16 30 4 = Ok MoreSamples.wide_ready.
Proof.
  assert (SelfSpec.max_seq_length MoreSamples.wide_model < 32
          \/ SelfSpec.max_batch_size MoreSamples.wide_model < 1) as Hguard
    by (left; simpl; lia).
  split; [exact Hguard|]. split; [exact wide_setup_runs|].
  split; [lia|]. split; [lia|].
  exact (draft_setup_then_covered MoreSamples.wide_model MoreSamples.wide_ready
           1 32 17 1 1 16 30 4 Hguard wide_setup_runs ltac:(lia) ltac:(lia)).
Defined.

Lemma sample_heads_shaped : rotary_shaped MoreSamples.heads MoreSamples.pairs.
Proof. by repeat constructor. Qed.

Lemma sample_heads_present : has_heads MoreSamples.heads.
Proof. split; [done|]. by repeat constructor. Qed.

Lemma apply_rotary_emb_returns_witness :
  rotary_shaped MoreSamples.heads MoreSamples.pairs
  /\ has_heads MoreSamples.heads
  /\ exists out,
       apply_rotary_emb bfloat16 MoreSamples.heads MoreSamples.pairs = Ok out
       /\ length out = 1%nat /\ shape1 out = 2%nat.
Proof.
  split; [exact sample_heads_shaped|]. split; [exact sample_heads_present|].
  exact (apply_rotary_emb_returns bfloat16 MoreSamples.heads MoreSamples.pairs
           sample_heads_shaped sample_heads_present).
Defined.

Lemma apply_rotary_emb_pairs_witness :
  apply_rotary_emb bfloat16 MoreSamples.heads MoreSamples.pairs = Ok MoreSamples.rotated
  /\ MoreSamples.heads !! 0%nat = Some [[[1; 2; 3; 4]%Q]; [[5; 6; 7; 8]%Q]]
  /\ MoreSamples.pairs !! 0%nat = Some [[(1, 0); (0, 1)]%Q; [(2, 1); (1, 2)]%Q]
  /\ exists r' e' h',
       MoreSamples.rotated !! 0%nat = Some r' /\ r' !! 1%nat = Some e'
       /\ e' !! 0%nat = Some h' /\ length h' = 4%nat
       /\ h' !! 2%nat = Some (-9)%Q /\ h' !! 3%nat = Some 22%Q.
Proof.
  split; [reflexivity|]. split; [reflexivity|]. split; [reflexivity|].
  destruct (apply_rotary_emb_pairs bfloat16 MoreSamples.heads MoreSamples.pairs
              MoreSamples.rotated 0 1 0 1
              [[[1; 2; 3; 4]%Q]; [[5; 6; 7; 8]%Q]] [[5; 6; 7; 8]%Q] [5; 6; 7; 8]%Q
              [[(1, 0); (0, 1)]%Q; [(2, 1); (1, 2)]%Q] [(2, 1); (1, 2)]%Q 1%Q 2%Q
              eq_refl eq_refl eq_refl eq_refl eq_refl eq_refl eq_refl)
    as (a0 & a1 & r' & e' & h' & Ha0 & Ha1 & Hr & He & Hh & Hlen & H0 & H1).
  injection Ha0 as <-. injection Ha1 as <-.
  exists r', e', h'. split; [exact Hr|]. split; [exact He|]. split; [exact Hh|].
  split; [exact Hlen|]. split; [exact H0|exact H1].
Defined.

Lemma draft_last_runs :
  SelfSpec.draft_prefill Samples.kernel Samples.reduce
    (Samples.attention (Some Samples.draft_cache)) Samples.hidden
    Samples.absolute_freqs Samples.local_freqs [15] true
  = Ok MoreSamples.draft_last.
Proof. by vm_compute. Qed.

Lemma sample_hidden_shaped : batch_of 1 Samples.hidden.
Proof. by repeat constructor. Qed.

Lemma draft_prefill_keeps_shape_witness :
  SelfSpec.kv_cache (Samples.attention (Some Samples.draft_cache)) = Some Samples.draft_cache
  /\ SelfSpec.cache_wf Samples.draft_cache 1 18
  /\ batch_of 1 Samples.hidden /\ 0 <= 15
  /\ SelfSpec.draft_prefill Samples.kernel Samples.reduce
       (Samples.attention (Some Samples.draft_cache)) Samples.hidden
       Samples.absolute_freqs Samples.local_freqs [15] true
     = Ok MoreSamples.draft_last
  /\ exists c',
       SelfSpec.kv_cache MoreSamples.draft_last.2 = Some c'
       /\ SelfSpec.cache_wf c' 1 18
       /\ SelfSpec.streaming_budget c' = 17
       /\ SelfSpec.k_cache c' = SelfSpec.k_cache Samples.draft_cache
       /\ SelfSpec.v_cache c' = SelfSpec.v_cache Samples.draft_cache.
Proof.
  split; [reflexivity|]. split; [exact sample_draft_cache_wf|].
  split; [exact sample_hidden_shaped|]. split; [lia|]. split; [exact draft_last_runs|].
  exact (proj2 (proj2 (proj2 (proj2 (proj2
    (draft_prefill_keeps_shape Samples.kernel Samples.reduce
       (Samples.attention (Some Samples.draft_cache)) MoreSamples.draft_last.2
       Samples.draft_cache Samples.hidden MoreSamples.draft_last.1
       Samples.absolute_freqs Samples.local_freqs 15 [] true 1 18
       eq_refl sample_draft_cache_wf sample_hidden_shaped ltac:(lia)
       draft_last_runs)))))).
Defined.

Lemma draft_prefill_without_cache_witness :
  SelfSpec.kv_cache (Samples.attention None) = None
  /\ is_ok (SelfSpec.draft_prefill Samples.kernel Samples.reduce (Samples.attention None)
              Samples.hidden Samples.absolute_freqs Samples.local_freqs [0] true) = false
  /\ SelfSpec.draft_prefill Samples.kernel Samples.reduce (Samples.attention None)
       Samples.hidden Samples.absolute_freqs Samples.local_freqs [0] true
     = Raise AttributeError
  /\ SelfSpec.draft_prefill Samples.kernel Samples.reduce (Samples.attention None)
       Samples.hidden Samples.absolute_freqs Samples.local_freqs [0] false
     = Ok ([[0; 0; 0]%Q], Samples.attention None).
Proof.
  split; [reflexivity|].
  destruct (draft_prefill_without_cache Samples.kernel Samples.reduce
              (Samples.attention None) Samples.hidden Samples.absolute_freqs
              Samples.local_freqs [0] eq_refl) as [Hnever Hruns].
  split; [exact Hnever|].
  edestruct Hruns as [Hlast Hother]; [vm_compute; reflexivity..|].
  split; [exact Hlast|exact Hother].
Defined.

Lemma qkv_split_fits_witness :
  ModelArgs_new MoreSamples.gqa_kwargs = Ok MoreSamples.gqa_config
  /\ Projection.Attention_new MoreSamples.gqa_config = Ok MoreSamples.gqa_attention
  /\ 0 < n_head MoreSamples.gqa_config /\ 0 <= n_local_heads MoreSamples.gqa_config
  /\ length (seq 0 16) = Z.to_nat (Projection.wqkv_out_features MoreSamples.gqa_attention)
  /\ dim MoreSamples.gqa_config
     = n_head MoreSamples.gqa_config * head_dim MoreSamples.gqa_config
  /\ Projection.qkv_split MoreSamples.gqa_attention (seq 0 16)
     = Ok [seq 0 8; seq 8 4; seq 12 4].
Proof.
  split; [reflexivity|]. split; [reflexivity|]. split; [by vm_compute|].
  split; [by vm_compute|]. split; [reflexivity|].
  destruct (qkv_split_fits MoreSamples.gqa_kwargs MoreSamples.gqa_config
              MoreSamples.gqa_attention (seq 0 16) eq_refl eq_refl
              ltac:(by vm_compute) ltac:(by vm_compute) eq_refl)
    as (Hdim & q & k & v & Hsplit & _).
  split; [exact Hdim|]. reflexivity.
Defined.

Lemma load_hook_fuses_witness :
  MoreSamples.checkpoint !! "l0.wq.weight"%string = Some MoreSamples.wq
  /\ MoreSamples.checkpoint !! "l0.wk.weight"%string = Some MoreSamples.wk
  /\ MoreSamples.checkpoint !! "l0.wv.weight"%string = Some MoreSamples.wv
  /\ exists state_dict',
       Projection.load_hook MoreSamples.checkpoint "l0." = Ok state_dict'
       /\ state_dict' !! "l0.wqkv.weight"%string
          = Some (Projection.mkWeight [1; 2; 3; 4; 5; 6; 7; 8]%nat 2)
       /\ state_dict' !! "l0.wq.weight"%string = None
       /\ state_dict' !! "l0.wo.weight"%string = Some MoreSamples.wo.
Proof.
  split; [by vm_compute|]. split; [by vm_compute|]. split; [by vm_compute|].
  destruct (load_hook_fuses MoreSamples.checkpoint "l0."
              MoreSamples.wq MoreSamples.wk MoreSamples.wv
              ltac:(by vm_compute) ltac:(by vm_compute) ltac:(by vm_compute)
              eq_refl eq_refl)
    as (state_dict' & Hrun & Hfused & Hq & _ & _ & Hother).
  exists state_dict'. split; [exact Hrun|]. split; [exact Hfused|]. split; [exact Hq|].
  rewrite (Hother "l0.wo.weight"%string) by done.
  by vm_compute.
Defined.

Lemma load_hook_idempotent_witness :
  Projection.load_hook MoreSamples.checkpoint "l0." = Ok MoreSamples.fused
  /\ Projection.load_hook MoreSamples.fused "l0." = Ok MoreSamples.fused.
Proof.
  assert (Projection.load_hook MoreSamples.checkpoint "l0."
          = Ok MoreSamples.fused) as Hrun by (vm_compute; exact eq_refl).
  split; [exact Hrun|].
  exact (load_hook_idempotent MoreSamples.checkpoint MoreSamples.fused
           "l0." Hrun).
Defined.

Lemma load_hook_partial_witness :
  Projection.load_hook MoreSamples.fused "l0." = Ok MoreSamples.fused
  /\ Projection.load_hook MoreSamples.broken "l0." = Raise KeyError.
Proof.
  destruct (load_hook_partial MoreSamples.fused "l0.") as (Hnone & _).
  destruct (load_hook_partial MoreSamples.broken "l0.")
    as (_ & Hmissing & _).
  split.
  - apply Hnone. by vm_compute.
  - apply Hmissing; [exists MoreSamples.wq|right]; by vm_compute.
Defined.

Lemma counter_one_token_each :
  Benchmark.one_token_each MoreSamples.counter_inference 2.
Proof.
  intros e ids Hlen. unfold MoreSamples.counter_inference. simpl.
  split; [by rewrite length_map|].
  unfold rows_of. rewrite Forall_fmap. by apply Forall_true.
Qed.

Lemma started_shaped : Benchmark.loop_shaped 2 MoreSamples.started.
Proof. by repeat constructor. Qed.

Lemma decode_loop_bound_witness :
  Benchmark.one_token_each MoreSamples.counter_inference 2
  /\ (0 < 2)%nat /\ Benchmark.loop_shaped 2 MoreSamples.started
  /\ exists st',
       Benchmark.decode_loop MoreSamples.counter_inference 2 99 8 4 MoreSamples.started
         = Ok (Some st')
       /\ Benchmark.output st'
          = [[11; 12; 13; 13; 0; 1; 2]; [21; 22; 23; 23; 0; 1; 2]]
       /\ Benchmark.model_steps st' = 3
       /\ Benchmark.terminate st' = true.
Proof.
  split; [exact counter_one_token_each|]. split; [lia|]. split; [exact started_shaped|].
  destruct (decode_loop_bound MoreSamples.counter_inference 2 99 8 2 MoreSamples.started
              counter_one_token_each ltac:(lia) started_shaped)
    as (st' & Hrun & _).
  exists st'. split; [exact Hrun|].
  vm_compute in Hrun. injection Hrun as <-. by vm_compute.
Defined.

Lemma eval_step_report_witness :
  Benchmark.one_token_each MoreSamples.counter_inference 2
  /\ (0 < 2)%nat /\ batch_of 2 MoreSamples.prompt
  /\ Benchmark.eval_step MoreSamples.counter_encode MoreSamples.counter_inference 2 99 4
       0 0 0%nat 0%Q 0 MoreSamples.prompt 10%Q 16%Q = Raise ZeroDivisionError
  /\ exists res,
       Benchmark.eval_step MoreSamples.counter_encode MoreSamples.counter_inference 2 99 8
         4 12 0%nat 1%Q 1 MoreSamples.prompt 10%Q 16%Q = Ok (Some res)
       /\ Benchmark.res_printed res = (7 # 4)%Q
       /\ Benchmark.res_model_steps res = 4
       /\ Benchmark.res_total_time res = 7%Q.
Proof.
  assert (batch_of 2 MoreSamples.prompt) as Hprompt by (by repeat constructor).
  assert (Forall (fun r : list Z => r <> [])
            (MoreSamples.counter_encode 0%nat MoreSamples.prompt).1) as Hne
    by (by repeat constructor).
  split; [exact counter_one_token_each|]. split; [lia|]. split; [exact Hprompt|].
  split.
  - destruct (eval_step_report (F:=Q) MoreSamples.counter_encode
                MoreSamples.counter_inference 2 99 4 2 0 0%nat 0%Q 0 MoreSamples.prompt
                10%Q 16%Q counter_one_token_each ltac:(lia) Hprompt eq_refl Hne
                ltac:(lia)) as [Hzero _].
    exact (Hzero eq_refl ltac:(simpl; lia) 0%nat).
  - destruct (eval_step_report (F:=Q) MoreSamples.counter_encode
                MoreSamples.counter_inference 2 99 8 2 12 0%nat 1%Q 1 MoreSamples.prompt
                10%Q 16%Q counter_one_token_each ltac:(lia) Hprompt eq_refl Hne
                ltac:(lia)) as [_ Hruns].
    destruct (Hruns ltac:(simpl; lia)) as (res & k & Hrun & _).
    exists res. split; [exact Hrun|].
    vm_compute in Hrun. injection Hrun as <-. by vm_compute.
Defined.

Lemma wide_layers_ready :
  DraftModel.layers_ready 1 18 (SelfSpec.layers MoreSamples.wide_ready).
Proof.
  constructor; [|constructor].
  eexists. split; [vm_compute; reflexivity|].
  constructor; simpl; try done; try lia; by repeat constructor.
Qed.

Lemma stack_step_runs :
  DraftModel.Transformer_draft_prefill Samples.kernel Samples.reduce inject_Z Qplus
    (fun _ x => x) (fun _ x => x) (fun _ x => x) (fun x => x) (fun x => x)
    MoreSamples.wide_ready [[1; 2; 3]] [[15; 16; 17]] [15] false
  = Ok MoreSamples.stack_step.
Proof. by vm_compute. Qed.

Lemma Transformer_draft_prefill_keeps_shape_witness :
  DraftModel.layers_ready 1 18 (SelfSpec.layers MoreSamples.wide_ready)
  /\ batch_of 1 ([[1; 2; 3]] : tensor Z) /\ 0 <= 15
  /\ DraftModel.Transformer_draft_prefill Samples.kernel Samples.reduce inject_Z Qplus
       (fun _ x => x) (fun _ x => x) (fun _ x => x) (fun x => x) (fun x => x)
       MoreSamples.wide_ready [[1; 2; 3]] [[15; 16; 17]] [15] false
     = Ok MoreSamples.stack_step
  /\ map length MoreSamples.stack_step.1 = [3%nat]
  /\ Forall2 (DraftModel.layer_kept 1 18) (SelfSpec.layers MoreSamples.wide_ready)
       (SelfSpec.layers MoreSamples.stack_step.2)
  /\ DraftModel.layers_ready 1 18 (SelfSpec.layers MoreSamples.stack_step.2).
Proof.
  assert (batch_of 1 ([[1; 2; 3]] : tensor Z)) as Hidx by (by repeat constructor).
  split; [exact wide_layers_ready|]. split; [exact Hidx|]. split; [lia|].
  split; [exact stack_step_runs|].
  destruct (Transformer_draft_prefill_keeps_shape Samples.kernel Samples.reduce inject_Z
              Qplus (fun _ x => x) (fun _ x => x) (fun _ x => x) (fun x => x)
              (fun x => x) MoreSamples.wide_ready MoreSamples.stack_step.2
              [[1; 2; 3]] [[15; 16; 17]] 15 [] false MoreSamples.stack_step.1 1 18
              wide_layers_ready Hidx ltac:(lia) stack_step_runs)
    as (_ & _ & Hlogits & _ & _ & _ & _ & _ & Hkept & Hready).
  split; [exact Hlogits|]. split; [exact Hkept|exact Hready].
Defined.

(** ** The corners of the definitions *)

(** [int(2 ** 63 / 3)] is the truncation of the nearest double, 170 below the
    exact quotient; a quotient beyond the doubles is an overflow; and a
    configuration of [dim = 2 ** 60] gets that rounded width, which is a
    multiple of 256. *)
Example int_truediv_trunc_rounds :
  int_truediv_trunc (2 ^ 63) 3 = Ok 3074457345618258432
  /\ Z.quot (2 ^ 63) 3 = 3074457345618258602
  /\ int_truediv_trunc (2 ^ 1030) 3 = Raise OverflowError
  /\ int_truediv_trunc (-7) 2 = Ok (-3)
  /\ (exists cfg,
        ModelArgs_new (F:=Q) [kw_dim (2 ^ 60)] = Ok cfg
        /\ intermediate_size cfg = Some 3074457345618258432).
Proof.
  split; [by vm_compute|]. split; [by vm_compute|]. split; [by vm_compute|].
  split; [by vm_compute|].
  destruct (ModelArgs_new (F:=Q) [kw_dim (2 ^ 60)]) as [cfg|] eqn:Hrun;
    [|vm_compute in Hrun; discriminate Hrun].
  exists cfg. split; [done|]. vm_compute in Hrun. by injection Hrun as <-.
Qed.

(** With no sequence in the batch the index into the table is empty and any
    streaming budget passes; with one sequence a budget beyond the 4
    positions of the table is an index error. *)
Example draft_setup_no_sequence :
  (exists self',
     SelfSpec.setup_caches Samples.draft_model 0 4 10 0 = Ok self'
     /\ SelfSpec.streaming_freqs self' = Some [])
  /\ SelfSpec.setup_caches Samples.draft_model 1 4 10 0 = Raise IndexError.
Proof.
  split.
  - destruct (SelfSpec.setup_caches Samples.draft_model 0 4 10 0) as [self'|] eqn:Hrun;
      [|vm_compute in Hrun; discriminate Hrun].
    exists self'. split; [done|]. vm_compute in Hrun. by injection Hrun as <-.
  - by vm_compute.
Qed.

(** A tensor without a position cannot be reshaped into pairs. *)
Example apply_rotary_emb_no_position :
  apply_rotary_emb (F:=Q) bfloat16 [[]] [[]] = Raise RuntimeError
  /\ apply_rotary_emb (F:=Q) bfloat16 [] [] = Raise RuntimeError
  /\ apply_rotary_emb (F:=Q) bfloat16 [[[[]]]] [[[]]] = Ok [[[[]]]].
Proof. by vm_compute. Qed.
